(** * update-mod-nss: transactional replacement of the mod_nss database
      directory behind /etc/httpd/alias

    A shallow embedding of [update-mod-nss.c].  The program is a straight
    sequence of system calls and NSS library calls, each followed by a
    [FATAL] exit on error.  The embedding keeps that shape:

    - the operating system is an inode table ([OS]); a file descriptor is
      modelled by the inode it designates;
    - every system call goes through [sys], which lets other processes run
      first ([interfere]), may fail on its own ([faulty]), and records the
      call together with the resulting state in a log;
    - the program's functions are written in an error monad [M] over the
      [World], one definition per C function, with the C names. *)

From stdpp Require Import gmap strings list fin_maps.
From Stdlib Require Import ZArith Lia Strings.Byte Strings.Ascii DecimalString
  DecimalPos.
From Stdlib Require Strings.String.

Open Scope Z_scope.

(** ** Data model *)

(** Inode numbers. *)
Abbreviation ino := nat.

Record timespec := { tv_sec : Z; tv_nsec : Z }.

(** What an inode holds.  [Special] stands for sockets, FIFOs and device
    nodes; its argument is the S_IFMT value. *)
Inductive payload :=
| Reg (data : list byte)
| Lnk (target : string)
| Dir (entries : gmap string ino)
| Special (fmt : Z).

Record inode := {
  i_perm : Z;
  i_uid : Z;
  i_gid : Z;
  i_atim : timespec;
  i_mtim : timespec;
  i_body : payload }.

(** The fields of [struct stat] the program reads. *)
Record stat := {
  st_mode : Z;
  st_uid : Z;
  st_gid : Z;
  st_size : Z;
  st_atim : timespec;
  st_mtim : timespec }.

(** Octal constants of the C headers are written in hexadecimal. *)
Definition S_IFMT : Z := 0xF000.
Definition S_IFREG : Z := 0x8000.
Definition S_IFLNK : Z := 0xA000.
Definition S_IFDIR : Z := 0x4000.
Definition S_IFIFO : Z := 0x1000.
Definition S_IFCHR : Z := 0x2000.
Definition S_IFBLK : Z := 0x6000.
Definition S_IFSOCK : Z := 0xC000.

Definition S_ISREG (m : Z) : bool := Z.land m S_IFMT =? S_IFREG.
Definition S_ISLNK (m : Z) : bool := Z.land m S_IFMT =? S_IFLNK.
Definition S_ISDIR (m : Z) : bool := Z.land m S_IFMT =? S_IFDIR.

Definition SSIZE_MAX : Z := 2 ^ 63 - 1.
Definition INT_MAX : Z := 2 ^ 31 - 1.
Definition INT_MIN : Z := - 2 ^ 31.
Definition PAGE_SIZE : Z := 4096.

Definition O_RDONLY : Z := 0.
Definition O_WRONLY : Z := 0x1.
Definition O_RDWR : Z := 0x2.
Definition O_CREAT : Z := 0x40.
Definition O_EXCL : Z := 0x80.
Definition O_DIRECTORY : Z := 0x10000.
Definition O_NOFOLLOW : Z := 0x20000.
Definition O_PATH : Z := 0x200000.

Definition AT_REMOVEDIR : Z := 0x200.

Definition has_flag (flags f : Z) : bool := negb (Z.land flags f =? 0).

Inductive errno :=
| ENOENT | EEXIST | ENOTDIR | EISDIR | ELOOP | EINVAL | EBADF
| ENOTEMPTY | ENXIO | EIO | ESEC.

Global Instance errno_eq_dec : EqDecision errno.
Proof. solve_decision. Defined.

Global Instance byte_eq_decision : EqDecision byte := byte_eq_dec.

(** A certificate record of the NSS database: the nickname it is stored
    under and the encoded certificate. *)
Record CertRecord := { nickname : string; derCert : list byte }.

Global Instance CertRecord_eq_dec : EqDecision CertRecord.
Proof. solve_decision. Defined.

(** The state of the machine the program runs on.  [paths] resolves the
    absolute paths the program opens ("/etc/httpd" and the certificate
    file); everything else is reached through directory descriptors.
    [clock] is the time in seconds since the epoch, a signed [time_t].
    [nss] is the database file the NSS library has open, if any.
    [fifo_readers] and [fifo_writers] are the FIFOs that some other process
    holds open for reading and for writing. *)
Record OS := {
  inodes : gmap ino inode;
  next_ino : ino;
  paths : gmap string ino;
  euid : Z;
  egid : Z;
  umask : Z;
  cwd : option ino;
  clock : Z;
  friendly : bool;
  nss : option ino;
  fifo_readers : gset ino;
  fifo_writers : gset ino }.

Definition with_inodes (m : gmap ino inode) (s : OS) : OS :=
  {| inodes := m; next_ino := next_ino s; paths := paths s; euid := euid s;
     egid := egid s; umask := umask s; cwd := cwd s; clock := clock s;
     friendly := friendly s; nss := nss s;
     fifo_readers := fifo_readers s; fifo_writers := fifo_writers s |}.

Definition with_next_ino (n : ino) (s : OS) : OS :=
  {| inodes := inodes s; next_ino := n; paths := paths s; euid := euid s;
     egid := egid s; umask := umask s; cwd := cwd s; clock := clock s;
     friendly := friendly s; nss := nss s;
     fifo_readers := fifo_readers s; fifo_writers := fifo_writers s |}.

Definition with_euid (u : Z) (s : OS) : OS :=
  {| inodes := inodes s; next_ino := next_ino s; paths := paths s; euid := u;
     egid := egid s; umask := umask s; cwd := cwd s; clock := clock s;
     friendly := friendly s; nss := nss s;
     fifo_readers := fifo_readers s; fifo_writers := fifo_writers s |}.

Definition with_egid (g : Z) (s : OS) : OS :=
  {| inodes := inodes s; next_ino := next_ino s; paths := paths s;
     euid := euid s; egid := g; umask := umask s; cwd := cwd s;
     clock := clock s; friendly := friendly s; nss := nss s;
     fifo_readers := fifo_readers s; fifo_writers := fifo_writers s |}.

Definition with_cwd (d : option ino) (s : OS) : OS :=
  {| inodes := inodes s; next_ino := next_ino s; paths := paths s;
     euid := euid s; egid := egid s; umask := umask s; cwd := d;
     clock := clock s; friendly := friendly s; nss := nss s;
     fifo_readers := fifo_readers s; fifo_writers := fifo_writers s |}.

Definition with_nss (d : option ino) (s : OS) : OS :=
  {| inodes := inodes s; next_ino := next_ino s; paths := paths s;
     euid := euid s; egid := egid s; umask := umask s; cwd := cwd s;
     clock := clock s; friendly := friendly s; nss := d;
     fifo_readers := fifo_readers s; fifo_writers := fifo_writers s |}.

Definition now_ts (s : OS) : timespec :=
  {| tv_sec := clock s; tv_nsec := 0 |}.

Definition ifmt (p : payload) : Z :=
  match p with
  | Reg _ => S_IFREG
  | Lnk _ => S_IFLNK
  | Dir _ => S_IFDIR
  | Special f => f
  end.

Definition size_of (p : payload) : Z :=
  match p with
  | Reg d => Z.of_nat (length d)
  | Lnk t => Z.of_nat (String.length t)
  | Dir _ => 4096
  | Special _ => 0
  end.

Definition stat_of (i : inode) : stat :=
  {| st_mode := Z.lor (ifmt (i_body i)) (i_perm i);
     st_uid := i_uid i; st_gid := i_gid i;
     st_size := size_of (i_body i);
     st_atim := i_atim i; st_mtim := i_mtim i |}.

Definition set_body (p : payload) (i : inode) : inode :=
  {| i_perm := i_perm i; i_uid := i_uid i; i_gid := i_gid i;
     i_atim := i_atim i; i_mtim := i_mtim i; i_body := p |}.

Definition set_perm (m : Z) (i : inode) : inode :=
  {| i_perm := m; i_uid := i_uid i; i_gid := i_gid i;
     i_atim := i_atim i; i_mtim := i_mtim i; i_body := i_body i |}.

Definition set_owner (u g : option Z) (i : inode) : inode :=
  {| i_perm := i_perm i; i_uid := default (i_uid i) u;
     i_gid := default (i_gid i) g;
     i_atim := i_atim i; i_mtim := i_mtim i; i_body := i_body i |}.

Definition set_times (a m : timespec) (i : inode) : inode :=
  {| i_perm := i_perm i; i_uid := i_uid i; i_gid := i_gid i;
     i_atim := a; i_mtim := m; i_body := i_body i |}.

Definition set_mtim (m : timespec) (i : inode) : inode :=
  set_times (i_atim i) m i.

(** A new inode as [open(O_CREAT)], [mkdir] and [symlink] make it: owned by
    the effective user and group, stamped with the current time. *)
Definition fresh_inode (s : OS) (perm : Z) (p : payload) : inode :=
  {| i_perm := perm; i_uid := euid s; i_gid := egid s;
     i_atim := now_ts s; i_mtim := now_ts s; i_body := p |}.

Definition apply_umask (s : OS) (mode : Z) : Z :=
  Z.land (Z.land mode 0xFFF) (Z.lxor 0xFFF (Z.land (umask s) 0x1FF)).

Definition dir_entries (s : OS) (d : ino) : option (gmap string ino) :=
  match inodes s !! d with
  | Some i => match i_body i with Dir es => Some es | _ => None end
  | None => None
  end.

Definition set_entries (d : ino) (es : gmap string ino) (s : OS) : OS :=
  with_inodes (alter (set_body (Dir es)) d (inodes s)) s.

(** Allocate inode [next_ino] and enter it in directory [d] under [name]. *)
Definition create_in (d : ino) (es : gmap string ino) (name : string)
    (i : inode) (s : OS) : ino * OS :=
  let n := next_ino s in
  (n, with_next_ino (S n)
        (set_entries d (<[name := n]> es)
           (with_inodes (<[n := i]> (inodes s)) s))).

(** ** The certificate database file

    The byte format of cert8.db belongs to the NSS library.  It is
    represented here by a simple self-delimiting code: a field is written
    as its bytes, each preceded by 01, and closed by 00; a record is the
    nickname field followed by the certificate field.  Only the round trip
    ([db_decode_encode]) matters to the program. *)

Fixpoint enc_field (l : list byte) : list byte :=
  match l with
  | [] => [x00]
  | b :: l' => x01 :: b :: enc_field l'
  end.

Fixpoint dec_field (l : list byte) : option (list byte * list byte) :=
  match l with
  | x00 :: r => Some ([], r)
  | x01 :: b :: r =>
      match dec_field r with
      | Some (f, r') => Some (b :: f, r')
      | None => None
      end
  | _ => None
  end.

Definition enc_record (r : CertRecord) : list byte :=
  enc_field (String.list_byte_of_string (nickname r)) ++ enc_field (derCert r).

Definition db_encode (rs : list CertRecord) : list byte :=
  concat (map enc_record rs).

Fixpoint dec_records (fuel : nat) (l : list byte) : option (list CertRecord) :=
  match l with
  | [] => Some []
  | _ =>
      match fuel with
      | O => None
      | S fuel' =>
          match dec_field l with
          | Some (n, r1) =>
              match dec_field r1 with
              | Some (c, r2) =>
                  match dec_records fuel' r2 with
                  | Some rs =>
                      Some ({| nickname := String.string_of_list_byte n;
                               derCert := c |} :: rs)
                  | None => None
                  end
              | None => None
              end
          | None => None
          end
      end
  end.

Definition db_decode (l : list byte) : option (list CertRecord) :=
  dec_records (length l) l.

(** ** System calls on the machine state

    Each returns [inl errno] and leaves the state alone, or [inr] the
    result and the new state.  Directories hold no "." and ".." entries;
    names are single path components. *)

Definition kcall (A : Type) := OS -> errno + (A * OS).

Definition upd_inode (fd : ino) (f : inode -> inode) : kcall unit := fun s =>
  match inodes s !! fd with
  | None => inl EBADF
  | Some _ => inr (tt, with_inodes (alter f fd (inodes s)) s)
  end.

(** [open] of an absolute path. *)
Definition k_open (path : string) (flags : Z) : kcall ino := fun s =>
  match paths s !! path with
  | None => inl ENOENT
  | Some i =>
      match inodes s !! i with
      | None => inl ENOENT
      | Some nd =>
          match i_body nd with
          | Dir _ => inr (i, s)
          | Special fmt =>
              if has_flag flags O_DIRECTORY then inl ENOTDIR
              else if fmt =? S_IFSOCK then inl ENXIO else inr (i, s)
          | _ => if has_flag flags O_DIRECTORY then inl ENOTDIR
                 else inr (i, s)
          end
      end
  end.

(** What [open] makes of an existing object, by its type and the flags.
    A socket cannot be opened; a device node and a FIFO can (for the FIFO
    see [open_sleeps]). *)
Definition open_existing (flags : Z) (i : ino) (nd : inode) : errno + ino :=
  match i_body nd with
  | Lnk _ =>
      if has_flag flags O_NOFOLLOW && has_flag flags O_PATH
           && negb (has_flag flags O_DIRECTORY)
      then inr i else inl ELOOP
  | Dir _ =>
      if negb (has_flag flags O_PATH)
           && (has_flag flags O_WRONLY || has_flag flags O_RDWR)
      then inl EISDIR else inr i
  | Reg _ => if has_flag flags O_DIRECTORY then inl ENOTDIR else inr i
  | Special fmt =>
      if has_flag flags O_DIRECTORY then inl ENOTDIR
      else if has_flag flags O_PATH then inr i
      else if fmt =? S_IFSOCK then inl ENXIO else inr i
  end.

(** The flags with which [open] can sleep: one direction only, and neither
    O_PATH nor O_DIRECTORY. *)
Definition one_way (flags : Z) : bool :=
  negb (has_flag flags O_PATH || has_flag flags O_DIRECTORY
        || has_flag flags O_RDWR).

(** With such flags, [open] of a FIFO does not return before another
    process holds the other end: a reader when it is opened for writing, a
    writer when it is opened for reading. *)
Definition open_sleeps (flags : Z) (i : ino) (nd : inode) (s : OS) : bool :=
  match i_body nd with
  | Special fmt =>
      (fmt =? S_IFIFO)
      && negb (bool_decide (i ∈ (if has_flag flags O_WRONLY
                                 then fifo_readers s else fifo_writers s)))
  | _ => false
  end.

Definition k_openat (d : ino) (name : string) (flags mode : Z) : kcall ino :=
  fun s =>
  match dir_entries s d with
  | None => inl ENOTDIR
  | Some es =>
      match es !! name with
      | None =>
          if has_flag flags O_CREAT
          then inr (create_in d es name
                      (fresh_inode s (apply_umask s mode) (Reg [])) s)
          else inl ENOENT
      | Some i =>
          if has_flag flags O_CREAT && has_flag flags O_EXCL then inl EEXIST
          else match inodes s !! i with
               | None => inl ENOENT
               | Some nd =>
                   match open_existing flags i nd with
                   | inl e => inl e
                   | inr fd => inr (fd, s)
                   end
               end
      end
  end.

Definition k_open_sleeps (path : string) (flags : Z) (s : OS) : bool :=
  match paths s !! path with
  | Some i =>
      match inodes s !! i with
      | Some nd => open_sleeps flags i nd s
      | None => false
      end
  | None => false
  end.

Definition k_openat_sleeps (d : ino) (name : string) (flags : Z) (s : OS)
    : bool :=
  match dir_entries s d with
  | Some es =>
      match es !! name with
      | Some i =>
          match inodes s !! i with
          | Some nd => open_sleeps flags i nd s
          | None => false
          end
      | None => false
      end
  | None => false
  end.

(** [open("/proc/self/fd/N", flags)]: a second descriptor for the object
    behind descriptor N. *)
Definition k_reopen (fd : ino) (flags : Z) : kcall ino := fun s =>
  match inodes s !! fd with
  | None => inl ENOENT
  | Some nd =>
      match open_existing flags fd nd with
      | inl e => inl e
      | inr fd' => inr (fd', s)
      end
  end.

Definition k_reopen_sleeps (fd : ino) (flags : Z) (s : OS) : bool :=
  match inodes s !! fd with
  | Some nd => open_sleeps flags fd nd s
  | None => false
  end.

Definition k_fstat (fd : ino) : kcall stat := fun s =>
  match inodes s !! fd with
  | None => inl EBADF
  | Some nd => inr (stat_of nd, s)
  end.

(** [readlinkat(fd, "", buf, n)] into a zeroed buffer of n+1 bytes: the
    first n bytes of the target. *)
Definition k_readlinkat (fd : ino) (n : Z) : kcall string := fun s =>
  match inodes s !! fd with
  | None => inl EBADF
  | Some nd =>
      match i_body nd with
      | Lnk t => inr (String.substring 0 (Z.to_nat n) t, s)
      | _ => inl EINVAL
      end
  end.

Definition k_ok : kcall unit := fun s => inr (tt, s).

Definition k_mkdirat (d : ino) (name : string) (mode : Z) : kcall unit :=
  fun s =>
  match dir_entries s d with
  | None => inl ENOTDIR
  | Some es =>
      match es !! name with
      | Some _ => inl EEXIST
      | None =>
          inr (tt, snd (create_in d es name
                          (fresh_inode s (apply_umask s mode) (Dir ∅)) s))
      end
  end.

Definition k_symlinkat (target : string) (d : ino) (name : string)
    : kcall unit := fun s =>
  match dir_entries s d with
  | None => inl ENOTDIR
  | Some es =>
      match es !! name with
      | Some _ => inl EEXIST
      | None =>
          if String.eqb target "" then inl ENOENT
          else inr (tt, snd (create_in d es name
                               (fresh_inode s 0x1FF (Lnk target)) s))
      end
  end.

(** [fchown] and [fchownat(fd, "", uid, gid, AT_EMPTY_PATH)]; [None] is the
    C argument -1, "leave unchanged". *)
Definition k_fchown (fd : ino) (u g : option Z) : kcall unit :=
  upd_inode fd (set_owner u g).

(** [fchmod]; it does not work on a symbolic link. *)
Definition k_fchmod (fd : ino) (mode : Z) : kcall unit := fun s =>
  match inodes s !! fd with
  | None => inl EBADF
  | Some nd =>
      match i_body nd with
      | Lnk _ => inl EBADF
      | _ => upd_inode fd (set_perm (Z.land mode 0xFFF)) s
      end
  end.

(** [futimens], and [utimensat] through /proc/self/fd. *)
Definition k_utimens (fd : ino) (a m : timespec) : kcall unit :=
  upd_inode fd (set_times a m).

Definition zeros (n : nat) : list byte := replicate n x00.

Definition k_fallocate (fd : ino) (len : Z) : kcall unit := fun s =>
  match inodes s !! fd with
  | None => inl EBADF
  | Some nd =>
      match i_body nd with
      | Reg d =>
          if len <=? 0 then inl EINVAL
          else upd_inode fd
                 (fun i => set_mtim (now_ts s)
                    (set_body (Reg (d ++ zeros (Z.to_nat len - length d))) i))
                 s
      | _ => inl EBADF
      end
  end.

Definition k_mmap (fd : ino) (len : Z) : kcall unit := fun s =>
  match inodes s !! fd with
  | None => inl EBADF
  | Some nd =>
      match i_body nd with
      | Reg _ => if len <=? 0 then inl EINVAL else inr (tt, s)
      | _ => inl EBADF
      end
  end.

(** The bytes of a mapping of a file of [len] bytes that can be touched:
    the pages up to the one that holds the last byte of the file. *)
Definition mapped (len : nat) : Z :=
  (Z.of_nat len + PAGE_SIZE - 1) / PAGE_SIZE * PAGE_SIZE.

(** [memcpy(dmap, smap, n)] through the two mappings: the first n bytes of
    the source file, as they are now, land in the destination file.  Past
    the end of the source the last page reads as zeros, and what is stored
    past the end of the destination is lost.  [None] when one of the files
    has become so short that the copy touches a page beyond its end: the
    process receives SIGBUS. *)
Definition k_memcpy (src dst : ino) (n : Z) (s : OS) : option OS :=
  match inodes s !! src, inodes s !! dst with
  | Some snd, Some dnd =>
      match i_body snd, i_body dnd with
      | Reg sd, Reg dd =>
          if (n <=? mapped (length sd)) && (n <=? mapped (length dd))
          then
            let k := Z.to_nat n in
            let bytes := take k sd ++ zeros (k - length sd) in
            Some (with_inodes
                    (<[dst := set_mtim (now_ts s)
                                (set_body (Reg (take (length dd) bytes
                                                ++ drop k dd)) dnd)]>
                       (inodes s)) s)
          else None
      | _, _ => Some s
      end
  | _, _ => Some s
  end.

Definition is_empty_dir (s : OS) (i : ino) : bool :=
  match dir_entries s i with
  | Some es => bool_decide (es = ∅)
  | None => false
  end.

Definition is_dir (s : OS) (i : ino) : bool :=
  match dir_entries s i with Some _ => true | None => false end.

Definition k_renameat (d1 : ino) (n1 : string) (d2 : ino) (n2 : string)
    : kcall unit := fun s =>
  match dir_entries s d1, dir_entries s d2 with
  | Some es1, Some es2 =>
      match es1 !! n1 with
      | None => inl ENOENT
      | Some i =>
          let move s :=
            match dir_entries (set_entries d1 (delete n1 es1) s) d2 with
            | Some es2' =>
                inr (tt, set_entries d2 (<[n2 := i]> es2')
                           (set_entries d1 (delete n1 es1) s))
            | None => inl ENOTDIR
            end in
          match es2 !! n2 with
          | None => move s
          | Some j =>
              if bool_decide (i = j) then inr (tt, s)
              else if is_dir s i
              then (if is_empty_dir s j then move s
                    else if is_dir s j then inl ENOTEMPTY else inl ENOTDIR)
              else (if is_dir s j then inl EISDIR else move s)
          end
      end
  | _, _ => inl ENOTDIR
  end.

Definition k_unlinkat (d : ino) (name : string) (flags : Z) : kcall unit :=
  fun s =>
  match dir_entries s d with
  | None => inl ENOTDIR
  | Some es =>
      match es !! name with
      | None => inl ENOENT
      | Some i =>
          if has_flag flags AT_REMOVEDIR
          then (if is_empty_dir s i
                then inr (tt, set_entries d (delete name es) s)
                else if is_dir s i then inl ENOTEMPTY else inl ENOTDIR)
          else (if is_dir s i then inl EISDIR
                else inr (tt, set_entries d (delete name es) s))
      end
  end.

(** [fdopendir]: the names the stream will deliver, "." and ".." first. *)
Definition k_fdopendir (fd : ino) : kcall (list string) := fun s =>
  match dir_entries s fd with
  | None => inl ENOTDIR
  | Some es => inr ("." :: ".." :: (map_to_list es).*1, s)
  end.

Definition k_read (fd : ino) (n : Z) : kcall (list byte) := fun s =>
  match inodes s !! fd with
  | None => inl EBADF
  | Some nd =>
      match i_body nd with
      | Reg d => inr (take (Z.to_nat n) d, s)
      | _ => inl EISDIR
      end
  end.

Definition k_time : kcall Z := fun s => inr (clock s, s).

Definition k_setegid (g : Z) : kcall unit := fun s => inr (tt, with_egid g s).
Definition k_seteuid (u : Z) : kcall unit := fun s => inr (tt, with_euid u s).

Definition k_fchdir (fd : ino) : kcall unit := fun s =>
  if is_dir s fd then inr (tt, with_cwd (Some fd) s) else inl ENOTDIR.

(** *** The NSS library *)

Definition reg_data (s : OS) (i : ino) : option (list byte) :=
  match inodes s !! i with
  | Some nd => match i_body nd with Reg d => Some d | _ => None end
  | None => None
  end.

Definition lookup_reg (s : OS) (es : gmap string ino) (name : string)
    : option ino :=
  match es !! name with
  | Some i => match reg_data s i with Some _ => Some i | None => None end
  | None => None
  end.

(** [NSS_InitReadWrite(".")]: the three database files of the working
    directory must be there and cert8.db must be readable as a database. *)
Definition k_NSS_InitReadWrite : kcall unit := fun s =>
  match cwd s with
  | None => inl ESEC
  | Some d =>
      match dir_entries s d with
      | None => inl ESEC
      | Some es =>
          match lookup_reg s es "cert8.db", lookup_reg s es "key3.db",
                lookup_reg s es "secmod.db" with
          | Some c, Some _, Some _ =>
              match reg_data s c ≫= db_decode with
              | Some _ => inr (tt, with_nss (Some c) s)
              | None => inl ESEC
              end
          | _, _, _ => inl ESEC
          end
      end
  end.

(** [PK11_GetInternalKeySlot]: a slot is the open database file. *)
Definition k_PK11_GetInternalKeySlot : kcall ino := fun s =>
  match nss s with
  | Some c => inr (c, s)
  | None => inl ESEC
  end.

Definition read_db (s : OS) (slot : ino) : option (list CertRecord) :=
  reg_data s slot ≫= db_decode.

Definition write_db (slot : ino) (rs : list CertRecord) (s : OS) : OS :=
  with_inodes
    (alter (fun i => set_mtim (now_ts s) (set_body (Reg (db_encode rs)) i))
       slot (inodes s)) s.

Definition k_PK11_ListCertsInSlot (slot : ino) : kcall (list CertRecord) :=
  fun s =>
  match read_db s slot with
  | Some rs => inr (rs, s)
  | None => inl ESEC
  end.

Fixpoint remove_first (c : CertRecord) (rs : list CertRecord)
    : option (list CertRecord) :=
  match rs with
  | [] => None
  | r :: rs' =>
      if decide (r = c) then Some rs'
      else match remove_first c rs' with
           | Some rs'' => Some (r :: rs'')
           | None => None
           end
  end.

Definition k_SEC_DeletePermCertificate (slot : ino) (c : CertRecord)
    : kcall unit := fun s =>
  match read_db s slot with
  | Some rs =>
      match remove_first c rs with
      | Some rs' => inr (tt, write_db slot rs' s)
      | None => inl ESEC
      end
  | None => inl ESEC
  end.

Definition k_PK11_ImportCert (slot : ino) (cert : list byte)
    (nick : string) : kcall unit := fun s =>
  match read_db s slot with
  | Some rs =>
      inr (tt, write_db slot
                 (rs ++ [{| nickname := nick; derCert := cert |}]) s)
  | None => inl ESEC
  end.

(** [CERT_DecodeCertFromPackage]: the certificate is kept as the bytes it
    was given in. *)
Definition k_CERT_DecodeCertFromPackage (pem : list byte)
    : kcall (list byte) := fun s =>
  match pem with
  | [] => inl ESEC
  | _ => inr (pem, s)
  end.

Definition k_NSS_Shutdown : kcall unit := fun s =>
  match nss s with
  | Some _ => inr (tt, with_nss None s)
  | None => inl ESEC
  end.

(** ** The world of a run *)

Inductive event :=
| EvOpen (path : string)
| EvOpenat (d : ino) (name : string) (flags : Z)
| EvReopen (fd : ino)
| EvFstat (fd : ino)
| EvReadlinkat (fd : ino)
| EvClose (fd : ino)
| EvMkdirat (d : ino) (name : string)
| EvSymlinkat (target : string) (d : ino) (name : string)
| EvFchown (fd : ino) (u g : option Z)
| EvFchmod (fd : ino) (mode : Z)
| EvUtimens (fd : ino) (a m : timespec)
| EvFallocate (fd : ino) (len : Z)
| EvMmap (fd : ino)
| EvMemcpy (src dst : ino) (n : Z)
| EvMunmap (fd : ino)
| EvRenameat (d1 : ino) (n1 : string) (d2 : ino) (n2 : string)
| EvUnlinkat (d : ino) (name : string) (flags : Z)
| EvFdopendir (fd : ino)
| EvReaddir
| EvClosedir
| EvRead (fd : ino)
| EvTime
| EvSetegid (g : Z)
| EvSeteuid (u : Z)
| EvFchdir (fd : ino)
| EvAlloc
| EvNSS_InitReadWrite
| EvPK11_GetInternalKeySlot
| EvPK11_ListCertsInSlot
| EvSEC_DeletePermCertificate (c : CertRecord)
| EvPK11_ImportCert (cert : list byte) (nick : string)
| EvCERT_DecodeCertFromPackage
| EvFormatNotAfter
| EvNSS_Shutdown
| EvPR_Cleanup.

(** One line of the log: the call, whether it succeeded, and the machine
    state it left behind. *)
Record entry := { e_call : event; e_ok : bool; e_after : OS }.

(** [faulty t] makes the call at tick [t] fail with EIO; [interfere t] is
    what other processes do to the machine just before that call.  The
    remaining fields are the program's global variables; those that
    [parse_args] sets are inputs here. *)
Record World := {
  os : OS;
  tick : nat;
  faulty : nat -> bool;
  interfere : nat -> OS -> OS;
  log : list entry;
  cert_hostname : string;
  verbosity : Z;
  nss_uid : Z;
  nss_gid : Z;
  new_dbdir_name : string;
  old_dbdir_name : string }.

Definition step_world (ev : event) (ok : bool) (s : OS) (w : World) : World :=
  {| os := s; tick := S (tick w); faulty := faulty w;
     interfere := interfere w;
     log := {| e_call := ev; e_ok := ok; e_after := s |} :: log w;
     cert_hostname := cert_hostname w; verbosity := verbosity w;
     nss_uid := nss_uid w; nss_gid := nss_gid w;
     new_dbdir_name := new_dbdir_name w;
     old_dbdir_name := old_dbdir_name w |}.

Definition with_new_dbdir_name (n : string) (w : World) : World :=
  {| os := os w; tick := tick w; faulty := faulty w;
     interfere := interfere w; log := log w;
     cert_hostname := cert_hostname w; verbosity := verbosity w;
     nss_uid := nss_uid w; nss_gid := nss_gid w;
     new_dbdir_name := n; old_dbdir_name := old_dbdir_name w |}.

Definition with_old_dbdir_name (n : string) (w : World) : World :=
  {| os := os w; tick := tick w; faulty := faulty w;
     interfere := interfere w; log := log w;
     cert_hostname := cert_hostname w; verbosity := verbosity w;
     nss_uid := nss_uid w; nss_gid := nss_gid w;
     new_dbdir_name := new_dbdir_name w; old_dbdir_name := n |}.

Inductive signal := SIGBUS | SIGSEGV.

(** How a function ends: it returns, it exits through [FATAL], an
    [assert] fails, the process is killed by a signal, it sleeps in a call
    that does not return, or the model runs out of recursion depth. *)
Inductive outcome (A : Type) :=
| Done (a : A)
| Fatal (msg : string)
| Aborted
| Killed (sig : signal)
| Asleep
| NoFuel.
Arguments Done {A} a.
Arguments Fatal {A} msg.
Arguments Aborted {A}.
Arguments Killed {A} sig.
Arguments Asleep {A}.
Arguments NoFuel {A}.

Definition M (A : Type) := World -> outcome A * World.

Definition ret {A} (a : A) : M A := fun w => (Done a, w).

Definition bind {A B} (m : M A) (k : A -> M B) : M B := fun w =>
  match m w with
  | (Done a, w') => k a w'
  | (Fatal msg, w') => (Fatal msg, w')
  | (Aborted, w') => (Aborted, w')
  | (Killed sig, w') => (Killed sig, w')
  | (Asleep, w') => (Asleep, w')
  | (NoFuel, w') => (NoFuel, w')
  end.

Notation "x <- m ;; k" := (bind m (fun x => k))
  (at level 100, m at level 99, k at level 200, only parsing).
Notation "m ;; k" := (bind m (fun _ => k))
  (at level 100, k at level 200, only parsing).

Definition FATAL {A} (msg : string) : M A := fun w => (Fatal msg, w).

Definition assert (b : bool) : M unit := fun w =>
  if b then (Done tt, w) else (Aborted, w).

Definition get {A} (f : World -> A) : M A := fun w => (Done (f w), w).

Definition put (f : World -> World) : M unit := fun w => (Done tt, f w).

(** A system or library call. *)
Definition sys {A} (ev : event) (op : kcall A) : M (errno + A) := fun w =>
  let s1 := interfere w (tick w) (os w) in
  if faulty w (tick w) then (Done (inl EIO), step_world ev false s1 w)
  else match op s1 with
       | inl e => (Done (inl e), step_world ev false s1 w)
       | inr (a, s2) => (Done (inr a), step_world ev true s2 w)
       end.

(** A step that has no error return (a store through a mapping): where
    [f] has no result the process is killed by SIGBUS. *)
Definition act (ev : event) (f : OS -> option OS) : M unit := fun w =>
  let s1 := interfere w (tick w) (os w) in
  match f s1 with
  | Some s2 => (Done tt, step_world ev true s2 w)
  | None => (Killed SIGBUS, step_world ev false s1 w)
  end.

(** The use of a pointer that may be NULL. *)
Definition kill {A} (sig : signal) : M A := fun w => (Killed sig, w).

(** The pattern [if (call(...) < 0) FATAL(msg)]. *)
Definition call {A} (ev : event) (op : kcall A) (msg : string) : M A :=
  r <- sys ev op ;;
  match r with
  | inl _ => FATAL msg
  | inr a => ret a
  end.

(** A call that may sleep: where [sleeps] holds of the state it finds, and
    it does not fail on its own, it never returns. *)
Definition or_sleep {A} (sleeps : OS -> bool) (m : M A) : M A := fun w =>
  if negb (faulty w (tick w)) && sleeps (interfere w (tick w) (os w))
  then (Asleep, w)
  else m w.

(** ** Strings and time *)

Definition slash : ascii := "/"%char.

Fixpoint memchr (c : ascii) (s : string) : bool :=
  match s with
  | EmptyString => false
  | String a s' => Ascii.eqb a c || memchr c s'
  end.

(** [*path != '/' && *path != 0] *)
Definition relative_nonempty (path : string) : bool :=
  match path with
  | EmptyString => false
  | String a _ => negb (Ascii.eqb a slash)
  end.

(** [path[0] == '/' && path[1] != 0] *)
Definition slash_then_more (path : string) : bool :=
  match path with
  | String a (String _ _) => Ascii.eqb a slash
  | _ => false
  end.

(** [*path == '/' || *path == 0] *)
Definition slash_or_empty (path : string) : bool :=
  match path with
  | EmptyString => true
  | String a _ => Ascii.eqb a slash
  end.

(** [path + 1] *)
Definition tail_str (path : string) : string :=
  match path with
  | EmptyString => EmptyString
  | String _ s => s
  end.

Record tm := {
  tm_sec : Z; tm_min : Z; tm_hour : Z;
  tm_mday : Z; tm_mon : Z; tm_year : Z }.

(** [gmtime]: the proleptic Gregorian calendar, by days since 1970-01-01
    counted in 400-year eras that start on 1 March.  The result is NULL
    ([None]) when the year since 1900 does not fit the [int] of
    [tm_year]. *)
Definition gmtime (t : Z) : option tm :=
  let days := t / 86400 in
  let rem := t mod 86400 in
  let z := days + 719468 in
  let era := z / 146097 in
  let doe := z mod 146097 in
  let yoe := (doe - doe / 1460 + doe / 36524 - doe / 146096) / 365 in
  let doy := doe - (365 * yoe + yoe / 4 - yoe / 100) in
  let mp := (5 * doy + 2) / 153 in
  let d := doy - (153 * mp + 2) / 5 + 1 in
  let m := if mp <? 10 then mp + 3 else mp - 9 in
  let y := yoe + era * 400 + (if m <=? 2 then 1 else 0) in
  if (INT_MIN <=? y - 1900) && (y - 1900 <=? INT_MAX)
  then Some {| tm_sec := rem mod 60; tm_min := rem mod 3600 / 60;
               tm_hour := rem / 3600;
               tm_mday := d; tm_mon := m - 1; tm_year := y - 1900 |}
  else None.

(** [%Y]: the year in decimal, as many digits as it takes. *)
Definition fmt_year (y : Z) : string :=
  DecimalString.NilZero.string_of_int (Z.to_int y).

(** [%m], [%d], [%H], [%M], [%S]: decimal, padded with a zero to two
    characters. *)
Definition pad2 (n : Z) : string :=
  let s := fmt_year n in
  if (String.length s <? 2)%nat then String "0" s else s.

(** [strftime(buf, max, "%Y%m%d%H%M%S", tm)]: the number of characters
    written and the text, or 0 when it does not fit in [max] bytes. *)
Definition strftime (max : Z) (t : tm) : Z * string :=
  let s := (fmt_year (tm_year t + 1900) ++ pad2 (tm_mon t + 1)
            ++ pad2 (tm_mday t) ++ pad2 (tm_hour t) ++ pad2 (tm_min t)
            ++ pad2 (tm_sec t))%string in
  if Z.of_nat (String.length s) + 1 <=? max
  then (Z.of_nat (String.length s), s)
  else (0, EmptyString).

Definition NSSDB_DIR_PATTERN : string := "alias-YYYYMMDDHHMMSS".
Definition NSSDB_DIR_PTN_LEN : Z := Z.of_nat (String.length NSSDB_DIR_PATTERN).
Definition NSSDB_DIR_PREFIX : string := "alias-".
Definition NSSDB_DIR_TSTAMP : string := "YYYYMMDDHHMMSS".
Definition NSSDB_DIR_TS_LEN : Z := Z.of_nat (String.length NSSDB_DIR_TSTAMP).
Definition NSSDB_DIR_TS_SIZE : Z := NSSDB_DIR_TS_LEN + 1.

Definition httpd_conf_dir : string := "/etc/httpd".
Definition acme_cert_dir : string := "/var/lib/acme".

Definition LOG_INFO : Z := 6.
Definition LOG_DEBUG : Z := 7.

(** ** The calls, as the program makes them

    Each takes the text of the [FATAL] message that follows it in the
    source (without its arguments). *)

Infix ".|" := Z.lor (at level 50, left associativity).

Definition open (path : string) (flags : Z) (msg : string) : M ino :=
  let c := call (EvOpen path) (k_open path flags) msg in
  if one_way flags then or_sleep (k_open_sleeps path flags) c else c.
Definition openat (d : ino) (name : string) (flags mode : Z) (msg : string)
    : M ino :=
  let c := call (EvOpenat d name flags) (k_openat d name flags mode) msg in
  if one_way flags then or_sleep (k_openat_sleeps d name flags) c else c.
Definition fstat (fd : ino) (msg : string) : M stat :=
  call (EvFstat fd) (k_fstat fd) msg.
Definition readlinkat (fd : ino) (n : Z) (msg : string) : M string :=
  call (EvReadlinkat fd) (k_readlinkat fd n) msg.
Definition close (fd : ino) (msg : string) : M unit :=
  call (EvClose fd) k_ok msg.
Definition mkdirat (d : ino) (name : string) (mode : Z) (msg : string)
    : M unit :=
  call (EvMkdirat d name) (k_mkdirat d name mode) msg.
Definition symlinkat (target : string) (d : ino) (name : string)
    (msg : string) : M unit :=
  call (EvSymlinkat target d name) (k_symlinkat target d name) msg.
Definition fchown (fd : ino) (u g : option Z) (msg : string) : M unit :=
  call (EvFchown fd u g) (k_fchown fd u g) msg.
Definition fchmod (fd : ino) (mode : Z) (msg : string) : M unit :=
  call (EvFchmod fd mode) (k_fchmod fd mode) msg.
Definition utimens (fd : ino) (a m : timespec) (msg : string) : M unit :=
  call (EvUtimens fd a m) (k_utimens fd a m) msg.
Definition fallocate (fd : ino) (len : Z) (msg : string) : M unit :=
  call (EvFallocate fd len) (k_fallocate fd len) msg.
Definition mmap (fd : ino) (len : Z) (msg : string) : M unit :=
  call (EvMmap fd) (k_mmap fd len) msg.
Definition memcpy (src dst : ino) (n : Z) : M unit :=
  act (EvMemcpy src dst n) (k_memcpy src dst n).
Definition munmap (fd : ino) (msg : string) : M unit :=
  call (EvMunmap fd) k_ok msg.
Definition renameat (d1 : ino) (n1 : string) (d2 : ino) (n2 : string)
    (msg : string) : M unit :=
  call (EvRenameat d1 n1 d2 n2) (k_renameat d1 n1 d2 n2) msg.
Definition unlinkat (d : ino) (name : string) (flags : Z) (msg : string)
    : M unit :=
  call (EvUnlinkat d name flags) (k_unlinkat d name flags) msg.
Definition fdopendir (fd : ino) (msg : string) : M (list string) :=
  call (EvFdopendir fd) (k_fdopendir fd) msg.
Definition closedir (msg : string) : M unit := call EvClosedir k_ok msg.
(** [malloc] and [asprintf] *)
Definition alloc (msg : string) : M unit := call EvAlloc k_ok msg.

Fixpoint for_each {A} (body : A -> M unit) (l : list A) : M unit :=
  match l with
  | [] => ret tt
  | x :: l' => body x ;; for_each body l'
  end.

(** [while ((errno = 0, d = readdir(dir)) != NULL) body], followed by the
    check of [errno]: one [readdir] per name and a last one that finds the
    end of the stream. *)
Fixpoint readdir_loop (body : string -> M unit) (names : list string)
    (msg : string) : M unit :=
  match names with
  | [] => call EvReaddir k_ok msg
  | d_name :: rest =>
      call EvReaddir k_ok msg ;;
      (if String.eqb d_name "." || String.eqb d_name ".." then ret tt
       else body d_name) ;;
      readdir_loop body rest msg
  end.

(** ** mod_nss database directories *)

Definition old_nssdb_dir (httpd_conf_dirfd : ino) : M (ino * stat) :=
  fd <- openat httpd_conf_dirfd "alias" (O_RDONLY .| O_NOFOLLOW .| O_PATH) 0
          "Failed to open symbolic link: %s/alias: %m" ;;
  linkst <- fstat fd "Failed to read symbolic link info: %s/alias: %m" ;;
  if negb (S_ISLNK (st_mode linkst))
  then FATAL "Not a symbolic link: %s/alias"
  else if st_size linkst >? NSSDB_DIR_PTN_LEN
  then FATAL "Symbolic link target too long: %s/alias"
  else
    put (with_old_dbdir_name "") ;;
    r <- sys (EvReadlinkat fd) (k_readlinkat fd NSSDB_DIR_PTN_LEN) ;;
    match r with
    | inl _ => FATAL "Failed to read symbolic link target: %s/alias: %m"
    | inr t =>
        put (with_old_dbdir_name t) ;;
        if memchr slash t
        then FATAL "Symbolic link target invalid: %s/alias -> %s"
        else
          alloc "Failed to format path: /proc/self/fd/%d: %m" ;;
          close fd "Failed to close symbolic link: %s/alias: %m" ;;
          fd <- openat httpd_conf_dirfd t
                  (O_RDONLY .| O_DIRECTORY .| O_NOFOLLOW) 0
                  "Failed to open directory: %s/%s: %m" ;;
          ret (fd, linkst)
    end.

Definition new_nssdb_dir (httpd_conf_dirfd : ino) : M ino :=
  r <- sys EvTime k_time ;;
  let now := match r with inl _ => -1 | inr t => t end in
  match gmtime now with
  | None => kill SIGSEGV (* tm->tm_year *)
  | Some tm =>
    if tm_year tm >? 9999 - 1900
    then FATAL "This program is not supported in the year %d"
    else
      put (with_new_dbdir_name NSSDB_DIR_PREFIX) ;;
      let (n, ts) := strftime NSSDB_DIR_TS_SIZE tm in
      if negb (n =? NSSDB_DIR_TS_LEN)
      then FATAL "Failed to format timestamp (%ld)"
      else
        let name := (NSSDB_DIR_PREFIX ++ ts)%string in
        put (with_new_dbdir_name name) ;;
        mkdirat httpd_conf_dirfd name 0x1E8 (* 0750 *)
          "Failed to create directory: %s/%s: %m" ;;
        dirfd <- openat httpd_conf_dirfd name
                   (O_RDONLY .| O_DIRECTORY .| O_NOFOLLOW) 0
                   "Failed to open directory: %s/%s: %m" ;;
        gid <- get nss_gid ;;
        fchown dirfd None (Some gid)
          "Failed to change owner of directory: %s/%s: %m" ;;
        ret dirfd
  end.

(** ** mod_nss database file-related functions *)

Definition copy_file_contents (src dest : ino) (path : string) (srcst : stat)
    : M unit :=
  assert (relative_nonempty path) ;;
  if st_size srcst =? 0 then ret tt
  else if (st_size srcst <? 0) || (st_size srcst >? SSIZE_MAX)
  then FATAL "File size invalid: %s/%s/%s"
  else
    fallocate dest (st_size srcst) "Failed to allocate file: %s/%s/%s: %m" ;;
    mmap src (st_size srcst) "Failed to map file: %s/%s/%s: %m" ;;
    mmap dest (st_size srcst) "Failed to map file: %s/%s/%s: %m" ;;
    memcpy src dest (st_size srcst) ;;
    munmap src "Failed to unmap file: %s/%s/%s: %m" ;;
    munmap dest "Failed to unmap file: %s/%s/%s: %m" ;;
    st <- fstat src "Failed to read file info: %s/%s/%s: %m" ;;
    if negb (tv_sec (st_mtim st) =? tv_sec (st_mtim srcst))
       || negb (tv_nsec (st_mtim st) =? tv_nsec (st_mtim srcst))
    then FATAL "File changed during copy: %s/%s/%s"
    else ret tt.

Definition nssdb_names : list string := ["cert8.db"; "key3.db"; "secmod.db"].

(** The body of the loop of [copy_nssdb_files]. *)
Definition copy_nssdb_file (srcdir destdir : ino) (name : string) : M unit :=
  src <- openat srcdir name (O_RDONLY .| O_NOFOLLOW) 0
           "Failed to open file: %s/%s/%s: %m" ;;
  srcst <- fstat src "Failed to read file info: %s/%s/%s: %m" ;;
  if negb (S_ISREG (st_mode srcst))
  then FATAL "Not a regular file: %s/%s/%s"
  else
    dest <- openat destdir name (O_RDWR .| O_CREAT .| O_EXCL) 0x1B0 (* 0660 *)
              "Failed to create file: %s/%s/%s: %m" ;;
    copy_file_contents src dest name srcst ;;
    gid <- get nss_gid ;;
    fchown dest None (Some gid)
      "Failed to change owner of file: %s/%s/%s: %m" ;;
    fchmod dest 0x1B0 (* 0660 *) "Failed to set permissions: %s/%s/%s: %m" ;;
    utimens dest (st_atim srcst) (st_mtim srcst)
      "Failed to set timestamp: %s/%s/%s: %m" ;;
    close src "Failed to close file: %s/%s/%s: %m" ;;
    close dest "Failed to close file: %s/%s/%s: %m".

Definition copy_nssdb_files (srcdir destdir : ino) : M unit :=
  for_each (copy_nssdb_file srcdir destdir) nssdb_names.

Definition copy_fd (orig : ino) (flags : Z) : M ino :=
  alloc "Failed to format path: /proc/self/fd/%d: %m" ;;
  let c := call (EvReopen orig) (k_reopen orig flags)
             "Failed to open file: %s: %m" in
  if one_way flags then or_sleep (k_reopen_sleeps orig flags) c else c.

(** [memcmp(a, b, n) != 0] on the two zero-terminated buffers. *)
Definition memcmp_differs (a b : string) (n : Z) : bool :=
  negb (String.eqb (String.substring 0 (Z.to_nat n) a)
                   (String.substring 0 (Z.to_nat n) b)).

Definition create_symlink (dirfd : ino) (target name dbdir_name path : string)
    : M ino :=
  assert (if String.eqb dbdir_name "" then relative_nonempty path
          else slash_then_more path) ;;
  symlinkat target dirfd name "Failed to create symbolic link: %s/%s%s: %m" ;;
  fd <- openat dirfd name (O_RDONLY .| O_NOFOLLOW .| O_PATH) 0
          "Failed to open symbolic link: %s/%s%s: %m" ;;
  st <- fstat fd "Failed to read symbolic link info: %s/%s%s: %m" ;;
  if negb (S_ISLNK (st_mode st))
  then FATAL "Not a symbolic link: %s/%s%s"
  else if (st_size st <=? 0) || (st_size st >? SSIZE_MAX - 1)
  then FATAL "Symbolic link target size invalid: %s/%s%s"
  else if negb (st_size st =? Z.of_nat (String.length target))
  then FATAL "Symbolic link target changed: %s/%s%s"
  else
    alloc "Memory allocation failed: %m" ;;
    new_target <- readlinkat fd (st_size st)
                    "Failed to read symbolic link target: %s/%s%s: %m" ;;
    if memcmp_differs target new_target (st_size st)
    then FATAL "Symbolic link target changed: %s/%s%s: %m"
    else ret fd.

Definition copy_metadata (src dest : ino) (path : string) (srcst : stat)
    (copy_timestamps : bool) : M unit :=
  assert (slash_or_empty path) ;;
  fchown dest (Some (st_uid srcst)) (Some (st_gid srcst))
    "Failed to set ownership: %s/%s%s: %m" ;;
  (if negb (S_ISLNK (st_mode srcst))
   then fchmod dest (Z.land (st_mode srcst) 0xFFF (* 07777 *))
          "Failed to set permissions: %s/%s%s: %m"
   else ret tt) ;;
  alloc "Failed to format path: /proc/self/fd/%d: %m" ;;
  alloc "Failed to format path: /proc/self/fd/%d: %m" ;;
  if copy_timestamps
  then utimens dest (st_atim srcst) (st_mtim srcst)
         "Failed to set timestamp: %s/%s%s: %m"
  else ret tt.

(** Atomically update the /etc/httpd/alias symlink. *)
Definition update_nssdb_symlink (httpd_conf_dirfd : ino) (linkst : stat)
    : M unit :=
  new_name <- get new_dbdir_name ;;
  fd <- create_symlink httpd_conf_dirfd new_name "alias.new" "" "alias.new" ;;
  fchown fd (Some (st_uid linkst)) (Some (st_gid linkst))
    "Failed to set symbolic link ownership: %s/alias.new: %m" ;;
  close fd "Failed to close symbolic link: %s/alias.new: %m" ;;
  renameat httpd_conf_dirfd "alias.new" httpd_conf_dirfd "alias"
    "Failed to rename symbolic link: %s/alias.new to %s/alias: %m".

(** ** Copy contents of old mod_nss database directory to new directory *)

Definition copy_file (srcpfd destdir : ino) (name path : string)
    (srcst : stat) : M unit :=
  assert (slash_then_more path) ;;
  src <- copy_fd srcpfd O_RDONLY ;;
  r <- sys (EvOpenat destdir name (O_RDWR .| O_CREAT .| O_EXCL))
         (k_openat destdir name (O_RDWR .| O_CREAT .| O_EXCL) 0x180 (* 0600 *)) ;;
  p <- match r with
       | inl e =>
           if negb (bool_decide (e = EEXIST))
           then FATAL "Failed to create file: %s/%s%s: %m"
           else
             (* the file already exists: assume that it is one of the
                mod_nss database files that was copied earlier *)
             dest <- openat destdir name (O_WRONLY .| O_NOFOLLOW) 0
                       "Failed to open file: %s/%s%s: %m" ;;
             ret (dest, false)
       | inr dest =>
           copy_file_contents src dest (tail_str path) srcst ;;
           ret (dest, true)
       end ;;
  let '(dest, copy_timestamps) := p in
  copy_metadata src dest path srcst copy_timestamps ;;
  close src "Failed to close file: %s/%s%s: %m" ;;
  close dest "Failed to close file: %s/%s%s: %m".

Definition copy_link (src destdir : ino) (name path : string) (srcst : stat)
    : M unit :=
  assert (slash_then_more path) ;;
  if (st_size srcst <=? 0) || (st_size srcst >? SSIZE_MAX - 1)
  then FATAL "Symbolic link target size invalid: %s/%s%s"
  else
    alloc "Memory allocation failed: %m" ;;
    target <- readlinkat src (st_size srcst)
                "Failed to read symbolic link target: %s/%s%s: %m" ;;
    new_name <- get new_dbdir_name ;;
    dest <- create_symlink destdir target name new_name path ;;
    copy_metadata src dest path srcst true ;;
    close dest "Failed to close symbolic link: %s/%s%s: %m".

(** [copy_dir_contents] is passed in, as the forward declaration of the
    source stands for it. *)
Definition copy_subdir (copy_dir_contents : ino -> ino -> string -> M unit)
    (srcpfd destdir : ino) (name path : string) (srcst : stat) : M unit :=
  assert (slash_then_more path) ;;
  src <- copy_fd srcpfd (O_RDONLY .| O_DIRECTORY) ;;
  mkdirat destdir name 0x1C0 (* 0700 *)
    "Failed to create directory: %s/%s%s: %m" ;;
  dest <- openat destdir name (O_RDONLY .| O_DIRECTORY .| O_NOFOLLOW) 0
            "Failed to open directory: %s/%s%s: %m" ;;
  copy_dir_contents src dest path ;;
  copy_metadata src dest path srcst true ;;
  close src "Failed to close directory: %s/%s%s: %m" ;;
  close dest "Failed to close directory: %s/%s%s: %m".

(** The body of the loop of [copy_dir_contents], for one directory entry. *)
Definition copy_entry (copy_dir_contents : ino -> ino -> string -> M unit)
    (srcdir destdir : ino) (subdir d_name : string) : M unit :=
  alloc "Failed to format path: %s/%s: %m" ;;
  let path := (subdir ++ "/" ++ d_name)%string in
  src <- openat srcdir d_name (O_RDONLY .| O_NOFOLLOW .| O_PATH) 0
           "Failed to open file: %s/%s%s: %m" ;;
  st <- fstat src "Failed to read file info: %s/%s%s: %m" ;;
  (if Z.land (st_mode st) S_IFMT =? S_IFREG
   then copy_file src destdir d_name path st
   else if Z.land (st_mode st) S_IFMT =? S_IFLNK
   then copy_link src destdir d_name path st
   else if Z.land (st_mode st) S_IFMT =? S_IFDIR
   then copy_subdir copy_dir_contents src destdir d_name path st
   else FATAL "Unsupported file type: %s/%s%s") ;;
  close src "Failed to close file: %s/%s%s: %m".

(** The recursion through [copy_subdir] is bounded by [fuel], the depth of
    directories the model is willing to descend. *)
Fixpoint copy_dir_contents (fuel : nat) (srcdir destdir : ino)
    (subdir : string) : M unit :=
  match fuel with
  | O => fun w => (NoFuel, w)
  | S fuel' =>
      assert (slash_or_empty subdir) ;;
      dirfd <- copy_fd srcdir (O_RDONLY .| O_DIRECTORY) ;;
      names <- fdopendir dirfd
                 "Failed to open directory stream: %s/%s%s: %m" ;;
      readdir_loop
        (copy_entry (copy_dir_contents fuel') srcdir destdir subdir)
        names "Failed to read directory: %s/%s%s: %m" ;;
      closedir "Failed to close directory stream: %s/%s%s: %m"
  end.

Definition copy_nssdb_dir (fuel : nat) (srcdir destdir : ino) : M unit :=
  copy_dir_contents fuel srcdir destdir "" ;;
  srcst <- fstat srcdir "Failed to read directory info: %s/%s: %m" ;;
  copy_metadata srcdir destdir "" srcst false.

(** ** Delete the old mod_nss database directory *)

Definition delete_entry (delete_dir_contents : ino -> string -> M unit)
    (dirfd : ino) (subdir d_name : string) : M unit :=
  alloc "Failed to format path: %s/%s: %m" ;;
  let path := (subdir ++ "/" ++ d_name)%string in
  fd <- openat dirfd d_name (O_RDONLY .| O_NOFOLLOW .| O_PATH) 0
          "Failed to open file: %s/%s%s: %m" ;;
  st <- fstat fd "Failed to read file info: %s/%s%s: %m" ;;
  flags <- (if S_ISDIR (st_mode st)
            then delete_dir_contents fd path ;; ret AT_REMOVEDIR
            else ret 0) ;;
  unlinkat dirfd d_name flags "Failed to delete file: %s/%s%s: %m" ;;
  close fd "Failed to close file: %s/%s%s: %m".

Fixpoint delete_dir_contents (fuel : nat) (dirfd : ino) (subdir : string)
    : M unit :=
  match fuel with
  | O => fun w => (NoFuel, w)
  | S fuel' =>
      assert (slash_or_empty subdir) ;;
      fd <- copy_fd dirfd (O_RDONLY .| O_DIRECTORY) ;;
      names <- fdopendir fd
                 "Failed to open directory stream: %s/%s%s: %m" ;;
      readdir_loop (delete_entry (delete_dir_contents fuel') dirfd subdir)
        names "Failed to read directory: %s/%s%s: %m" ;;
      closedir "Failed to close directory stream: %s/%s%s: %m"
  end.

Definition delete_old_nssdb_dir (fuel : nat)
    (httpd_conf_dirfd old_nssdb_dirfd : ino) : M unit :=
  delete_dir_contents fuel old_nssdb_dirfd "" ;;
  old_name <- get old_dbdir_name ;;
  unlinkat httpd_conf_dirfd old_name AT_REMOVEDIR
    "Failed to remove directory: %s/%s: %m".

(** ** mod_nss database stuff *)

Definition init_libnss (new_nssdb_dirfd : ino) : M ino :=
  call (EvFchdir new_nssdb_dirfd) (k_fchdir new_nssdb_dirfd)
    "Failed to change directory: %s/%s: %m" ;;
  call EvNSS_InitReadWrite k_NSS_InitReadWrite
    "Failed to open NSS database: %s/%s" ;;
  slot <- call EvPK11_GetInternalKeySlot k_PK11_GetInternalKeySlot
            "Failed to open NSS database slot: %s/%s" ;;
  is_friendly <- get (fun w => friendly (os w)) ;;
  if negb is_friendly
  then FATAL "NSS database requires authentication: %s/%s"
  else ret slot.

Definition shutdown_libnss (slot : ino) : M unit :=
  call EvNSS_Shutdown k_NSS_Shutdown "Failed to close NSS database: %s/%s" ;;
  call EvPR_Cleanup k_ok "Failed to shut down NSPR library".

Definition new_certificate : M (list byte) :=
  host <- get cert_hostname ;;
  alloc "Failed to format path: %s/%s.crt: %m" ;;
  let cert_file := (acme_cert_dir ++ "/" ++ host ++ ".crt")%string in
  fd <- open cert_file O_RDONLY "Failed to open file: %s: %m" ;;
  st <- fstat fd "Failed to read file info: %s: %m" ;;
  if (st_size st <=? 0) || (st_size st >? SSIZE_MAX)
  then FATAL "File size invalid: %s"
  else
    alloc "Memory allocation failed: %m" ;;
    pem <- call (EvRead fd) (k_read fd (st_size st))
             "Failed to read file: %s: %m" ;;
    if negb (Z.of_nat (length pem) =? st_size st)
    then FATAL "Failed to read complete file: %s"
    else
      close fd "Failed to close file: %s: %m" ;;
      call EvCERT_DecodeCertFromPackage (k_CERT_DecodeCertFromPackage pem)
        "Failed to parse certificate: %s".

(** [format_not_after] only produces text for the log, but it exits when
    the library cannot decode the certificate's time. *)
Definition format_not_after : M unit :=
  call EvFormatNotAfter k_ok
    "Failed to decode ASN.1 time in certificate for %s".

(** The loop of [remove_old_certs] over the nodes of the list. *)
Fixpoint remove_old_certs_loop (slot : ino) (nodes : list CertRecord)
    (deleted : Z) : M Z :=
  match nodes with
  | [] => ret deleted
  | node :: rest =>
      v <- get verbosity ;;
      (if v =? LOG_DEBUG then format_not_after else ret tt) ;;
      host <- get cert_hostname ;;
      if negb (String.eqb (nickname node) host)
      then remove_old_certs_loop slot rest deleted
      else
        r <- sys (EvSEC_DeletePermCertificate node)
               (k_SEC_DeletePermCertificate slot node) ;;
        match r with
        | inl _ =>
            format_not_after ;;
            FATAL "Failed to delete certificate for %s expiring %s from NSS database: %s/%s"
        | inr _ => remove_old_certs_loop slot rest (deleted + 1)
        end
  end.

Definition remove_old_certs (slot : ino) : M unit :=
  list <- call EvPK11_ListCertsInSlot (k_PK11_ListCertsInSlot slot)
            "Failed to read certificates from NSS database: %s/%s" ;;
  remove_old_certs_loop slot list 0 ;;
  ret tt.

Definition add_new_cert (slot : ino) (cert : list byte) : M unit :=
  host <- get cert_hostname ;;
  call (EvPK11_ImportCert cert host) (k_PK11_ImportCert slot cert host)
    "Failed to add certificate for %s to NSS database: %s/%s" ;;
  format_not_after.

(** ** main() *)

Definition set_effective_user (uid gid : Z) : M unit :=
  call (EvSetegid gid) (k_setegid gid)
    "Failed to change effective GID to %d: %m" ;;
  call (EvSeteuid uid) (k_seteuid uid)
    "Failed to change effective UID to %d: %m" ;;
  u <- get (fun w => euid (os w)) ;;
  if negb (u =? uid) then FATAL "Effective UID not really changed (still %d)"
  else
    g <- get (fun w => egid (os w)) ;;
    if negb (g =? gid)
    then FATAL "Effective GID not really changed (still %d)"
    else ret tt.

(** [main] after [parse_args]. *)
Definition main (fuel : nat) : M unit :=
  httpd_conf_dirfd <- open httpd_conf_dir (O_RDONLY .| O_DIRECTORY)
                        "Failed to open directory: %s: %m" ;;
  p <- old_nssdb_dir httpd_conf_dirfd ;;
  let '(old_nssdb_dirfd, linkst) := p in
  new_nssdb_dirfd <- new_nssdb_dir httpd_conf_dirfd ;;
  copy_nssdb_files old_nssdb_dirfd new_nssdb_dirfd ;;
  saved_uid <- get (fun w => euid (os w)) ;;
  saved_gid <- get (fun w => egid (os w)) ;;
  uid <- get nss_uid ;;
  gid <- get nss_gid ;;
  set_effective_user uid gid ;;
  slot <- init_libnss new_nssdb_dirfd ;;
  cert <- new_certificate ;;
  remove_old_certs slot ;;
  add_new_cert slot cert ;;
  shutdown_libnss slot ;;
  set_effective_user saved_uid saved_gid ;;
  copy_nssdb_dir fuel old_nssdb_dirfd new_nssdb_dirfd ;;
  update_nssdb_symlink httpd_conf_dirfd linkst ;;
  delete_old_nssdb_dir fuel httpd_conf_dirfd old_nssdb_dirfd ;;
  close new_nssdb_dirfd "Failed to close directory: %s/%s: %m" ;;
  close old_nssdb_dirfd "Failed to close directory: %s/%s: %m" ;;
  close httpd_conf_dirfd "Failed to close directory: %s: %m".

(** * Vocabulary of the statements *)

(** * Vocabulary of the statements *)

(** No other process touches the machine during the run. *)
Definition quiet (w : World) : Prop := forall t s, interfere w t s = s.

(** No call fails for reasons of its own. *)
Definition faultless (w : World) : Prop := forall t, faulty w t = false.

(** [wp m w Q E]: running [m] from [w] either returns [a] in a world that
    satisfies [Q a], or stops in a world that satisfies [E]. *)
Definition wp {A} (m : M A) (w : World) (Q : A -> World -> Prop)
    (E : World -> Prop) : Prop :=
  match m w with
  | (Done a, w') => Q a w'
  | (_, w') => E w'
  end.

(** The call [ev] was made, and succeeded. *)
Definition logged (ev : event) (w : World) : Prop :=
  exists e, e ∈ log w /\ e_call e = ev /\ e_ok e = true.

(** Every inode in use is below the allocation pointer. *)
Definition wf_os (s : OS) : Prop :=
  forall i, is_Some (inodes s !! i) -> (i < next_ino s)%nat.

Definition is_lnk (p : payload) : bool :=
  match p with Lnk _ => true | _ => false end.

Definition is_reg (p : payload) : bool :=
  match p with Reg _ => true | _ => false end.

(** [wpo m w Φ]: the outcome and the world that [m] ends in satisfy [Φ]. *)
Definition wpo {T} (m : M T) (w : World) (Φ : outcome T -> World -> Prop)
    : Prop :=
  Φ (m w).1 (m w).2.

(** The inputs of the run and its two directory names are the same in
    both worlds. *)
Definition same_env (w w' : World) : Prop :=
  faulty w' = faulty w /\ interfere w' = interfere w /\
  cert_hostname w' = cert_hostname w /\ verbosity w' = verbosity w /\
  nss_uid w' = nss_uid w /\ nss_gid w' = nss_gid w /\
  new_dbdir_name w' = new_dbdir_name w /\
  old_dbdir_name w' = old_dbdir_name w.

(** The machine of [w'] is that of [w] with inode [i] replaced by [nd]. *)
Definition os_put (i : ino) (nd : inode) (w w' : World) : Prop :=
  os w' = with_inodes (<[i := nd]> (inodes (os w))) (os w).

(** [st_mode & 07777] *)
Definition perm_bits (st : stat) : Z := Z.land (st_mode st) 0xFFF.

(** What [copy_metadata] leaves of a destination inode [nd]. *)
Definition synced (srcst : stat) (copy_timestamps : bool) (nd : inode)
    : inode :=
  let nd1 := set_owner (Some (st_uid srcst)) (Some (st_gid srcst)) nd in
  let nd2 := if S_ISLNK (st_mode srcst) then nd1
             else set_perm (perm_bits srcst) nd1 in
  if copy_timestamps then set_times (st_atim srcst) (st_mtim srcst) nd2
  else nd2.

(** A replica of a regular file: the content [data], and the owner, the
    permission bits and the timestamps that [srcst] reports. *)
Definition replica (srcst : stat) (data : list byte) : inode :=
  {| i_perm := perm_bits srcst; i_uid := st_uid srcst; i_gid := st_gid srcst;
     i_atim := st_atim srcst; i_mtim := st_mtim srcst; i_body := Reg data |}.

(** How an [open] ends: with a descriptor, with an error, or not at all. *)
Inductive opening := Opens | Refuses (e : errno) | Sleeps.

(** What [open(O_WRONLY | O_NOFOLLOW)] makes of the existing object [dest]
    on machine [s]. *)
Definition open_for_writing (s : OS) (dest : ino) (nd : inode) : opening :=
  if open_sleeps (O_WRONLY .| O_NOFOLLOW) dest nd s then Sleeps
  else match open_existing (O_WRONLY .| O_NOFOLLOW) dest nd with
       | inr _ => Opens
       | inl e => Refuses e
       end.

(** The same, told by the type of the object. *)
Definition writable_by_type (s : OS) (dest : ino) (nd : inode) : opening :=
  match i_body nd with
  | Reg _ => Opens
  | Lnk _ => Refuses ELOOP
  | Dir _ => Refuses EISDIR
  | Special fmt =>
      if fmt =? S_IFIFO
      then (if bool_decide (dest ∈ fifo_readers s) then Opens else Sleeps)
      else if fmt =? S_IFSOCK then Refuses ENXIO
      else Opens
  end.

(** The call [ev] is in the log as a success, and [P] holds of the machine
    state it left. *)
Definition logged_with (ev : event) (P : OS -> Prop) (w : World) : Prop :=
  exists e, e ∈ log w /\ e_call e = ev /\ e_ok e = true /\ P (e_after e).

(** Reading [n] bytes of the link behind [fd] in state [s] gives [t]. *)
Definition reads_as (fd : ino) (n : Z) (t : string) (s : OS) : Prop :=
  k_readlinkat fd n s = inr (t, s).

(** [fstat] on [fd] in state [s] reports a symbolic link of length [n]. *)
Definition stats_as_link (fd : ino) (n : Z) (s : OS) : Prop :=
  exists st, k_fstat fd s = inr (st, s) /\ S_ISLNK (st_mode st) = true
             /\ st_size st = n.

(** The log of [w'] continues the log of [w]. *)
Definition extends (w w' : World) : Prop :=
  exists l, log w' = l ++ log w.

(** What [copy_nssdb_files] makes of a database file: the content and the
    timestamps of the source [sn], mode 0660, the group given on the command
    line, and the user the program runs as. *)
Definition store_copy (w : World) (sn : inode) (data : list byte) : inode :=
  {| i_perm := 0x1B0; i_uid := euid (os w); i_gid := nss_gid w;
     i_atim := i_atim sn; i_mtim := i_mtim sn; i_body := Reg data |}.

(** The claim as the specification words it: the mode bits of the
    destination are those of the source. *)
Definition mode_copied (sn dn : inode) : Prop := i_perm dn = i_perm sn.

(** The records the updater keeps: those stored under another nickname. *)
Definition other_nick (host : string) (r : CertRecord) : bool :=
  negb (String.eqb (nickname r) host).

(** ** The timestamp of a generation *)

Definition digit (n : Z) : ascii := ascii_of_nat (48 + Z.to_nat n).
Definition digits2 (n : Z) : string :=
  String (digit (n / 10)) (String (digit (n mod 10)) EmptyString).
Definition digits3 (n : Z) : string :=
  String (digit (n / 100)) (digits2 (n mod 100)).
Definition digits4 (n : Z) : string :=
  String (digit (n / 1000)) (String (digit (n / 100 mod 10)) (digits2 (n mod 100))).

Definition is_digit (c : ascii) : bool :=
  (48 <=? nat_of_ascii c)%nat && (nat_of_ascii c <=? 57)%nat.
Fixpoint all_digits (s : string) : bool :=
  match s with
  | EmptyString => true
  | String c s' => is_digit c && all_digits s'
  end.

(** The ten characters MMDDHHMMSS of a broken-down time. *)
Definition month_to_second (t : tm) : string :=
  (digits2 (tm_mon t + 1) ++ digits2 (tm_mday t)
   ++ digits2 (tm_hour t) ++ digits2 (tm_min t) ++ digits2 (tm_sec t))%string.

(** The 14 characters YYYYMMDDHHMMSS of a broken-down time. *)
Definition timestamp14 (t : tm) : string :=
  (digits4 (tm_year t + 1900) ++ month_to_second t)%string.

(** The 14 characters that start with a minus sign and the three digits
    of a year from -999 to -100. *)
Definition timestamp_bc (t : tm) : string :=
  (String "-" (digits3 (- (tm_year t + 1900))) ++ month_to_second t)%string.

(** What [time(NULL)] returns at the start of [new_nssdb_dir]. *)
Definition time_read (w : World) : Z :=
  if faulty w (tick w) then -1
  else clock (interfere w (tick w) (os w)).

(** ** Coordinated universal time, told without [gmtime]

    A date of the proleptic Gregorian calendar and a time of day, and the
    number of seconds from 1970-01-01 00:00:00 to it: 365 days a year,
    one more for each leap year, the months at their lengths. *)
Record civil := {
  c_year : Z; c_mon : Z; c_mday : Z; c_hour : Z; c_min : Z; c_sec : Z }.

Definition leap_year (y : Z) : bool :=
  (y mod 4 =? 0) && (negb (y mod 100 =? 0) || (y mod 400 =? 0)).

Definition days_in_month (y m : Z) : Z :=
  if m =? 2 then (if leap_year y then 29 else 28)
  else if (m =? 4) || (m =? 6) || (m =? 9) || (m =? 11) then 30
  else 31.

Definition valid_civil (c : civil) : bool :=
  (1 <=? c_mon c) && (c_mon c <=? 12)
  && (1 <=? c_mday c) && (c_mday c <=? days_in_month (c_year c) (c_mon c))
  && (0 <=? c_hour c) && (c_hour c <=? 23)
  && (0 <=? c_min c) && (c_min c <=? 59)
  && (0 <=? c_sec c) && (c_sec c <=? 59).

(** The leap years before year [y], counted from year 1. *)
Definition leap_days_before (y : Z) : Z :=
  (y - 1) / 4 - (y - 1) / 100 + (y - 1) / 400.

Definition days_before_year (y : Z) : Z :=
  365 * (y - 1970) + (leap_days_before y - leap_days_before 1970).

Definition days_before_month (y m : Z) : Z :=
  foldr Z.add 0 (days_in_month y <$> seqZ 1 (m - 1)).

Definition timegm (c : civil) : Z :=
  ((days_before_year (c_year c) + days_before_month (c_year c) (c_mon c)
    + (c_mday c - 1)) * 24 + c_hour c) * 3600 + c_min c * 60 + c_sec c.

(** The [struct tm] that stands for a civil time. *)
Definition tm_of (c : civil) : tm :=
  {| tm_sec := c_sec c; tm_min := c_min c; tm_hour := c_hour c;
     tm_mday := c_mday c; tm_mon := c_mon c - 1; tm_year := c_year c - 1900 |}.

Definition year_msg : string := "This program is not supported in the year %d".
Definition format_msg : string := "Failed to format timestamp (%ld)".

(** ** The old generation is live and intact

    [old_kept s0 conf s]: relative to the machine [s0] at the start of the
    run, with [conf] the inode of /etc/httpd, state [s] differs only by
    inodes allocated since and by names added to [conf] that lead to such
    inodes.  In particular the alias entry, the link behind it and every
    inode of the old generation are as they were.  The names in [pin]
    are names of [conf] that must keep leading to the same directory. *)
Definition pinned (conf : ino) (pin : gmap string ino) (s : OS) : Prop :=
  forall name j, pin !! name = Some j ->
    (exists es, dir_entries s conf = Some es /\ es !! name = Some j)
    /\ is_dir s j = true.

Definition old_kept (s0 : OS) (conf : ino) (pin : gmap string ino) (s : OS)
    : Prop :=
  wf_os s /\ (conf < next_ino s0 <= next_ino s)%nat /\ pinned conf pin s /\
  (forall i, (i < next_ino s0)%nat -> i <> conf ->
     inodes s !! i = inodes s0 !! i) /\
  (exists nd0 es0 es,
     inodes s0 !! conf = Some nd0 /\ i_body nd0 = Dir es0 /\
     inodes s !! conf = Some (set_body (Dir es) nd0) /\
     (forall name j, es0 !! name = Some j -> es !! name = Some j) /\
     (forall name j, es !! name = Some j -> es0 !! name = None ->
        (next_ino s0 <= j)%nat)) /\
  (forall i es, (next_ino s0 <= i)%nat -> dir_entries s i = Some es ->
     forall name j, es !! name = Some j -> (next_ino s0 <= j)%nat).

Definition is_dir_body (p : payload) : bool :=
  match p with Dir _ => true | _ => false end.

(** The oracle and the command line are the same in both worlds. *)
Definition same_cfg (w w' : World) : Prop :=
  faulty w' = faulty w /\ interfere w' = interfere w /\
  cert_hostname w' = cert_hostname w /\ verbosity w' = verbosity w /\
  nss_uid w' = nss_uid w /\ nss_gid w' = nss_gid w.

(** What a relation between the worlds of a run must satisfy to be carried
    along it. *)
Class EnvRel (E : World -> World -> Prop) : Prop := {
  env_refl : forall w, E w w;
  env_trans : forall w1 w2 w3, E w1 w2 -> E w2 w3 -> E w1 w3;
  env_step : forall ev ok s w0 w, E w0 w -> E w0 (step_world ev ok s w);
  env_quiet : forall w w', E w w' -> quiet w -> quiet w' }.

(** [w'] continues [w], and every state logged in between satisfies [P]. *)
Definition hist (P : entry -> Prop) (w w' : World) : Prop :=
  exists l, log w' = l ++ log w /\ Forall P l.

(** The calls in [A], each leaving a state in [P]. *)
Definition entry_in (A : event -> bool) (P : OS -> Prop) (e : entry) : Prop :=
  A (e_call e) = true /\ P (e_after e).

(** A stretch of a quiet run that makes only calls in [A] and during which
    [P] holds throughout. *)
Definition run_in (E : World -> World -> Prop) (A : event -> bool)
    (P : OS -> Prop) (w w' : World) : Prop :=
  E w w' /\ hist (entry_in A P) w w' /\ P (os w').

(** [wp] with the invariant [P] on every way out. *)
Definition inv_wp {T} (E : World -> World -> Prop) (A : event -> bool)
    (P : OS -> Prop) (m : M T) (w : World) (Q : T -> World -> Prop) : Prop :=
  wp m w (fun a w' => run_in E A P w w' /\ Q a w') (run_in E A P w).

(** The calls of the Reaper that delete. *)
Definition is_unlink (ev : event) : bool :=
  match ev with
  | EvUnlinkat _ _ _ => true
  | _ => false
  end.

Definition no_unlink (ev : event) : bool := negb (is_unlink ev).

Definition any_call (ev : event) : bool := true.

(** A call that succeeds leaves the machine as it found it. *)
Definition read_only {A} (op : kcall A) : Prop :=
  forall s a s2, op s = inr (a, s2) -> s2 = s.

(** ** The alias and the generation it names *)

(** What a reader of /etc/httpd/alias finds: the target of the link. *)
Definition alias_target (s : OS) (conf : ino) : option string :=
  match dir_entries s conf with
  | Some es =>
      match es !! "alias" with
      | Some a =>
          match inodes s !! a with
          | Some nd => match i_body nd with Lnk t => Some t | _ => None end
          | None => None
          end
      | None => None
      end
  | None => None
  end.

(** The owner and the group of the link behind /etc/httpd/alias. *)
Definition alias_owner (s : OS) (conf : ino) : option (Z * Z) :=
  match dir_entries s conf with
  | Some es =>
      match es !! "alias" with
      | Some a =>
          match inodes s !! a with
          | Some nd => Some (i_uid nd, i_gid nd)
          | None => None
          end
      | None => None
      end
  | None => None
  end.

(** The alias names [name], and [name] is a directory of [conf]. *)
Definition alias_to (s : OS) (conf : ino) (name : string) : Prop :=
  alias_target s conf = Some name /\
  exists es d, dir_entries s conf = Some es /\ es !! name = Some d
               /\ is_dir s d = true.

(** Every inode that was there at the start, [conf] apart, is as it was. *)
Definition old_intact (s0 : OS) (conf : ino) (s : OS) : Prop :=
  forall i, (i < next_ino s0)%nat -> i <> conf ->
    inodes s !! i = inodes s0 !! i.

(** The directories that were there at the start, [conf] apart, lead only
    to inodes that were there at the start, and not to [conf]. *)
Definition old_closed (s0 : OS) (conf : ino) (s : OS) : Prop :=
  forall i es name j, (i < next_ino s0)%nat -> i <> conf ->
    dir_entries s i = Some es -> es !! name = Some j ->
    (j < next_ino s0)%nat /\ j <> conf.

(** The new generation is live: the alias is a link made during the run
    that names [newname], and [newname] is a directory made during the
    run. *)
Definition new_live (s0 : OS) (conf : ino) (newname : string) (s : OS)
    : Prop :=
  (conf < next_ino s0)%nat /\ old_closed s0 conf s /\
  exists es L D nd,
    dir_entries s conf = Some es /\
    es !! "alias" = Some L /\ (next_ino s0 <= L)%nat /\
    inodes s !! L = Some nd /\ i_body nd = Lnk newname /\
    es !! newname = Some D /\ (next_ino s0 <= D)%nat /\ is_dir s D = true.

(** Every name in every directory leads to an inode that exists, and none
    leads to [conf]. *)
Definition well_linked (s : OS) (conf : ino) : Prop :=
  forall i es name j, dir_entries s i = Some es -> es !! name = Some j ->
    is_Some (inodes s !! j) /\ j <> conf.

(** The old generation is live and as it was at the start. *)
Definition old_live (s0 : OS) (conf : ino) (oldname : string) (s : OS)
    : Prop :=
  alias_to s conf oldname /\ old_intact s0 conf s.

(** The call and the flag of a line of the log. *)
Definition call_ok_of (e : entry) : event * bool := (e_call e, e_ok e).

(** The run from [w] to [w'] has not renamed the alias: it has deleted
    nothing and has kept the old generation. *)
Definition before_swap (w : World) (conf : ino) (w' : World) : Prop :=
  run_in same_cfg no_unlink (old_kept (os w) conf ∅) w w'.

(** The line of the log that the successful rename of the alias leaves. *)
Definition swap_entry (conf : ino) (s : OS) : entry :=
  {| e_call := EvRenameat conf "alias.new" conf "alias";
     e_ok := true; e_after := s |}.

(** The run from [w] to [w'] has renamed the alias, in world [wb]; the
    link that became the alias has the owner and the group of the link it
    replaced, and the new generation has been live since. *)
Definition after_swap (w : World) (conf : ino) (oldname : string)
    (w' : World) : Prop :=
  exists wb s,
    before_swap w conf wb /\ new_dbdir_name wb <> oldname /\
    new_live (os w) conf (new_dbdir_name wb) s /\
    is_Some (alias_owner (os w) conf) /\
    alias_owner s conf = alias_owner (os w) conf /\
    run_in same_env any_call (new_live (os w) conf (new_dbdir_name wb))
      (step_world (EvRenameat conf "alias.new" conf "alias") true s wb) w'.

(** ** Runs that other processes disturb *)

(** Whatever the other processes and the faults, [m] makes only calls in
    [A]. *)
Definition emits (A : event -> bool) {T} (m : M T) : Prop :=
  forall w, exists l, log (m w).2 = l ++ log w
                      /\ Forall (fun e => A (e_call e) = true) l.

(** The calls that change a certificate store, the alias or the old
    generation. *)
Definition is_mutation (ev : event) : bool :=
  match ev with
  | EvSEC_DeletePermCertificate _ | EvPK11_ImportCert _ _
  | EvRenameat _ _ _ _ | EvUnlinkat _ _ _ => true
  | _ => false
  end.

Definition harmless (ev : event) : bool := negb (is_mutation ev).

(** The text of the fatal error of the race check. *)
Definition changed_msg : string := "File changed during copy: %s/%s/%s".

(** The run of [main] from [w] reaches, in world [w7], the content copy of
    the store file [name]: [src] and [dest] are its two descriptors and
    [srcst] is what [fstat] said of the source when it was opened. *)
Definition reaches_copy (w : World) (name : string) (src dest : ino)
    (srcst : stat) (w7 : World) : Prop :=
  exists conf w1 old linkst w2 new w3 before rest w4 w5 w6,
    open httpd_conf_dir (O_RDONLY .| O_DIRECTORY)
      "Failed to open directory: %s: %m" w = (Done conf, w1) /\
    old_nssdb_dir conf w1 = (Done (old, linkst), w2) /\
    new_nssdb_dir conf w2 = (Done new, w3) /\
    nssdb_names = before ++ name :: rest /\
    for_each (copy_nssdb_file old new) before w3 = (Done tt, w4) /\
    openat old name (O_RDONLY .| O_NOFOLLOW) 0
      "Failed to open file: %s/%s/%s: %m" w4 = (Done src, w5) /\
    fstat src "Failed to read file info: %s/%s/%s: %m" w5
      = (Done srcst, w6) /\
    S_ISREG (st_mode srcst) = true /\
    openat new name (O_RDWR .| O_CREAT .| O_EXCL) 0x1B0
      "Failed to create file: %s/%s/%s: %m" w6 = (Done dest, w7).

(** No line of [l] is a successful rename of alias.new over alias. *)
Definition no_swap (conf : ino) (l : list entry) : Prop :=
  Forall (fun e => e_call e = EvRenameat conf "alias.new" conf "alias" ->
                   e_ok e = false) l.

(** * A machine to run the program on *)

(** [wf_os], as a test. *)
Definition wf_osb (s : OS) : bool :=
  forallb (fun p : ino * inode => (p.1 <? next_ino s)%nat)
    (map_to_list (inodes s)).

(** [well_linked], as a test. *)
Definition well_linkedb (s : OS) (conf : ino) : bool :=
  forallb (fun p : ino * inode =>
      match i_body p.2 with
      | Dir es =>
          forallb (fun q : string * ino =>
              match inodes s !! q.2 with
              | Some _ => negb (q.2 =? conf)%nat
              | None => false
              end) (map_to_list es)
      | _ => true
      end)
    (map_to_list (inodes s)).

(** The names of directory [d], none if it is not a directory. *)
Definition entries_of (s : OS) (d : ino) : gmap string ino :=
  default ∅ (dir_entries s d).

Definition stamp (t : Z) : timespec := {| tv_sec := t; tv_nsec := 7 |}.

Definition mk_inode (perm uid gid t : Z) (p : payload) : inode :=
  {| i_perm := perm; i_uid := uid; i_gid := gid;
     i_atim := stamp t; i_mtim := stamp (t + 1); i_body := p |}.

Definition bytes_of (s : string) : list byte := String.list_byte_of_string s.

(** The store of the old generation: two certificates for the host and
    one for another name. *)
Definition db0 : list CertRecord :=
  [ {| nickname := "www.example.com"; derCert := bytes_of "OLD" |};
    {| nickname := "other"; derCert := bytes_of "X" |};
    {| nickname := "www.example.com"; derCert := bytes_of "OLDER" |} ].

Definition old_name0 : string := "alias-20230101000000".

(** /etc/httpd is inode 1, the alias inode 2, the old generation inode 3
    with its three store files (4, 5, 6), a subdirectory (7) with a file
    (8), and a symbolic link (9); inode 10 is the new certificate. *)
Definition os0 : OS :=
  {| inodes := list_to_map
       [ (1%nat, mk_inode 0x1ED 0 0 100
                   (Dir (list_to_map [("alias"%string, 2%nat);
                                      (old_name0, 3%nat)])));
         (2%nat, mk_inode 0x1FF 0 48 100 (Lnk old_name0));
         (3%nat, mk_inode 0x1E8 0 48 100
                   (Dir (list_to_map [("cert8.db"%string, 4%nat);
                                      ("key3.db"%string, 5%nat);
                                      ("secmod.db"%string, 6%nat);
                                      ("pkcs11"%string, 7%nat);
                                      ("lnk"%string, 9%nat)])));
         (4%nat, mk_inode 0x1A0 0 48 200 (Reg (db_encode db0)));
         (5%nat, mk_inode 0x1A0 0 48 200 (Reg (bytes_of "KEY")));
         (6%nat, mk_inode 0x1A0 0 48 200 (Reg (bytes_of "SEC")));
         (7%nat, mk_inode 0x1ED 0 48 300
                   (Dir (list_to_map [("file"%string, 8%nat)])));
         (8%nat, mk_inode 0x1A4 0 48 400 (Reg (bytes_of "hello")));
         (9%nat, mk_inode 0x1FF 0 48 500 (Lnk "pkcs11/file"));
         (10%nat, mk_inode 0x1A4 0 0 600 (Reg (bytes_of "NEWCERT"))) ];
     next_ino := 11%nat;
     paths := list_to_map
       [ ("/etc/httpd"%string, 1%nat);
         ("/var/lib/acme/www.example.com.crt"%string, 10%nat) ];
     euid := 0; egid := 0; umask := 0x12; cwd := None;
     clock := 1700000000; friendly := true; nss := None;
     fifo_readers := ∅; fifo_writers := ∅ |}.

Definition world_of (s : OS) (f : nat -> OS -> OS) (gid : Z) : World :=
  {| os := s; tick := 0; faulty := fun _ => false; interfere := f; log := [];
     cert_hostname := "www.example.com"; verbosity := 7;
     nss_uid := 48; nss_gid := gid;
     new_dbdir_name := ""; old_dbdir_name := "" |}.

(** An undisturbed run on [os0]. *)
Definition w0 : World := world_of os0 (fun _ s => s) 48.

Definition new_name0 : string := "alias-20231114221320".

Definition root_msg : string := "Failed to open directory: %s: %m".

(** The worlds of that run after [open], after [old_nssdb_dir], after
    [new_nssdb_dir], after [copy_nssdb_files], and at its end. *)
Definition w0_1 : World :=
  (open httpd_conf_dir (O_RDONLY .| O_DIRECTORY) root_msg w0).2.
Definition w0_2 : World := (old_nssdb_dir 1%nat w0_1).2.
Definition w0_3 : World := (new_nssdb_dir 1%nat w0_2).2.
Definition w0_4 : World := (copy_nssdb_files 3%nat 11%nat w0_3).2.
Definition w0_end : World := (main 5 w0).2.

Definition stat0 (i : ino) : stat :=
  match inodes os0 !! i with
  | Some nd => stat_of nd
  | None => stat_of (mk_inode 0 0 0 0 (Reg []))
  end.

(** Another process rewrites inode [i] just before the call at tick
    [t]. *)
Definition rewrite_at (t : nat) (i : ino) (nd : inode) (k : nat) (s : OS)
    : OS :=
  if (k =? t)%nat then with_inodes (<[i := nd]> (inodes s)) s else s.

(** cert8.db is rewritten in place while it is copied, just before the
    [memcpy] of its content copy, the call at tick 17: other certificates
    in as many bytes, and a new modification time. *)
Definition db1 : list CertRecord :=
  [ {| nickname := "www.example.com"; derCert := bytes_of "NEW" |};
    {| nickname := "other"; derCert := bytes_of "Y" |};
    {| nickname := "www.example.com"; derCert := bytes_of "NEWER" |} ].
Definition cert8_rewritten : inode :=
  mk_inode 0x1A0 0 48 900 (Reg (db_encode db1)).
Definition w_race : World :=
  world_of os0 (rewrite_at 17 4%nat cert8_rewritten) 48.
Definition w_race_1 : World :=
  (open httpd_conf_dir (O_RDONLY .| O_DIRECTORY) root_msg w_race).2.
Definition w_race_2 : World := (old_nssdb_dir 1%nat w_race_1).2.
Definition w_race_3 : World := (new_nssdb_dir 1%nat w_race_2).2.
Definition w_race_5 : World :=
  (openat 3%nat "cert8.db" (O_RDONLY .| O_NOFOLLOW) 0
     "Failed to open file: %s/%s/%s: %m" w_race_3).2.
Definition w_race_6 : World :=
  (fstat 4%nat "Failed to read file info: %s/%s/%s: %m" w_race_5).2.
Definition w_race_7 : World :=
  (openat 11%nat "cert8.db" (O_RDWR .| O_CREAT .| O_EXCL) 0x1B0
     "Failed to create file: %s/%s/%s: %m" w_race_6).2.
Definition w_race_8 : World :=
  (copy_file_contents 4%nat 12%nat "cert8.db" (stat0 4%nat) w_race_7).2.

(** cert8.db is cut to no bytes at that same moment. *)
Definition cert8_cut : inode := mk_inode 0x1A0 0 48 900 (Reg []).
Definition w_cut : World :=
  world_of os0 (rewrite_at 17 4%nat cert8_cut) 48.

(** key3.db is empty, and is rewritten just after it was opened: before
    the call at tick 28, which creates its copy. *)
Definition key3_empty : inode := mk_inode 0x1A0 0 48 200 (Reg []).
Definition key3_rewritten : inode :=
  mk_inode 0x1A0 0 48 900 (Reg (bytes_of "KEY")).
Definition os_empty_key : OS :=
  with_inodes (<[5%nat := key3_empty]> (inodes os0)) os0.
Definition w_empty : World :=
  world_of os_empty_key (rewrite_at 28 5%nat key3_rewritten) 48.

(** The calls of the run on [w_empty], oldest first. *)
Definition calls_empty : list entry := rev (log (main 5 w_empty).2).

(** The command line names group 7 for the store. *)
Definition w_gid : World := world_of os0 (fun _ s => s) 7.
Definition w_gid_3 : World :=
  (new_nssdb_dir 1%nat
     (old_nssdb_dir 1%nat
        (open httpd_conf_dir (O_RDONLY .| O_DIRECTORY) root_msg w_gid).2).2).2.

(** The machine [os0] with its clock at [t]. *)
Definition os_at (t : Z) : OS :=
  {| inodes := inodes os0; next_ino := next_ino os0; paths := paths os0;
     euid := euid os0; egid := egid os0; umask := umask os0; cwd := cwd os0;
     clock := t; friendly := friendly os0; nss := nss os0;
     fifo_readers := ∅; fifo_writers := ∅ |}.
Definition w_at (t : Z) : World := world_of (os_at t) (fun _ s => s) 48.

(** 14 November 2023, 22:13:20; 2 May of the year -500; the first second
    of the year 10000; the last second of the year 999. *)
Definition c_2023 : civil :=
  {| c_year := 2023; c_mon := 11; c_mday := 14;
     c_hour := 22; c_min := 13; c_sec := 20 |}.
Definition c_bc : civil :=
  {| c_year := -500; c_mon := 5; c_mday := 2;
     c_hour := 0; c_min := 0; c_sec := 0 |}.
Definition c_10000 : civil :=
  {| c_year := 10000; c_mon := 1; c_mday := 1;
     c_hour := 0; c_min := 0; c_sec := 0 |}.
Definition c_999 : civil :=
  {| c_year := 999; c_mon := 12; c_mday := 31;
     c_hour := 23; c_min := 59; c_sec := 59 |}.

(** The new generation of [w0_4], where the copy of key3.db (inode 13) has
    been replaced by a character device, by a FIFO that nobody reads, and
    by a socket. *)
Definition os_with_special (fmt : Z) : OS :=
  with_inodes (<[13%nat := mk_inode 0x1B6 0 0 700 (Special fmt)]>
                 (inodes (os w0_4))) (os w0_4).
Definition w_special (fmt : Z) : World :=
  world_of (os_with_special fmt) (fun _ s => s) 48.

(** * Proofs *)

(** * The monad *)

Lemma wp_bind {A B} (m : M A) (k : A -> M B) w Q E :
  wp m w (fun a w1 => wp (k a) w1 Q E) E -> wp (bind m k) w Q E.
Proof.
  unfold wp, bind. destruct (m w) as [[a| | | | |] w1]; auto.
Qed.

Lemma wp_ret {A} (a : A) w (Q : A -> World -> Prop) E :
  Q a w -> wp (ret a) w Q E.
Proof. auto. Qed.

Lemma wp_get {A} (f : World -> A) w (Q : A -> World -> Prop) E :
  Q (f w) w -> wp (get f) w Q E.
Proof. auto. Qed.

Lemma wp_put (f : World -> World) w (Q : unit -> World -> Prop) E :
  Q tt (f w) -> wp (put f) w Q E.
Proof. auto. Qed.

Lemma wp_FATAL {A} msg w (Q : A -> World -> Prop) (E : World -> Prop) :
  E w -> wp (FATAL msg) w Q E.
Proof. auto. Qed.

Lemma wp_assert b w (Q : unit -> World -> Prop) (E : World -> Prop) :
  (b = true -> Q tt w) -> (b = false -> E w) -> wp (assert b) w Q E.
Proof. unfold wp, assert. destruct b; auto. Qed.

Lemma wp_sys {A} ev (op : kcall A) w (Q : errno + A -> World -> Prop) E :
  let s1 := interfere w (tick w) (os w) in
  (forall e, (faulty w (tick w) = true /\ e = EIO) \/
             (faulty w (tick w) = false /\ op s1 = inl e) ->
     Q (inl e) (step_world ev false s1 w)) ->
  (forall a s2, faulty w (tick w) = false -> op s1 = inr (a, s2) ->
     Q (inr a) (step_world ev true s2 w)) ->
  wp (sys ev op) w Q E.
Proof.
  intros s1 He Hok. unfold wp, sys. fold s1.
  destruct (faulty w (tick w)); [auto|].
  destruct (op s1) as [e|[a s2]]; auto.
Qed.

Lemma wp_call {A} ev (op : kcall A) msg w (Q : A -> World -> Prop)
    (E : World -> Prop) :
  let s1 := interfere w (tick w) (os w) in
  E (step_world ev false s1 w) ->
  (forall a s2, faulty w (tick w) = false -> op s1 = inr (a, s2) ->
     Q a (step_world ev true s2 w)) ->
  wp (call ev op msg) w Q E.
Proof.
  intros s1 He Hok. unfold call. apply wp_bind, wp_sys; fold s1.
  - intros e _. apply wp_FATAL, He.
  - intros a s2 Hf Hop. apply wp_ret. auto.
Qed.

Lemma wp_act ev f w (Q : unit -> World -> Prop) (E : World -> Prop) :
  let s1 := interfere w (tick w) (os w) in
  (forall s2, f s1 = Some s2 -> Q tt (step_world ev true s2 w)) ->
  (f s1 = None -> E (step_world ev false s1 w)) ->
  wp (act ev f) w Q E.
Proof.
  intros s1 HQ HE. unfold wp, act. fold s1. destruct (f s1); auto.
Qed.

Lemma wp_kill {A} sig w (Q : A -> World -> Prop) (E : World -> Prop) :
  E w -> wp (kill sig) w Q E.
Proof. auto. Qed.

Lemma wp_or_sleep {A} sleeps (m : M A) w (Q : A -> World -> Prop)
    (E : World -> Prop) :
  E w -> wp m w Q E -> wp (or_sleep sleeps m) w Q E.
Proof.
  intros HE Hm. unfold wp, or_sleep.
  by destruct (negb (faulty w (tick w)) && sleeps _).
Qed.

Lemma or_sleep_awake {A} sleeps (m : M A) w :
  sleeps (interfere w (tick w) (os w)) = false -> or_sleep sleeps m w = m w.
Proof. intros H. unfold or_sleep. by rewrite H, andb_false_r. Qed.

Lemma or_sleep_asleep {A} sleeps (m : M A) w :
  faulty w (tick w) = false -> sleeps (interfere w (tick w) (os w)) = true ->
  or_sleep sleeps m w = (Asleep, w).
Proof. intros Hf H. unfold or_sleep. by rewrite Hf, H. Qed.

(** With O_PATH, O_DIRECTORY or O_RDWR among its flags, [open] is an
    ordinary call. *)
Lemma open_awake path flags msg :
  one_way flags = false ->
  open path flags msg = call (EvOpen path) (k_open path flags) msg.
Proof. unfold open. by intros ->. Qed.

Lemma openat_awake d name flags mode msg :
  one_way flags = false ->
  openat d name flags mode msg
  = call (EvOpenat d name flags) (k_openat d name flags mode) msg.
Proof. unfold openat. by intros ->. Qed.

Lemma openat_one_way d name flags mode msg :
  one_way flags = true ->
  openat d name flags mode msg
  = or_sleep (k_openat_sleeps d name flags)
      (call (EvOpenat d name flags) (k_openat d name flags mode) msg).
Proof. unfold openat. by intros ->. Qed.

Lemma open_one_way path flags msg :
  one_way flags = true ->
  open path flags msg
  = or_sleep (k_open_sleeps path flags)
      (call (EvOpen path) (k_open path flags) msg).
Proof. unfold open. by intros ->. Qed.

Lemma wp_mono {A} (m : M A) w (Q Q' : A -> World -> Prop)
    (E E' : World -> Prop) :
  wp m w Q E -> (forall a w', Q a w' -> Q' a w') ->
  (forall w', E w' -> E' w') -> wp m w Q' E'.
Proof.
  unfold wp. destruct (m w) as [[a| | | | |] w1]; auto.
Qed.

Lemma wp_done {A} (m : M A) w a w' (Q : A -> World -> Prop) E :
  wp m w Q E -> m w = (Done a, w') -> Q a w'.
Proof. unfold wp. intros H Heq. by rewrite Heq in H. Qed.

Lemma wp_elim {A} (m : M A) w a w' (P : World -> Prop) :
  m w = (Done a, w') -> wp m w (fun _ => P) (fun _ => True) -> P w'.
Proof. unfold wp. by intros ->. Qed.

Lemma wp_any {A} (m : M A) w (P : World -> Prop) :
  wp m w (fun _ => P) P -> P (m w).2.
Proof. unfold wp. destruct (m w) as [[a| | | | |] w1]; auto. Qed.

Lemma wp_run {A} (m : M A) w (Q : A -> World -> Prop) E :
  wp m w Q E ->
  match (m w).1 with Done a => Q a (m w).2 | _ => E (m w).2 end.
Proof. unfold wp. destruct (m w) as [[a| | | | |] w1]; auto. Qed.

Lemma wp_intro {A} (m : M A) w (Q : A -> World -> Prop) (E : World -> Prop) :
  (forall a w', m w = (Done a, w') -> Q a w') ->
  (forall o w', m w = (o, w') -> (forall a, o <> Done a) -> E w') ->
  wp m w Q E.
Proof.
  unfold wp. intros HQ HE. destruct (m w) as [[a| | | | |] w1]; eauto.
Qed.

Lemma bind_done {A B} (m : M A) (k : A -> M B) w a w1 :
  m w = (Done a, w1) -> bind m k w = k a w1.
Proof. unfold bind. by intros ->. Qed.

Lemma call_done {A} ev (op : kcall A) msg w a s2 :
  quiet w -> faulty w (tick w) = false -> op (os w) = inr (a, s2) ->
  call ev op msg w = (Done a, step_world ev true s2 w).
Proof.
  intros Hq Hf Hop. unfold call, bind, sys. rewrite Hq, Hf, Hop. done.
Qed.

Lemma call_fatal {A} ev (op : kcall A) msg w e :
  quiet w -> op (os w) = inl e ->
  call ev op msg w = (Fatal msg, step_world ev false (os w) w).
Proof.
  intros Hq Hop. unfold call, bind, sys. rewrite Hq, Hop.
  by destruct (faulty w (tick w)).
Qed.

Lemma quiet_step ev ok s w : quiet w -> quiet (step_world ev ok s w).
Proof. done. Qed.

Lemma faultless_step ev ok s w : faultless w -> faultless (step_world ev ok s w).
Proof. done. Qed.

Lemma logged_step ev ev' ok s w :
  logged ev w -> logged ev (step_world ev' ok s w).
Proof. intros (e & ? & ? & ?). exists e. split; [|done]. simpl. by right. Qed.

Lemma logged_here ev s w : logged ev (step_world ev true s w).
Proof. eexists. split; [left|done]. Qed.

(** * What the calls do *)

Lemma open_existing_inr flags i nd j :
  open_existing flags i nd = inr j -> j = i.
Proof.
  unfold open_existing. destruct (i_body nd); repeat case_match; congruence.
Qed.

Lemma k_ok_inv s a s' : k_ok s = inr (a, s') -> s' = s.
Proof. by intros [= _ <-]. Qed.

Lemma k_fstat_inv fd s st s' :
  k_fstat fd s = inr (st, s') ->
  s' = s /\ exists nd, inodes s !! fd = Some nd /\ st = stat_of nd.
Proof. unfold k_fstat. destruct (inodes s !! fd); [|done]. intros [= <- <-]. eauto. Qed.

Lemma k_readlinkat_inv fd n s t s' :
  k_readlinkat fd n s = inr (t, s') ->
  s' = s /\ exists nd tg, inodes s !! fd = Some nd /\ i_body nd = Lnk tg
                     /\ t = String.substring 0 (Z.to_nat n) tg.
Proof.
  unfold k_readlinkat. destruct (inodes s !! fd) as [nd|]; [|done].
  destruct (i_body nd) eqn:Hb; try done. intros [= <- <-]. eauto 10.
Qed.

Lemma k_open_inv path flags s i s' :
  k_open path flags s = inr (i, s') ->
  s' = s /\ paths s !! path = Some i /\ exists nd, inodes s !! i = Some nd /\
    (has_flag flags O_DIRECTORY = true -> exists es, i_body nd = Dir es).
Proof.
  unfold k_open. destruct (paths s !! path) as [j|]; [|done].
  destruct (inodes s !! j) as [nd|] eqn:Hj; [|done].
  intros H.
  assert (i = j /\ s' = s /\
          (has_flag flags O_DIRECTORY = true -> exists es, i_body nd = Dir es))
    as (-> & -> & Hd).
  { destruct (i_body nd) eqn:Hb; try destruct (has_flag flags O_DIRECTORY);
      try done; try destruct (_ =? S_IFSOCK); try done;
      injection H as <- <-; repeat split; eauto; done. }
  eauto 10.
Qed.

Lemma k_reopen_inv fd flags s fd' s' :
  k_reopen fd flags s = inr (fd', s') ->
  s' = s /\ fd' = fd /\ exists nd, inodes s !! fd = Some nd
    /\ open_existing flags fd nd = inr fd.
Proof.
  unfold k_reopen. destruct (inodes s !! fd) as [nd|]; [|done].
  destruct (open_existing flags fd nd) as [|j] eqn:Ho; [done|].
  intros [= <- <-]. apply open_existing_inr in Ho as Hj. subst j. eauto.
Qed.

Lemma k_openat_inv d name flags mode s i s' :
  k_openat d name flags mode s = inr (i, s') ->
  exists es, dir_entries s d = Some es /\
    ((es !! name = Some i /\ s' = s
      /\ has_flag flags O_CREAT && has_flag flags O_EXCL = false
      /\ exists nd, inodes s !! i = Some nd /\ open_existing flags i nd = inr i)
     \/ (es !! name = None /\ has_flag flags O_CREAT = true /\
         (i, s') = create_in d es name
                     (fresh_inode s (apply_umask s mode) (Reg [])) s)).
Proof.
  unfold k_openat. destruct (dir_entries s d) as [es|]; [|done].
  intros H. exists es. split; [done|].
  destruct (es !! name) as [j|].
  - destruct (has_flag flags O_CREAT && has_flag flags O_EXCL) eqn:Hce; [done|].
    destruct (inodes s !! j) as [nd|] eqn:Hj; [|done].
    destruct (open_existing flags j nd) as [|k] eqn:Ho; [done|].
    apply open_existing_inr in Ho as Hk. subst k. injection H as <- <-.
    left. repeat split; eauto.
  - destruct (has_flag flags O_CREAT) eqn:Hc; [|done].
    right. repeat split; try done. by injection H as <- <-.
Qed.

Lemma upd_inode_inv fd f s a s' :
  upd_inode fd f s = inr (a, s') ->
  exists nd, inodes s !! fd = Some nd /\
    s' = with_inodes (<[fd := f nd]> (inodes s)) s.
Proof.
  unfold upd_inode. destruct (inodes s !! fd) as [nd|] eqn:Hfd; [|done].
  intros H. exists nd. split; [done|].
  assert (Hs : s' = with_inodes (alter f fd (inodes s)) s) by congruence.
  rewrite Hs. f_equal.
  apply map_eq. intros j. rewrite lookup_alter, lookup_insert.
  repeat case_decide; subst; try done. by rewrite Hfd.
Qed.

Lemma k_fchown_inv fd u g s a s' :
  k_fchown fd u g s = inr (a, s') ->
  exists nd, inodes s !! fd = Some nd /\
    s' = with_inodes (<[fd := set_owner u g nd]> (inodes s)) s.
Proof. apply upd_inode_inv. Qed.

Lemma k_utimens_inv fd x y s a s' :
  k_utimens fd x y s = inr (a, s') ->
  exists nd, inodes s !! fd = Some nd /\
    s' = with_inodes (<[fd := set_times x y nd]> (inodes s)) s.
Proof. apply upd_inode_inv. Qed.

Lemma k_fchmod_inv fd mode s a s' :
  k_fchmod fd mode s = inr (a, s') ->
  exists nd, inodes s !! fd = Some nd /\
    is_lnk (i_body nd) = false /\
    s' = with_inodes (<[fd := set_perm (Z.land mode 0xFFF) nd]> (inodes s)) s.
Proof.
  unfold k_fchmod. destruct (inodes s !! fd) as [nd|] eqn:Hfd; [|done].
  destruct (i_body nd) eqn:Hb; try done; intros H;
    apply upd_inode_inv in H as (nd' & Hnd' & ->);
    rewrite Hfd in Hnd'; injection Hnd' as <-; exists nd;
    (split; [done|]); (split; [by rewrite Hb|done]).
Qed.

Lemma k_fallocate_inv fd len s a s' :
  k_fallocate fd len s = inr (a, s') ->
  exists nd d, inodes s !! fd = Some nd /\ i_body nd = Reg d /\ 0 < len /\
    s' = with_inodes
           (<[fd := set_mtim (now_ts s)
                      (set_body (Reg (d ++ zeros (Z.to_nat len - length d))) nd)]>
              (inodes s)) s.
Proof.
  unfold k_fallocate. destruct (inodes s !! fd) as [nd|] eqn:Hfd; [|done].
  destruct (i_body nd) eqn:Hb; try done.
  destruct (len <=? 0) eqn:Hl; [done|]. intros H.
  apply upd_inode_inv in H as (nd' & Hnd' & ->).
  rewrite Hfd in Hnd'. injection Hnd' as <-. exists nd, data.
  repeat split; try done. lia.
Qed.

Lemma k_mmap_inv fd len s a s' :
  k_mmap fd len s = inr (a, s') ->
  s' = s /\ exists nd d, inodes s !! fd = Some nd /\ i_body nd = Reg d.
Proof.
  unfold k_mmap. destruct (inodes s !! fd) as [nd|] eqn:Hfd; [|done].
  destruct (i_body nd) eqn:Hb; try done.
  destruct (len <=? 0); [done|]. intros [= <-]. eauto.
Qed.

Lemma k_mkdirat_inv d name mode s a s' :
  k_mkdirat d name mode s = inr (a, s') ->
  exists es, dir_entries s d = Some es /\ es !! name = None /\
    s' = snd (create_in d es name
                (fresh_inode s (apply_umask s mode) (Dir ∅)) s).
Proof.
  unfold k_mkdirat. destruct (dir_entries s d) as [es|]; [|done].
  destruct (es !! name) eqn:Hn; [done|]. intros [= <-]. eauto.
Qed.

Lemma k_symlinkat_inv target d name s a s' :
  k_symlinkat target d name s = inr (a, s') ->
  exists es, dir_entries s d = Some es /\ es !! name = None /\
    s' = snd (create_in d es name (fresh_inode s 0x1FF (Lnk target)) s).
Proof.
  unfold k_symlinkat. destruct (dir_entries s d) as [es|]; [|done].
  destruct (es !! name) eqn:Hn; [done|].
  destruct (String.eqb target ""); [done|]. intros [= <-]. eauto.
Qed.

Lemma k_fdopendir_inv fd s names s' :
  k_fdopendir fd s = inr (names, s') ->
  s' = s /\ exists es, dir_entries s fd = Some es /\
    names = "." :: ".." :: (map_to_list es).*1.
Proof.
  unfold k_fdopendir. destruct (dir_entries s fd) as [es|]; [|done].
  intros [= <- <-]. eauto.
Qed.

Lemma k_read_inv fd n s bs s' :
  k_read fd n s = inr (bs, s') ->
  s' = s /\ exists nd d, inodes s !! fd = Some nd /\ i_body nd = Reg d /\
    bs = take (Z.to_nat n) d.
Proof.
  unfold k_read. destruct (inodes s !! fd) as [nd|]; [|done].
  destruct (i_body nd) eqn:Hb; try done. intros [= <- <-]. eauto 10.
Qed.

Lemma mapped_ge n : Z.of_nat n <= mapped n.
Proof.
  unfold mapped, PAGE_SIZE.
  pose proof (Z.div_mod (Z.of_nat n + 4096 - 1) 4096 ltac:(lia)).
  pose proof (Z.mod_pos_bound (Z.of_nat n + 4096 - 1) 4096 ltac:(lia)). lia.
Qed.

(** The copy through the mappings when neither file has been cut short. *)
Lemma k_memcpy_whole src dst n s sn dn sd dd :
  inodes s !! src = Some sn -> inodes s !! dst = Some dn ->
  i_body sn = Reg sd -> i_body dn = Reg dd ->
  0 <= n <= Z.of_nat (length sd) -> n <= Z.of_nat (length dd) ->
  k_memcpy src dst n s
  = Some (with_inodes
            (<[dst := set_mtim (now_ts s)
                        (set_body (Reg (take (Z.to_nat n) sd
                                        ++ drop (Z.to_nat n) dd)) dn)]>
               (inodes s)) s).
Proof.
  intros Hs Hd Hsb Hdb Hn1 Hn2. unfold k_memcpy. rewrite Hs, Hd, Hsb, Hdb.
  pose proof (mapped_ge (length sd)). pose proof (mapped_ge (length dd)).
  replace (n <=? mapped (length sd)) with true by lia.
  replace (n <=? mapped (length dd)) with true by lia.
  cbn [andb]. do 4 f_equal.
  replace (Z.to_nat n - length sd)%nat with 0%nat by lia.
  unfold zeros. cbn [replicate]. rewrite app_nil_r.
  rewrite take_ge; [done|]. rewrite length_take. lia.
Qed.

Lemma dir_entries_Some s d es :
  dir_entries s d = Some es <->
  exists nd, inodes s !! d = Some nd /\ i_body nd = Dir es.
Proof.
  unfold dir_entries. split.
  - destruct (inodes s !! d) as [nd|]; [|done].
    destruct (i_body nd) eqn:Hb; try done. intros [= <-]. eauto.
  - intros (nd & -> & ->). done.
Qed.

Lemma wpo_bind {T U} (m : M T) (k : T -> M U) w Φ :
  wpo m w (fun o w1 =>
    match o with
    | Done a => wpo (k a) w1 Φ
    | Fatal msg => Φ (Fatal msg) w1
    | Aborted => Φ Aborted w1
    | Killed sig => Φ (Killed sig) w1
    | Asleep => Φ Asleep w1
    | NoFuel => Φ NoFuel w1
    end) ->
  wpo (bind m k) w Φ.
Proof. unfold wpo, bind. by destruct (m w) as [[a|msg| | | |] w1]. Qed.

Lemma wpo_step_call {T U} ev (op : kcall T) msg (k : T -> M U) w Φ :
  let s1 := interfere w (tick w) (os w) in
  Φ (Fatal msg) (step_world ev false s1 w) ->
  (forall a s2, op s1 = inr (a, s2) ->
     wpo (k a) (step_world ev true s2 w) Φ) ->
  wpo (bind (call ev op msg) k) w Φ.
Proof.
  intros s1 HF HD. apply wpo_bind. unfold wpo, call, bind, sys. fold s1.
  destruct (faulty w (tick w)); [done|].
  destruct (op s1) as [e|[a s2]] eqn:Hop; [done|]. by apply HD.
Qed.

Lemma wpo_step_act {U} ev f (k : unit -> M U) w Φ :
  let s1 := interfere w (tick w) (os w) in
  (f s1 = None -> Φ (Killed SIGBUS) (step_world ev false s1 w)) ->
  (forall s2, f s1 = Some s2 -> wpo (k tt) (step_world ev true s2 w) Φ) ->
  wpo (bind (act ev f) k) w Φ.
Proof.
  intros s1 HK HD. apply wpo_bind. unfold wpo, act. fold s1.
  destruct (f s1) as [s2|]; [by apply HD|by apply HK].
Qed.

Lemma wpo_kill {T} sig w (Φ : outcome T -> World -> Prop) :
  Φ (Killed sig) w -> wpo (kill sig) w Φ.
Proof. done. Qed.

Lemma wpo_step_or_sleep {T U} sleeps (m : M T) (k : T -> M U) w Φ :
  (faulty w (tick w) = false ->
   sleeps (interfere w (tick w) (os w)) = true -> Φ Asleep w) ->
  wpo (bind m k) w Φ ->
  wpo (bind (or_sleep sleeps m) k) w Φ.
Proof.
  intros HS HD. unfold wpo, bind, or_sleep.
  destruct (faulty w (tick w)); [exact HD|].
  destruct (sleeps _) eqn:Hs; [by apply HS|exact HD].
Qed.

Lemma wpo_step_assert {U} b (k : unit -> M U) w Φ :
  (b = false -> Φ Aborted w) -> (b = true -> wpo (k tt) w Φ) ->
  wpo (bind (assert b) k) w Φ.
Proof.
  intros HA HD. apply wpo_bind.
  destruct b; [by apply HD|by apply HA].
Qed.

Lemma wpo_step_sys {T U} ev (op : kcall T) (k : errno + T -> M U) w Φ :
  let s1 := interfere w (tick w) (os w) in
  (faulty w (tick w) = true ->
     wpo (k (inl EIO)) (step_world ev false s1 w) Φ) ->
  (forall e, faulty w (tick w) = false -> op s1 = inl e ->
     wpo (k (inl e)) (step_world ev false s1 w) Φ) ->
  (forall a s2, faulty w (tick w) = false -> op s1 = inr (a, s2) ->
     wpo (k (inr a)) (step_world ev true s2 w) Φ) ->
  wpo (bind (sys ev op) k) w Φ.
Proof.
  intros s1 HF HE HD. apply wpo_bind. unfold wpo, sys. fold s1.
  destruct (faulty w (tick w)); [by apply HF|].
  destruct (op s1) as [e|[a s2]] eqn:Hop; [by apply HE|by apply HD].
Qed.

Lemma wpo_step_put {U} f (k : unit -> M U) w Φ :
  wpo (k tt) (f w) Φ -> wpo (bind (put f) k) w Φ.
Proof. intros H. by apply wpo_bind. Qed.

Lemma wpo_step_get {T U} (f : World -> T) (k : T -> M U) w Φ :
  wpo (k (f w)) w Φ -> wpo (bind (get f) k) w Φ.
Proof. intros H. by apply wpo_bind. Qed.

Lemma wpo_ret {T} (a : T) w (Φ : outcome T -> World -> Prop) :
  Φ (Done a) w -> wpo (ret a) w Φ.
Proof. done. Qed.

Lemma wpo_FATAL {T} msg w (Φ : outcome T -> World -> Prop) :
  Φ (Fatal msg) w -> wpo (FATAL msg) w Φ.
Proof. done. Qed.

Lemma same_env_refl w : same_env w w.
Proof. by repeat split. Qed.

Lemma same_env_step ev ok s w w0 :
  same_env w0 w -> same_env w0 (step_world ev ok s w).
Proof. done. Qed.

Lemma same_env_trans w1 w2 w3 :
  same_env w1 w2 -> same_env w2 w3 -> same_env w1 w3.
Proof.
  unfold same_env. intros (?&?&?&?&?&?&?&?) (?&?&?&?&?&?&?&?).
  repeat split; congruence.
Qed.

Lemma same_env_quiet w w' : same_env w w' -> quiet w -> quiet w'.
Proof. intros (_ & Hi & _) Hq t s. rewrite Hi. apply Hq. Qed.

Lemma with_inodes_id s : with_inodes (inodes s) s = s.
Proof. by destruct s. Qed.

Lemma with_inodes_twice m1 m2 s :
  with_inodes m2 (with_inodes m1 s) = with_inodes m2 s.
Proof. done. Qed.

Lemma os_put_id i nd w :
  inodes (os w) !! i = Some nd -> os_put i nd w w.
Proof.
  intros H. unfold os_put. rewrite insert_id by done. by rewrite with_inodes_id.
Qed.

Ltac wp_pure :=
  first [ apply wp_bind | apply wp_ret | apply wp_get | apply wp_put ].

(** Partial correctness: nothing is claimed when the run stops. *)
Abbreviation ok_wp m w Q := (wp m w Q (fun _ => True)).

Lemma copy_file_contents_spec src dest path srcst w sn sdata dnd :
  quiet w -> inodes (os w) !! src = Some sn -> i_body sn = Reg sdata ->
  srcst = stat_of sn ->
  inodes (os w) !! dest = Some dnd -> i_body dnd = Reg [] -> src <> dest ->
  ok_wp (copy_file_contents src dest path srcst) w
    (fun _ w' => same_env w w' /\ exists nd',
       os_put dest nd' w w' /\ i_body nd' = Reg sdata /\
       i_perm nd' = i_perm dnd /\ i_uid nd' = i_uid dnd /\
       i_gid nd' = i_gid dnd).
Proof.
  intros Hq Hsrc Hsb -> Hdest Hdb Hne. unfold copy_file_contents.
  apply wp_bind, wp_assert; [intros _|done].
  assert (Hsz : st_size (stat_of sn) = Z.of_nat (length sdata)).
  { unfold stat_of. simpl. by rewrite Hsb. }
  rewrite Hsz.
  destruct (Z.of_nat (length sdata) =? 0) eqn:E0.
  { apply wp_ret. split; [apply same_env_refl|]. exists dnd.
    split; [by apply os_put_id|]. repeat split; try done.
    destruct sdata; [done|simpl in E0; lia]. }
  destruct ((Z.of_nat (length sdata) <? 0) || (Z.of_nat (length sdata) >? SSIZE_MAX)) eqn:E1;
    [by apply wp_FATAL|].
  unfold fallocate, mmap, memcpy, munmap, fstat.
  apply wp_bind, wp_call; [done|]. intros [] s1 _ H1. rewrite Hq in H1.
  apply k_fallocate_inv in H1. destruct H1 as (nd1 & d1 & Hnd1 & Hd1 & _ & Hs1).
  subst s1.
  rewrite Hdest in Hnd1. injection Hnd1 as <-. rewrite Hdb in Hd1. injection Hd1 as <-.
  apply wp_bind, wp_call; [done|]. intros [] s2 _ H2. simpl in H2. rewrite Hq in H2.
  apply k_mmap_inv in H2. destruct H2 as (Hs2 & _). subst s2.
  apply wp_bind, wp_call; [done|]. intros [] s3 _ H3. simpl in H3. rewrite Hq in H3.
  apply k_mmap_inv in H3. destruct H3 as (Hs3 & _). subst s3.
  apply wp_bind, wp_act; [|done]. intros sm Hm. simpl in Hm. rewrite Hq in Hm.
  erewrite k_memcpy_whole in Hm;
    [|cbn [inodes with_inodes]; rewrite lookup_insert_ne by done; exact Hsrc
     |cbn [inodes with_inodes]; apply lookup_insert_eq|exact Hsb|reflexivity
     |lia|idtac].
  2:{ unfold zeros.
      rewrite ?length_app, ?length_replicate. cbn [length]. lia. }
  injection Hm as <-.
  apply wp_bind, wp_call; [done|]. intros [] s4 _ H4. simpl in H4. rewrite Hq in H4.
  apply k_ok_inv in H4. subst s4.
  apply wp_bind, wp_call; [done|]. intros [] s5 _ H5. simpl in H5. rewrite Hq in H5.
  apply k_ok_inv in H5. subst s5.
  apply wp_bind, wp_call; [done|]. intros st s6 _ H6. simpl in H6. rewrite Hq in H6.
  apply k_fstat_inv in H6. destruct H6 as (Hs6 & _). subst s6.
  match goal with |- context [if ?b then _ else _] => destruct b end;
    [by apply wp_FATAL|].
  apply wp_ret. split; [done|].
  eexists. split; [unfold os_put; simpl; by rewrite insert_insert_eq|].
  simpl. repeat split; try done.
  f_equal. rewrite Nat2Z.id, firstn_all.
  rewrite Nat.sub_0_r. unfold zeros.
  rewrite drop_ge by (by rewrite length_replicate). by rewrite app_nil_r.
Qed.

(** One successful call in a quiet world: name its equation [H]. *)
Ltac wp_call_as Hq a s H :=
  apply wp_bind, wp_call; [done|]; intros a s _ H;
  cbn [os step_world interfere tick] in H; rewrite ?Hq in H.

Lemma land_fff_idem x : Z.land (Z.land x 0xFFF) 0xFFF = Z.land x 0xFFF.
Proof. by rewrite <- Z.land_assoc. Qed.

Lemma S_ISREG_not_LNK m : S_ISREG m = true -> S_ISLNK m = false.
Proof. unfold S_ISREG, S_ISLNK. intros H%Z.eqb_eq. by rewrite H. Qed.

Lemma copy_fd_spec orig flags w :
  quiet w ->
  ok_wp (copy_fd orig flags) w
    (fun fd w' => fd = orig /\ same_env w w' /\ os w' = os w /\
       exists nd, inodes (os w) !! orig = Some nd /\
                  open_existing flags orig nd = inr orig).
Proof.
  intros Hq. unfold copy_fd, alloc.
  wp_call_as Hq a s1 H1. apply k_ok_inv in H1. subst s1. cbv zeta.
  destruct (one_way flags); [apply wp_or_sleep; [done|]|];
  (apply wp_call; [done|]; intros fd s2 _ H2; simpl in H2; rewrite Hq in H2;
   apply k_reopen_inv in H2; destruct H2 as (-> & -> & nd & Hnd & Ho);
   repeat split; eauto).
Qed.

Lemma copy_metadata_spec src dest path srcst ts w dnd :
  quiet w -> inodes (os w) !! dest = Some dnd ->
  ok_wp (copy_metadata src dest path srcst ts) w
    (fun _ w' => same_env w w' /\ os_put dest (synced srcst ts dnd) w w').
Proof.
  intros Hq Hdest. unfold copy_metadata, fchown, fchmod, alloc, utimens.
  apply wp_bind, wp_assert; [intros _|done].
  wp_call_as Hq a s1 H1. apply k_fchown_inv in H1.
  destruct H1 as (nd1 & Hnd1 & Hs1). subst s1.
  rewrite Hdest in Hnd1. injection Hnd1 as <-.
  unfold synced, os_put.
  destruct (S_ISLNK (st_mode srcst)); cbn [negb].
  - apply wp_bind, wp_ret.
    wp_call_as Hq a2 s2 H2. apply k_ok_inv in H2. subst s2.
    wp_call_as Hq a3 s3 H3. apply k_ok_inv in H3. subst s3.
    destruct ts.
    + apply wp_call; [done|]. intros a4 s4 _ H4. simpl in H4. rewrite Hq in H4.
      apply k_utimens_inv in H4. destruct H4 as (nd4 & Hnd4 & ->).
      simpl in Hnd4. rewrite lookup_insert_eq in Hnd4. injection Hnd4 as <-.
      split; [done|]. simpl. by rewrite insert_insert_eq.
    + by apply wp_ret.
  - wp_call_as Hq a1 s1 H1'. apply k_fchmod_inv in H1'.
    destruct H1' as (nd1 & Hnd1 & _ & Hs1). subst s1.
    simpl in Hnd1. rewrite lookup_insert_eq in Hnd1. injection Hnd1 as <-.
    wp_call_as Hq a2 s2 H2. apply k_ok_inv in H2. subst s2.
    wp_call_as Hq a3 s3 H3. apply k_ok_inv in H3. subst s3.
    destruct ts.
    + apply wp_call; [done|]. intros a4 s4 _ H4. simpl in H4. rewrite Hq in H4.
      apply k_utimens_inv in H4. destruct H4 as (nd4 & Hnd4 & ->).
      simpl in Hnd4. rewrite lookup_insert_eq in Hnd4. injection Hnd4 as <-.
      split; [done|]. unfold perm_bits. simpl.
      by rewrite !insert_insert_eq, land_fff_idem.
    + apply wp_ret. split; [done|]. unfold perm_bits. simpl.
      by rewrite !insert_insert_eq, land_fff_idem.
Qed.


Lemma wf_os_fresh s : wf_os s -> inodes s !! next_ino s = None.
Proof.
  intros Hwf. destruct (inodes s !! next_ino s) eqn:E; [|done].
  assert (next_ino s < next_ino s)%nat by (apply Hwf; eauto). lia.
Qed.

Lemma create_in_inodes d es name nd s i :
  inodes (snd (create_in d es name nd s)) !! i =
  if decide (i = d) then set_body (Dir (<[name := next_ino s]> es))
                           <$> (<[next_ino s := nd]> (inodes s) !! d)
  else <[next_ino s := nd]> (inodes s) !! i.
Proof.
  unfold create_in, set_entries. simpl. rewrite lookup_alter.
  repeat case_decide; congruence.
Qed.

Lemma create_in_fst d es name nd s : fst (create_in d es name nd s) = next_ino s.
Proof. done. Qed.

Lemma copy_file_fresh srcpfd destdir name path srcst w sn sdata es :
  quiet w -> wf_os (os w) ->
  inodes (os w) !! srcpfd = Some sn -> i_body sn = Reg sdata ->
  srcst = stat_of sn -> S_ISREG (st_mode srcst) = true ->
  dir_entries (os w) destdir = Some es -> es !! name = None ->
  ok_wp (copy_file srcpfd destdir name path srcst) w
    (fun _ w' => same_env w w' /\
       os w' =
         let s1 := snd (create_in destdir es name
                      (fresh_inode (os w) (apply_umask (os w) 0x180) (Reg []))
                      (os w)) in
         with_inodes (<[next_ino (os w) := replica srcst sdata]> (inodes s1)) s1).
Proof.
  intros Hq Hwf Hsrc Hsb Hst Hreg Hes Hname. unfold copy_file.
  apply wp_bind, wp_assert; [intros _|done].
  apply wp_bind. eapply wp_mono; [by apply copy_fd_spec| |done].
  intros fd w1 (-> & Henv1 & Hos1 & _). cbv beta.
  pose proof (same_env_quiet _ _ Henv1 Hq) as Hq1.
  apply wp_bind, wp_sys.
  { intros e [[_ ->]|[_ He]]; [by apply wp_bind, wp_FATAL|].
    rewrite Hq1, Hos1 in He. unfold k_openat in He. rewrite Hes, Hname in He.
    done. }
  intros dest s2 _ H2. rewrite Hq1, Hos1 in H2.
  apply k_openat_inv in H2. destruct H2 as (es' & Hes' & H2).
  rewrite Hes in Hes'. injection Hes' as <-.
  destruct H2 as [(Hc & _)|(_ & _ & H2)]; [congruence|].
  assert (dest = next_ino (os w)) as -> by (by injection H2).
  assert (Hs2 : s2 = snd (create_in destdir es name
            (fresh_inode (os w) (apply_umask (os w) 384) (Reg [])) (os w)))
    by (by rewrite <- H2).
  clear H2.
  pose proof (wf_os_fresh _ Hwf) as Hfresh.
  assert (srcpfd <> next_ino (os w)) by congruence.
  assert (destdir <> next_ino (os w)).
  { apply dir_entries_Some in Hes as (? & ? & _). congruence. }
  assert (destdir <> srcpfd).
  { apply dir_entries_Some in Hes as (? & ? & ?). congruence. }
  set (w2 := step_world _ true s2 w1).
  assert (Hq2 : quiet w2) by done.
  assert (Henv2 : same_env w w2) by (by apply same_env_step).
  assert (Hsrc2 : inodes (os w2) !! srcpfd = Some sn).
  { simpl. rewrite Hs2, create_in_inodes. rewrite decide_False by done.
    by rewrite lookup_insert_ne. }
  assert (Hdest2 : inodes (os w2) !! next_ino (os w) =
            Some (fresh_inode (os w) (apply_umask (os w) 384) (Reg []))).
  { simpl. rewrite Hs2, create_in_inodes. rewrite decide_False by done.
    by rewrite lookup_insert_eq. }
  apply wp_bind. apply wp_bind.
  eapply wp_mono;
    [eapply (copy_file_contents_spec _ _ _ _ w2); eauto| |done].
  intros _ w3 (Henv3 & nd3 & Hos3 & Hb3 & Hp3 & Hu3 & Hg3). cbv beta.
  apply wp_ret.
  pose proof (same_env_quiet _ _ Henv3 Hq2) as Hq3.
  assert (Hdest3 : inodes (os w3) !! next_ino (os w) = Some nd3).
  { rewrite Hos3. simpl. by rewrite lookup_insert_eq. }
  apply wp_bind. eapply wp_mono; [by eapply copy_metadata_spec| |done].
  intros _ w4 (Henv4 & Hos4). cbv beta.
  unfold close.
  pose proof (same_env_quiet _ _ Henv4 Hq3) as Hq4.
  wp_call_as Hq4 a5 s5 H5. apply k_ok_inv in H5. subst s5.
  apply wp_call; [done|]. intros a6 s6 _ H6.
  cbn [os step_world interfere tick] in H6. rewrite Hq4 in H6.
  apply k_ok_inv in H6. subst s6.
  split.
  { do 2 apply same_env_step.
    eauto using same_env_trans. }
  cbn [os step_world]. unfold os_put in Hos3, Hos4.
  rewrite Hos4, Hos3. cbn [inodes with_inodes os w2 step_world].
  rewrite !insert_insert_eq. cbn zeta. rewrite <- Hs2.
  unfold with_inodes.
  cbn [inodes next_ino paths euid egid umask cwd clock friendly nss].
  f_equal. f_equal.
  unfold synced, replica. rewrite (S_ISREG_not_LNK _ Hreg).
  destruct nd3; simpl in *. by subst.
Qed.


Lemma copy_file_existing srcpfd destdir name path srcst w es dest dnd :
  quiet w ->
  dir_entries (os w) destdir = Some es -> es !! name = Some dest ->
  inodes (os w) !! dest = Some dnd ->
  ok_wp (copy_file srcpfd destdir name path srcst) w
    (fun _ w' => same_env w w' /\
       os_put dest (synced srcst false dnd) w w' /\
       open_existing (O_WRONLY .| O_NOFOLLOW) dest dnd = inr dest).
Proof.
  intros Hq Hes Hname Hdest. unfold copy_file.
  apply wp_bind, wp_assert; [intros _|done].
  apply wp_bind. eapply wp_mono; [by apply copy_fd_spec| |done].
  intros fd w1 (-> & Henv1 & Hos1 & _). cbv beta.
  pose proof (same_env_quiet _ _ Henv1 Hq) as Hq1.
  apply wp_bind, wp_sys.
  2:{ intros d s2 _ H2. rewrite Hq1, Hos1 in H2.
      apply k_openat_inv in H2. destruct H2 as (es' & Hes' & H2).
      rewrite Hes in Hes'. injection Hes' as <-.
      destruct H2 as [(_ & _ & Hc & _)|(Hc & _)]; [done|congruence]. }
  intros e [[_ ->]|[_ He]]; [by apply wp_bind, wp_FATAL|].
  rewrite Hq1, Hos1 in He. unfold k_openat in He.
  rewrite Hes, Hname in He.
  change (has_flag (O_RDWR .| O_CREAT .| O_EXCL) O_CREAT
          && has_flag (O_RDWR .| O_CREAT .| O_EXCL) O_EXCL) with true in He.
  injection He as <-.
  rewrite bool_decide_eq_true_2 by done. cbn [negb].
  set (w2 := step_world _ false _ w1).
  assert (Hq2 : quiet w2) by done.
  apply wp_bind, wp_bind. rewrite openat_one_way by done.
  apply wp_or_sleep; [done|].
  apply wp_call; [done|]. intros d s3 _ H3.
  cbn [os step_world interfere tick w2] in H3. rewrite !Hq1, Hos1 in H3.
  apply k_openat_inv in H3. destruct H3 as (es' & Hes' & H3).
  rewrite Hes in Hes'. injection Hes' as <-.
  destruct H3 as [(Hd & -> & _ & nd & Hnd & Ho)|(Hc & _)]; [|congruence].
  rewrite Hname in Hd. injection Hd as <-.
  rewrite Hdest in Hnd. injection Hnd as <-.
  apply wp_ret. cbv beta iota.
  apply wp_bind. eapply wp_mono; [eapply copy_metadata_spec| |done].
  { done. }
  { cbn [os step_world w2]. rewrite ?Hq1, ?Hos1. done. }
  intros _ w4 (Henv4 & Hos4). cbv beta.
  assert (Hq4 : quiet w4) by (by eapply same_env_quiet).
  unfold close.
  wp_call_as Hq4 a5 s5 H5. apply k_ok_inv in H5. subst s5.
  apply wp_call; [done|]. intros a6 s6 _ H6.
  cbn [os step_world interfere tick] in H6. rewrite Hq4 in H6.
  apply k_ok_inv in H6. subst s6.
  split; [|split; [|done]].
  - do 2 apply same_env_step. eapply same_env_trans; [|done].
    do 2 apply same_env_step. done.
  - unfold os_put in *. cbn [os step_world]. rewrite Hos4.
    cbn [os step_world w2]. by rewrite ?Hq1, ?Hos1.
Qed.


Lemma land_perm_fff p : 0 <= p < 4096 -> Z.land p 0xFFF = p.
Proof.
  intros Hp. change 0xFFF with (Z.ones 12).
  rewrite Z.land_ones by lia. apply Z.mod_small. lia.
Qed.

Lemma land_perm_high p m :
  0 <= p < 4096 -> Z.land 0xFFF m = 0 -> Z.land p m = 0.
Proof.
  intros Hp Hm. rewrite <- (land_perm_fff p Hp), <- Z.land_assoc, Hm.
  apply Z.land_0_r.
Qed.

Lemma perm_bits_stat_of nd :
  0 <= i_perm nd < 4096 -> is_lnk (i_body nd) = false ->
  (forall f, i_body nd = Special f -> Z.land f 0xFFF = 0) ->
  perm_bits (stat_of nd) = i_perm nd.
Proof.
  intros Hp Hl Hf. unfold perm_bits, stat_of. cbn [st_mode].
  rewrite Z.land_lor_distr_l, (land_perm_fff (i_perm nd)) by done.
  destruct (i_body nd) eqn:Hb; cbn [ifmt]; try done.
  by rewrite (Hf fmt).
Qed.

Lemma ifmt_stat_of nd f :
  0 <= i_perm nd < 4096 -> Z.land f S_IFMT = f -> ifmt (i_body nd) = f ->
  Z.land (st_mode (stat_of nd)) S_IFMT = f.
Proof.
  intros Hp Hf Hb. unfold stat_of. cbn [st_mode].
  rewrite Z.land_lor_distr_l, Hb, Hf, (land_perm_high (i_perm nd)) by done.
  apply Z.lor_0_r.
Qed.

Lemma S_ISREG_stat_of nd d :
  0 <= i_perm nd < 4096 -> i_body nd = Reg d ->
  S_ISREG (st_mode (stat_of nd)) = true.
Proof.
  intros Hp Hb. unfold S_ISREG.
  rewrite (ifmt_stat_of nd S_IFREG); [done..|by rewrite Hb].
Qed.

Lemma replica_stat_of nd d :
  0 <= i_perm nd < 4096 -> i_body nd = Reg d -> replica (stat_of nd) d = nd.
Proof.
  intros Hp Hb. unfold replica.
  rewrite perm_bits_stat_of; [|done|by rewrite Hb|by rewrite Hb].
  destruct nd; simpl in *. by subst.
Qed.

Lemma openat_path_existing d name s es i nd :
  dir_entries s d = Some es -> es !! name = Some i ->
  inodes s !! i = Some nd ->
  k_openat d name (O_RDONLY .| O_NOFOLLOW .| O_PATH) 0 s =
    match i_body nd with
    | Lnk _ | Dir _ | Reg _ | Special _ => inr (i, s)
    end.
Proof.
  intros Hes Hn Hi. unfold k_openat. rewrite Hes, Hn, Hi.
  change (has_flag (O_RDONLY .| O_NOFOLLOW .| O_PATH) O_CREAT &&
          has_flag (O_RDONLY .| O_NOFOLLOW .| O_PATH) O_EXCL) with false.
  cbv iota. unfold open_existing. by destruct (i_body nd).
Qed.


(** C6. In the full-tree pass, a regular source file whose name is not yet
    in the destination directory is created there with the content, the
    owner, the permission bits and the timestamps of the source (the new
    inode equals the source inode); when the name is already there, the
    destination keeps its content and its timestamps and takes the owner
    and the permission bits of the source.  Nothing else changes. *)
Theorem copy_entry_regular_file rec srcdir destdir subdir d_name w w'
    ses src sn sdata es :
  quiet w -> wf_os (os w) ->
  dir_entries (os w) srcdir = Some ses -> ses !! d_name = Some src ->
  inodes (os w) !! src = Some sn -> i_body sn = Reg sdata ->
  0 <= i_perm sn < 4096 ->
  dir_entries (os w) destdir = Some es ->
  copy_entry rec srcdir destdir subdir d_name w = (Done tt, w') ->
  match es !! d_name with
  | None =>
      exists dest, inodes (os w) !! dest = None /\
        dir_entries (os w') destdir = Some (<[d_name := dest]> es) /\
        inodes (os w') !! dest = Some sn /\
        (forall i, i <> dest -> i <> destdir ->
           inodes (os w') !! i = inodes (os w) !! i)
  | Some dest =>
      exists dnd, inodes (os w) !! dest = Some dnd /\
        inodes (os w') !! dest =
          Some {| i_perm := i_perm sn; i_uid := i_uid sn; i_gid := i_gid sn;
                  i_atim := i_atim dnd; i_mtim := i_mtim dnd;
                  i_body := i_body dnd |} /\
        (forall i, i <> dest -> inodes (os w') !! i = inodes (os w) !! i)
  end.
Proof.
  intros Hq Hwf Hses Hsrc Hsn Hsb Hp Hes Hrun.
  pose proof (S_ISREG_stat_of _ _ Hp Hsb) as Hreg.
  pose proof (perm_bits_stat_of sn Hp) as Hperm.
  rewrite Hsb in Hperm. specialize (Hperm eq_refl ltac:(done)).
  pattern w'. eapply wp_elim; [exact Hrun|]. clear Hrun.
  unfold copy_entry, alloc, fstat.
  wp_call_as Hq a1 s1 H1. apply k_ok_inv in H1. subst s1.
  rewrite openat_awake by done.
  wp_call_as Hq fd s2 H2.
  rewrite (openat_path_existing _ _ _ _ _ _ Hses Hsrc Hsn) in H2.
  assert (fd = src /\ s2 = os w) as [-> ->]
    by (destruct (i_body sn); by injection H2).
  wp_call_as Hq st s3 H3. apply k_fstat_inv in H3.
  destruct H3 as (-> & nd' & Hnd' & ->).
  rewrite Hsn in Hnd'. injection Hnd' as <-.
  unfold S_ISREG in Hreg. rewrite Hreg.
  set (w3 := step_world _ true (os w) _).
  assert (Hq3 : quiet w3) by done.
  destruct (es !! d_name) as [dest|] eqn:Hname.
  - destruct (inodes (os w) !! dest) as [dnd|] eqn:Hdest.
    2:{ apply wp_bind. unfold copy_file.
        apply wp_bind, wp_assert; [intros _|done].
        apply wp_bind. eapply wp_mono; [by apply copy_fd_spec| |done].
        intros fd w1 (-> & Henv1 & Hos1 & _). cbv beta.
        pose proof (same_env_quiet _ _ Henv1 Hq3) as Hq1.
        apply wp_bind, wp_sys.
        2:{ intros d s2 _ H2'. rewrite Hq1, Hos1 in H2'.
            apply k_openat_inv in H2'. destruct H2' as (es' & Hes' & H2').
            cbn [os w3 step_world] in Hes'.
            rewrite Hes in Hes'. injection Hes' as <-.
            destruct H2' as [(_ & _ & Hc & _)|(Hc & _)]; [done|congruence]. }
        intros e [[_ ->]|[_ He]]; [by apply wp_bind, wp_FATAL|].
        rewrite Hq1, Hos1 in He. unfold k_openat in He.
        cbn [os w3 step_world] in He. rewrite Hes, Hname in He.
        change (has_flag (O_RDWR .| O_CREAT .| O_EXCL) O_CREAT
          && has_flag (O_RDWR .| O_CREAT .| O_EXCL) O_EXCL) with true in He.
        injection He as <-.
        rewrite bool_decide_eq_true_2 by done. cbn [negb].
        apply wp_bind, wp_bind. rewrite openat_one_way by done.
        apply wp_or_sleep; [done|].
        apply wp_call; [done|]. intros d s3 _ H3.
        cbn [os step_world interfere tick] in H3. rewrite !Hq1, Hos1 in H3.
        apply k_openat_inv in H3. destruct H3 as (es' & Hes' & H3).
        cbn [os w3 step_world] in Hes'. rewrite Hes in Hes'.
        injection Hes' as <-.
        destruct H3 as [(Hd & _ & _ & nd & Hnd & _)|(Hc & _)]; [|congruence].
        rewrite Hname in Hd. injection Hd as <-.
        cbn [os w3 step_world] in Hnd. congruence. }
    apply wp_bind.
    eapply wp_mono; [by eapply (copy_file_existing _ _ _ _ _ w3)| |done].
    intros _ w4 (Henv4 & Hos4 & _). cbv beta.
    assert (Hq4 : quiet w4) by (by eapply same_env_quiet).
    unfold close. apply wp_call; [done|]. intros a5 s5 _ H5.
    rewrite Hq4 in H5. apply k_ok_inv in H5. subst s5.
    exists dnd. split; [done|]. cbn [os step_world].
    unfold os_put in Hos4. rewrite Hos4. cbn [inodes with_inodes os w3 step_world].
    split.
    + rewrite lookup_insert_eq. f_equal. unfold synced.
      rewrite (S_ISREG_not_LNK (st_mode (stat_of sn))) by done.
      by rewrite Hperm.
    + intros i Hi. by rewrite lookup_insert_ne.
  - apply wp_bind.
    eapply wp_mono; [by eapply (copy_file_fresh _ _ _ _ _ w3)| |done].
    intros _ w4 (Henv4 & Hos4). cbv beta.
    assert (Hq4 : quiet w4) by (by eapply same_env_quiet).
    unfold close. apply wp_call; [done|]. intros a5 s5 _ H5.
    rewrite Hq4 in H5. apply k_ok_inv in H5. subst s5.
    cbn [os step_world]. cbn [os w3 step_world] in Hos4.
    exists (next_ino (os w)).
    pose proof (wf_os_fresh _ Hwf) as Hfresh.
    assert (destdir <> next_ino (os w)).
    { apply dir_entries_Some in Hes as (? & ? & _). congruence. }
    split; [done|]. rewrite Hos4. cbn zeta.
    rewrite replica_stat_of by done.
    split; [|split].
    + apply dir_entries_Some in Hes as (dd & Hdd & Hdb).
      apply dir_entries_Some. exists (set_body (Dir (<[d_name:=next_ino (os w)]> es)) dd).
      split; [|done]. cbn [inodes with_inodes].
      rewrite lookup_insert_ne by done. rewrite create_in_inodes.
      rewrite decide_True by done. rewrite lookup_insert_ne by done.
      by rewrite Hdd.
    + cbn [inodes with_inodes]. by rewrite lookup_insert_eq.
    + intros i Hi1 Hi2. cbn [inodes with_inodes].
      rewrite lookup_insert_ne by done. rewrite create_in_inodes.
      rewrite decide_False by done. by rewrite lookup_insert_ne.
Qed.

(** * Running forward in a quiet, faultless world *)

Lemma assert_true_run w : assert true w = (Done tt, w).
Proof. done. Qed.

Lemma sys_done {A} ev (op : kcall A) w a s2 :
  quiet w -> faultless w -> op (os w) = inr (a, s2) ->
  sys ev op w = (Done (inr a), step_world ev true s2 w).
Proof. intros Hq Hf Hop. unfold sys. by rewrite Hq, Hf, Hop. Qed.

Lemma sys_err {A} ev (op : kcall A) w e :
  quiet w -> faultless w -> op (os w) = inl e ->
  sys ev op w = (Done (inl e), step_world ev false (os w) w).
Proof. intros Hq Hf Hop. unfold sys. by rewrite Hq, Hf, Hop. Qed.

Lemma call_ok {A} ev (op : kcall A) msg w a s2 :
  quiet w -> faultless w -> op (os w) = inr (a, s2) ->
  call ev op msg w = (Done a, step_world ev true s2 w).
Proof. intros Hq Hf. by apply call_done. Qed.

Lemma bind_fatal {A B} (m : M A) (k : A -> M B) w msg w1 :
  m w = (Fatal msg, w1) -> bind m k w = (Fatal msg, w1).
Proof. unfold bind. by intros ->. Qed.

Lemma k_reopen_fwd fd flags s nd :
  inodes s !! fd = Some nd -> open_existing flags fd nd = inr fd ->
  k_reopen fd flags s = inr (fd, s).
Proof. intros H1 H2. unfold k_reopen. by rewrite H1, H2. Qed.

Lemma upd_inode_fwd fd f s nd :
  inodes s !! fd = Some nd ->
  upd_inode fd f s = inr (tt, with_inodes (<[fd := f nd]> (inodes s)) s).
Proof.
  intros H. destruct (upd_inode fd f s) as [e|[[] s']] eqn:E.
  - unfold upd_inode in E. by rewrite H in E.
  - apply upd_inode_inv in E as (nd' & Hnd' & ->). congruence.
Qed.

Lemma k_fchmod_fwd fd mode s nd :
  inodes s !! fd = Some nd -> is_lnk (i_body nd) = false ->
  k_fchmod fd mode s =
    inr (tt, with_inodes (<[fd := set_perm (Z.land mode 0xFFF) nd]> (inodes s)) s).
Proof.
  intros H Hl. unfold k_fchmod. rewrite H.
  destruct (i_body nd); try done; by apply upd_inode_fwd.
Qed.

Lemma open_for_writing_by_type s dest nd :
  open_for_writing s dest nd = writable_by_type s dest nd.
Proof.
  unfold open_for_writing, writable_by_type, open_sleeps, open_existing.
  destruct (i_body nd) as [| | |fmt]; try done.
  change (has_flag (O_WRONLY .| O_NOFOLLOW) O_WRONLY) with true.
  change (has_flag (O_WRONLY .| O_NOFOLLOW) O_DIRECTORY) with false.
  change (has_flag (O_WRONLY .| O_NOFOLLOW) O_PATH) with false.
  cbv iota.
  destruct (fmt =? S_IFIFO) eqn:Hf.
  - apply Z.eqb_eq in Hf. subst fmt.
    change (S_IFIFO =? S_IFSOCK) with false.
    by destruct (bool_decide (dest ∈ fifo_readers s)).
  - cbn [andb]. by destruct (fmt =? S_IFSOCK).
Qed.

Lemma open_sleeps_reg flags fd nd s :
  is_reg (i_body nd) = true -> open_sleeps flags fd nd s = false.
Proof. unfold open_sleeps. by destruct (i_body nd). Qed.

Lemma open_existing_rdonly_reg fd nd :
  is_reg (i_body nd) = true -> open_existing O_RDONLY fd nd = inr fd.
Proof. unfold open_existing. by destruct (i_body nd). Qed.

Lemma slash_then_more_or_empty p :
  slash_then_more p = true -> slash_or_empty p = true.
Proof. destruct p as [|a [|b p]]; simpl; try done. Qed.

(** C9. In the full-tree pass a destination entry that already exists
    under the name of a regular source file is never compared with the
    source, whatever its name, type, content and size.  What happens is
    decided by the open for writing that does not follow a symbolic link,
    and by nothing else: when it succeeds (on a regular file, on a device
    node, on a FIFO that has a reader) the calls made are exactly the
    failed exclusive create, that open and the metadata sync, and the
    entry takes owner, group and permission bits of the source and keeps
    content and timestamps; when it fails (on a symbolic link, a directory
    or a socket) the run stops at that open with "Failed to open file" and
    nothing changed; on a FIFO without a reader the run sleeps in that
    open. *)
Theorem copy_file_existing_destination srcpfd destdir name path srcst w
    sn es dest dnd :
  quiet w -> faultless w -> slash_then_more path = true ->
  inodes (os w) !! srcpfd = Some sn -> is_reg (i_body sn) = true ->
  S_ISREG (st_mode srcst) = true ->
  dir_entries (os w) destdir = Some es -> es !! name = Some dest ->
  inodes (os w) !! dest = Some dnd ->
  open_for_writing (os w) dest dnd = writable_by_type (os w) dest dnd /\
  exists w',
    copy_file srcpfd destdir name path srcst w =
      (match open_for_writing (os w) dest dnd with
       | Opens => Done tt
       | Refuses _ => Fatal "Failed to open file: %s/%s%s: %m"
       | Sleeps => Asleep
       end, w')
    /\ os w' = match open_for_writing (os w) dest dnd with
               | Opens => with_inodes (<[dest := synced srcst false dnd]>
                                         (inodes (os w))) (os w)
               | _ => os w
               end
    /\ map (fun e => (e_call e, e_ok e)) (log w') =
         match open_for_writing (os w) dest dnd with
         | Opens =>
             [(EvClose dest, true); (EvClose srcpfd, true);
              (EvAlloc, true); (EvAlloc, true);
              (EvFchmod dest (perm_bits srcst), true);
              (EvFchown dest (Some (st_uid srcst)) (Some (st_gid srcst)),
               true);
              (EvOpenat destdir name (O_WRONLY .| O_NOFOLLOW), true)]
         | Refuses _ =>
             [(EvOpenat destdir name (O_WRONLY .| O_NOFOLLOW), false)]
         | Sleeps => []
         end
         ++ [(EvOpenat destdir name (O_RDWR .| O_CREAT .| O_EXCL), false);
             (EvReopen srcpfd, true); (EvAlloc, true)]
         ++ map (fun e => (e_call e, e_ok e)) (log w).
Proof.
  intros Hq Hf Hpath Hsn Hreg Hsreg Hes Hname Hdest.
  split; [apply open_for_writing_by_type|].
  unfold copy_file. rewrite Hpath.
  rewrite (bind_done _ _ _ _ _ (assert_true_run w)).
  unfold copy_fd, alloc.
  erewrite bind_done.
  2:{ erewrite bind_done; [|by apply call_ok]. cbv zeta.
      change (one_way O_RDONLY) with true. cbv iota.
      rewrite or_sleep_awake.
      - apply call_ok; [done|done|].
        apply (k_reopen_fwd _ _ _ _ Hsn). by apply open_existing_rdonly_reg.
      - cbn [interfere os tick step_world]. rewrite Hq.
        unfold k_reopen_sleeps. rewrite Hsn. by apply open_sleeps_reg. }
  set (w1 := step_world (EvReopen srcpfd) true _ _).
  assert (Hos1 : os w1 = os w) by done.
  erewrite bind_done.
  2:{ apply sys_err; [done|done|]. unfold k_openat. rewrite Hos1, Hes, Hname.
      reflexivity. }
  cbv beta iota. rewrite bool_decide_eq_true_2 by done. cbn [negb].
  set (w2 := step_world _ false _ w1).
  assert (Hos2 : os w2 = os w) by done.
  assert (Hq2 : quiet w2) by done.
  assert (Hf2 : faultless w2) by done.
  rewrite openat_one_way by done.
  assert (Hsl : k_openat_sleeps destdir name (O_WRONLY .| O_NOFOLLOW)
                  (interfere w2 (tick w2) (os w2))
                = open_sleeps (O_WRONLY .| O_NOFOLLOW) dest dnd (os w)).
  { rewrite Hq2, Hos2. unfold k_openat_sleeps. by rewrite Hes, Hname, Hdest. }
  assert (Hopen : k_openat destdir name (O_WRONLY .| O_NOFOLLOW) 0 (os w2) =
            match open_existing (O_WRONLY .| O_NOFOLLOW) dest dnd with
            | inl e => inl e | inr fd => inr (fd, os w2) end).
  { unfold k_openat. rewrite Hos2, Hes, Hname, Hdest. reflexivity. }
  unfold open_for_writing.
  destruct (open_sleeps (O_WRONLY .| O_NOFOLLOW) dest dnd (os w)) eqn:Hs.
  { exists w2. split; [|done].
    unfold bind at 1 2. by rewrite or_sleep_asleep by (done || by rewrite Hsl). }
  assert (Hawake : forall X (m : M X),
            or_sleep (k_openat_sleeps destdir name (O_WRONLY .| O_NOFOLLOW))
              m w2 = m w2).
  { intros X m. apply or_sleep_awake. by rewrite Hsl. }
  destruct (open_existing (O_WRONLY .| O_NOFOLLOW) dest dnd) as [e|fd] eqn:Ho.
  { eexists. split; [|split];
      [apply bind_fatal, bind_fatal; rewrite Hawake;
       eapply call_fatal; [done|exact Hopen]|done|done]. }
  apply open_existing_inr in Ho as Hfd. subst fd.
  assert (Hnl : is_lnk (i_body dnd) = false).
  { unfold open_existing in Ho. by destruct (i_body dnd). }
  erewrite bind_done.
  2:{ erewrite bind_done; [reflexivity|].
      rewrite Hawake. apply call_ok; [done|done|exact Hopen]. }
  set (w3 := step_world _ true _ w2).
  assert (Hos3 : os w3 = os w) by done.
  cbv beta iota.
  unfold copy_metadata, fchown, fchmod, alloc, utimens, close.
  rewrite (slash_then_more_or_empty _ Hpath), (S_ISREG_not_LNK _ Hsreg).
  cbn [negb].
  erewrite bind_done.
  2:{ rewrite (bind_done _ _ _ _ _ (assert_true_run w3)).
      erewrite bind_done.
      2:{ apply call_ok; [done|done|]. apply upd_inode_fwd.
          rewrite Hos3. exact Hdest. }
      erewrite bind_done.
      2:{ apply call_ok; [done|done|]. apply k_fchmod_fwd.
          - cbn [os step_world inodes with_inodes]. apply lookup_insert_eq.
          - by cbn [set_owner i_body]. }
      erewrite bind_done; [|by apply call_ok].
      erewrite bind_done; [|by apply call_ok].
      reflexivity. }
  erewrite bind_done; [|by apply call_ok].
  eexists. split; [by apply call_ok|]. split.
  - cbn [os step_world inodes with_inodes]. rewrite Hos3.
    rewrite insert_insert_eq. unfold synced, perm_bits.
    by rewrite (S_ISREG_not_LNK _ Hsreg), land_fff_idem.
  - reflexivity.
Qed.

Lemma logged_with_step ev P ev' ok s w :
  logged_with ev P w -> logged_with ev P (step_world ev' ok s w).
Proof.
  intros (e & ? & ? & ? & ?). exists e. split; [|done]. simpl. by right.
Qed.

Lemma logged_with_here ev (P : OS -> Prop) s w :
  P s -> logged_with ev P (step_world ev true s w).
Proof. intros HP. eexists. split; [left|done]. Qed.

Lemma logged_with_env ev P w w' :
  log w' = log w -> logged_with ev P w -> logged_with ev P w'.
Proof. unfold logged_with. by intros ->. Qed.

Lemma substring_0_length s : String.substring 0 (String.length s) s = s.
Proof. induction s; simpl; [done|]. by rewrite IHs. Qed.

Lemma substring_0_idem n s :
  String.substring 0 n (String.substring 0 n s) = String.substring 0 n s.
Proof.
  revert s. induction n; intros [|a s]; simpl; try done. by rewrite IHn.
Qed.

Lemma memcmp_same target n t :
  n = Z.of_nat (String.length target) ->
  memcmp_differs target (String.substring 0 (Z.to_nat n) t) n = false ->
  String.substring 0 (Z.to_nat n) t = target.
Proof.
  intros -> H. unfold memcmp_differs in H. rewrite Nat2Z.id in *.
  apply negb_false_iff, String.eqb_eq in H.
  by rewrite substring_0_length, substring_0_idem in H.
Qed.

Lemma extends_refl w : extends w w.
Proof. by exists []. Qed.

Lemma extends_step ev ok s w0 w :
  extends w0 w -> extends w0 (step_world ev ok s w).
Proof. intros (l & Hl). eexists (_ :: l). simpl. by rewrite Hl. Qed.

Lemma extends_trans w1 w2 w3 : extends w1 w2 -> extends w2 w3 -> extends w1 w3.
Proof.
  intros (l1 & H1) (l2 & H2). exists (l2 ++ l1). by rewrite H2, H1, app_assoc.
Qed.

Lemma logged_with_extends ev P w w' :
  extends w w' -> logged_with ev P w -> logged_with ev P w'.
Proof.
  intros (l & Hl) (e & He & ?). exists e. split; [|done].
  rewrite Hl. apply elem_of_app. by right.
Qed.

Lemma logged_with_true ev w : logged ev w <-> logged_with ev (fun _ => True) w.
Proof.
  split.
  - intros (e & ? & ? & ?). by exists e.
  - intros (e & ? & ? & ? & _). by exists e.
Qed.

Lemma copy_metadata_extends src dest path srcst ts w :
  ok_wp (copy_metadata src dest path srcst ts) w (fun _ w' => extends w w').
Proof.
  unfold copy_metadata, fchown, fchmod, alloc, utimens.
  apply wp_bind, wp_assert; [intros _|done].
  apply wp_bind, wp_call; [done|]. intros [] s1 _ _.
  apply wp_bind.
  destruct (negb (S_ISLNK (st_mode srcst))).
  - apply wp_call; [done|]. intros [] s2 _ _.
    apply wp_bind, wp_call; [done|]. intros [] s3 _ _.
    apply wp_bind, wp_call; [done|]. intros [] s4 _ _.
    destruct ts; [apply wp_call; [done|]; intros [] s5 _ _|apply wp_ret];
      repeat apply extends_step; apply extends_refl.
  - apply wp_ret.
    apply wp_bind, wp_call; [done|]. intros [] s3 _ _.
    apply wp_bind, wp_call; [done|]. intros [] s4 _ _.
    destruct ts; [apply wp_call; [done|]; intros [] s5 _ _|apply wp_ret];
      repeat apply extends_step; apply extends_refl.
Qed.

(** What [create_symlink] has verified when it returns, in any world. *)
Lemma create_symlink_spec dirfd target name dbdir_name path w :
  ok_wp (create_symlink dirfd target name dbdir_name path) w
    (fun fd w' =>
       extends w w' /\
       logged (EvSymlinkat target dirfd name) w' /\
       logged_with (EvFstat fd)
         (stats_as_link fd (Z.of_nat (String.length target))) w' /\
       logged_with (EvReadlinkat fd)
         (reads_as fd (Z.of_nat (String.length target)) target) w').
Proof.
  unfold create_symlink, symlinkat, openat, fstat, alloc, readlinkat.
  apply wp_bind, wp_assert; [intros _|done].
  apply wp_bind, wp_call; [done|]. intros [] s1 _ _.
  apply wp_bind, wp_call; [done|]. intros fd s2 _ _.
  apply wp_bind, wp_call; [done|]. intros st s3 _ H3.
  cbn [interfere tick os step_world] in H3.
  set (t3 := interfere w _ s2) in H3.
  pose proof H3 as H3'.
  apply k_fstat_inv in H3'. destruct H3' as (Hs3 & _).
  destruct (S_ISLNK (st_mode st)) eqn:Hl; cbn [negb]; [|by apply wp_FATAL].
  destruct ((st_size st <=? 0) || (st_size st >? SSIZE_MAX - 1));
    [by apply wp_FATAL|].
  destruct (st_size st =? Z.of_nat (String.length target)) eqn:Hsz;
    cbn [negb]; [|by apply wp_FATAL].
  apply Z.eqb_eq in Hsz.
  apply wp_bind, wp_call; [done|]. intros [] s4 _ _.
  apply wp_bind, wp_call; [done|]. intros nt s5 _ H5.
  cbn [interfere tick os step_world] in H5.
  set (t5 := interfere w _ s4) in H5.
  pose proof H5 as H5'.
  apply k_readlinkat_inv in H5'. destruct H5' as (Hs5 & nd & tg & _ & _ & Hnt).
  destruct (memcmp_differs target nt (st_size st)) eqn:Hm;
    [by apply wp_FATAL|].
  apply wp_ret. rewrite Hnt in Hm. apply memcmp_same in Hm; [|done].
  rewrite <- Hnt in Hm. rewrite Hm, Hsz in H5.
  split; [repeat apply extends_step; apply extends_refl|]. split; [|split].
  - do 4 apply logged_step. apply logged_here.
  - do 2 apply logged_with_step. apply logged_with_here.
    exists st. rewrite Hs3 in H3 |- *.
    split; [exact H3|split; [exact Hl|exact Hsz]].
  - apply logged_with_here. unfold reads_as. rewrite Hs5 in H5 |- *. exact H5.
Qed.


Lemma copy_nssdb_file_spec srcdir destdir name w ses des src sn data :
  quiet w -> wf_os (os w) ->
  dir_entries (os w) srcdir = Some ses -> ses !! name = Some src ->
  inodes (os w) !! src = Some sn -> i_body sn = Reg data ->
  dir_entries (os w) destdir = Some des ->
  ok_wp (copy_nssdb_file srcdir destdir name) w
    (fun _ w' =>
       let n := next_ino (os w) in
       same_env w w' /\ des !! name = None /\
       next_ino (os w') = S n /\ euid (os w') = euid (os w) /\
       wf_os (os w') /\
       dir_entries (os w') destdir = Some (<[name := n]> des) /\
       inodes (os w') !! n = Some (store_copy w sn data) /\
       (forall i, i <> n -> i <> destdir ->
          inodes (os w') !! i = inodes (os w) !! i)).
Proof.
  intros Hq Hwf Hses Hname Hsrc Hsb Hdes.
  unfold copy_nssdb_file, fstat.
  rewrite openat_one_way by done. apply wp_bind, wp_or_sleep; [done|].
  apply wp_call; [done|]; intros fd s1 _ H1;
    cbn [os step_world interfere tick] in H1; rewrite ?Hq in H1.
  apply k_openat_inv in H1.
  destruct H1 as (es' & Hes' & H1). rewrite Hses in Hes'. injection Hes' as <-.
  destruct H1 as [(Hfd & -> & _)|(Hc & _)]; [|congruence].
  rewrite Hname in Hfd. injection Hfd as <-.
  wp_call_as Hq st s2 H2. apply k_fstat_inv in H2.
  destruct H2 as (-> & nd & Hnd & ->). rewrite Hsrc in Hnd. injection Hnd as <-.
  destruct (S_ISREG (st_mode (stat_of sn))); cbn [negb]; [|by apply wp_FATAL].
  rewrite openat_awake by done.
  wp_call_as Hq dest s3 H3. apply k_openat_inv in H3.
  destruct H3 as (es' & Hes' & H3). rewrite Hdes in Hes'. injection Hes' as <-.
  destruct H3 as [(_ & _ & Hc & _)|(Hnone & _ & H3)]; [done|].
  assert (dest = next_ino (os w)) as -> by (by injection H3).
  assert (Hs3 : s3 = snd (create_in destdir des name
            (fresh_inode (os w) (apply_umask (os w) 432) (Reg [])) (os w)))
    by (by rewrite <- H3).
  clear H3.
  pose proof (wf_os_fresh _ Hwf) as Hfresh.
  assert (src <> next_ino (os w)) by congruence.
  assert (destdir <> next_ino (os w)).
  { apply dir_entries_Some in Hdes as (? & ? & _). congruence. }
  assert (destdir <> src).
  { apply dir_entries_Some in Hdes as (? & ? & ?). congruence. }
  set (w3 := step_world _ true s3 _).
  assert (Hq3 : quiet w3) by done.
  assert (Hsrc3 : inodes (os w3) !! src = Some sn).
  { cbn [os w3 step_world]. rewrite Hs3, create_in_inodes.
    rewrite decide_False by done. by rewrite lookup_insert_ne. }
  assert (Hdest3 : inodes (os w3) !! next_ino (os w) =
            Some (fresh_inode (os w) (apply_umask (os w) 432) (Reg []))).
  { cbn [os w3 step_world]. rewrite Hs3, create_in_inodes.
    rewrite decide_False by done. by rewrite lookup_insert_eq. }
  apply wp_bind.
  eapply wp_mono; [eapply (copy_file_contents_spec _ _ _ _ w3); eauto| |done].
  intros _ w4 (Henv4 & nd4 & Hos4 & Hb4 & Hp4 & Hu4 & Hg4). cbv beta.
  pose proof (same_env_quiet _ _ Henv4 Hq3) as Hq4.
  unfold os_put in Hos4.
  apply wp_bind, wp_get.
  unfold fchown, fchmod, utimens, close.
  wp_call_as Hq4 a5 s5 H5. apply k_fchown_inv in H5.
  destruct H5 as (nd5 & Hnd5 & ->).
  rewrite Hos4 in Hnd5. cbn [inodes with_inodes] in Hnd5.
  rewrite lookup_insert_eq in Hnd5. injection Hnd5 as <-.
  wp_call_as Hq4 a6 s6 H6. apply k_fchmod_inv in H6.
  destruct H6 as (nd6 & Hnd6 & _ & ->).
  cbn [inodes with_inodes] in Hnd6.
  rewrite lookup_insert_eq in Hnd6. injection Hnd6 as <-.
  wp_call_as Hq4 a7 s7 H7. apply k_utimens_inv in H7.
  destruct H7 as (nd7 & Hnd7 & ->).
  cbn [inodes with_inodes] in Hnd7.
  rewrite lookup_insert_eq in Hnd7. injection Hnd7 as <-.
  wp_call_as Hq4 a8 s8 H8. apply k_ok_inv in H8. subst s8.
  apply wp_call; [done|]. intros a9 s9 _ H9.
  cbn [os step_world interfere tick] in H9. rewrite Hq4 in H9.
  apply k_ok_inv in H9. subst s9.
  cbn zeta. cbn [os step_world inodes with_inodes next_ino euid].
  rewrite !insert_insert_eq, Hos4.
  cbn [os w3 step_world inodes with_inodes next_ino euid].
  rewrite !insert_insert_eq, Hs3.
  assert (Hnew : set_times (st_atim (stat_of sn)) (st_mtim (stat_of sn))
            (set_perm (Z.land 432 4095)
               (set_owner None (Some (nss_gid w4)) nd4)) = store_copy w sn data).
  { unfold store_copy. destruct Henv4 as (_ & _ & _ & _ & _ & Hgid & _).
    rewrite Hgid. cbn [nss_gid w3 step_world].
    destruct nd4; simpl in *. subst. reflexivity. }
  rewrite Hnew.
  split; [|split; [done|split; [done|split; [done|split; [|split; [|split]]]]]].
  - do 5 apply same_env_step. eapply same_env_trans; [|done].
    by do 3 apply same_env_step.
  - intros i [x Hx]. cbn [inodes with_inodes next_ino create_in snd set_entries with_next_ino] in *.
    destruct (decide (i = next_ino (os w))) as [->|Hi]; [lia|].
    rewrite lookup_insert_ne in Hx by done.
    rewrite lookup_alter in Hx. case_decide.
    + subst i. apply dir_entries_Some in Hdes as (dd & Hdd & _).
      assert (destdir < next_ino (os w))%nat by (apply Hwf; eauto). lia.
    + rewrite lookup_insert_ne in Hx by done.
      assert (i < next_ino (os w))%nat by (apply Hwf; eauto). lia.
  - apply dir_entries_Some in Hdes as (dd & Hdd & Hdb).
    apply dir_entries_Some.
    exists (set_body (Dir (<[name:=next_ino (os w)]> des)) dd).
    split; [|done]. cbn [inodes with_inodes].
    rewrite lookup_insert_ne by done. rewrite create_in_inodes.
    rewrite decide_True by done. rewrite lookup_insert_ne by done.
    by rewrite Hdd.
  - cbn [inodes with_inodes]. by rewrite lookup_insert_eq.
  - intros i Hi1 Hi2. cbn [inodes with_inodes].
    rewrite lookup_insert_ne by done. rewrite create_in_inodes.
    rewrite decide_False by done. by rewrite lookup_insert_ne.
Qed.


Lemma dir_entries_frame s s' d :
  inodes s' !! d = inodes s !! d -> dir_entries s' d = dir_entries s d.
Proof. unfold dir_entries. by intros ->. Qed.


(** * The certificate database *)

Lemma dec_enc_field l rest : dec_field (enc_field l ++ rest) = Some (l, rest).
Proof. induction l as [|b l IH]; simpl; [done|]. by rewrite IH. Qed.

Lemma enc_field_length l : (1 <= length (enc_field l))%nat.
Proof. destruct l; simpl; lia. Qed.

Lemma dec_records_encode rs fuel :
  (length rs <= fuel)%nat -> dec_records fuel (db_encode rs) = Some rs.
Proof.
  revert fuel. induction rs as [|r rs IH]; intros fuel Hf.
  - by destruct fuel.
  - destruct fuel as [|fuel]; [simpl in Hf; lia|].
    unfold db_encode. cbn [map concat]. fold (db_encode rs).
    unfold enc_record. rewrite <- app_assoc.
    destruct (enc_field (String.list_byte_of_string (nickname r)) ++
              enc_field (derCert r) ++ db_encode rs) eqn:E.
    { pose proof (enc_field_length (String.list_byte_of_string (nickname r))).
      apply (f_equal length) in E. rewrite length_app in E. simpl in E. lia. }
    rewrite <- E. cbn [dec_records].
    destruct (enc_field (String.list_byte_of_string (nickname r)) ++
              enc_field (derCert r) ++ db_encode rs) eqn:E'; [done|].
    rewrite <- E'. rewrite dec_enc_field, dec_enc_field.
    rewrite IH by (simpl in Hf; lia).
    rewrite String.string_of_list_byte_of_string. by destruct r.
Qed.

Lemma db_encode_length rs : (length rs <= length (db_encode rs))%nat.
Proof.
  induction rs as [|r rs IH]; [done|].
  unfold db_encode. cbn [map concat]. fold (db_encode rs).
  unfold enc_record. rewrite !length_app.
  pose proof (enc_field_length (String.list_byte_of_string (nickname r))).
  simpl. lia.
Qed.

Lemma db_decode_encode rs : db_decode (db_encode rs) = Some rs.
Proof. apply dec_records_encode, db_encode_length. Qed.

Lemma read_write_db slot rs s :
  is_Some (reg_data s slot) -> read_db (write_db slot rs s) slot = Some rs.
Proof.
  unfold read_db, reg_data, write_db. cbn [inodes with_inodes].
  rewrite lookup_alter. rewrite decide_True by done.
  destruct (inodes s !! slot) as [nd|]; [|by intros [? ?]]. intros _.
  simpl. apply db_decode_encode.
Qed.

Lemma read_db_is_reg s slot rs :
  read_db s slot = Some rs -> is_Some (reg_data s slot).
Proof. unfold read_db. destruct (reg_data s slot); [eauto|done]. Qed.

Lemma remove_first_app K c R :
  (forall r, r ∈ K -> r <> c) ->
  remove_first c (K ++ c :: R) = Some (K ++ R).
Proof.
  induction K as [|k K IH]; intros HK; simpl.
  - by rewrite decide_True.
  - rewrite decide_False by (apply HK; left).
    rewrite IH; [done|]. intros r Hr. apply HK. by right.
Qed.

(** The loop of [remove_old_certs]: [K] is what has been kept so far. *)
Lemma remove_old_certs_loop_spec slot nodes : forall K deleted w,
  quiet w -> read_db (os w) slot = Some (K ++ nodes) ->
  (forall r, r ∈ K -> other_nick (cert_hostname w) r = true) ->
  ok_wp (remove_old_certs_loop slot nodes deleted) w
    (fun _ w' => same_env w w' /\
       read_db (os w') slot =
         Some (K ++ List.filter (other_nick (cert_hostname w)) nodes)).
Proof.
  induction nodes as [|node rest IH]; intros K deleted w Hq Hdb HK.
  - apply wp_ret. split; [apply same_env_refl|done].
  - cbn [remove_old_certs_loop].
    apply wp_bind, wp_get. apply wp_bind.
    apply wp_mono with
      (Q := fun _ w1 => same_env w w1 /\ os w1 = os w) (E := fun _ => True);
      [|intros _ w1 [Henv1 Hos1]|done].
    { destruct (verbosity w =? LOG_DEBUG); [|by apply wp_ret].
      unfold format_not_after. apply wp_call; [done|]. intros a s1 _ H1.
      rewrite Hq in H1. apply k_ok_inv in H1. by subst s1. }
    assert (Hq1 : quiet w1) by (by eapply same_env_quiet).
    assert (Hhost : cert_hostname w1 = cert_hostname w) by apply Henv1.
    apply wp_bind, wp_get. rewrite Hhost.
    cbn [List.filter]. unfold other_nick at 1.
    destruct (String.eqb (nickname node) (cert_hostname w)) eqn:Hnick;
      cbn [negb].
    + apply wp_bind, wp_sys; [intros e _; apply wp_bind; unfold format_not_after;
        apply wp_call; [done|]; intros; by apply wp_FATAL|].
      intros a s2 _ H2. rewrite Hq1, Hos1 in H2.
      unfold k_SEC_DeletePermCertificate in H2. rewrite Hdb in H2.
      rewrite remove_first_app in H2.
      2:{ intros r Hr ->. apply HK in Hr. unfold other_nick in Hr.
          by rewrite Hnick in Hr. }
      injection H2 as _ <-.
      eapply wp_mono; [eapply (IH K)| |done].
      * done.
      * cbn [os step_world]. apply read_write_db. by eapply read_db_is_reg.
      * cbn [cert_hostname step_world]. rewrite Hhost. exact HK.
      * intros _ w3 (Henv3 & Hdb3). cbn [cert_hostname step_world] in Hdb3.
        rewrite Hhost in Hdb3. split; [|done].
        eapply same_env_trans; [|exact Henv3]. by apply same_env_step.
    + eapply wp_mono; [eapply (IH (K ++ [node]))| |done].
      * done.
      * rewrite Hos1, <- app_assoc. done.
      * rewrite Hhost. intros r [Hr| ->%list_elem_of_singleton]%elem_of_app; [by apply HK|].
        unfold other_nick. by rewrite Hnick.
      * intros _ w3 (Henv3 & Hdb3). split; [by eapply same_env_trans|].
        rewrite Hdb3, Hhost, <- app_assoc. done.
Qed.


Lemma filter_same_nick_other host rs :
  List.filter (fun r => String.eqb (nickname r) host)
    (List.filter (other_nick host) rs) = [].
Proof.
  induction rs as [|r rs IH]; [done|]. cbn [List.filter]. unfold other_nick at 1.
  destruct (String.eqb (nickname r) host) eqn:E; cbn [negb]; [done|].
  cbn [List.filter]. by rewrite E.
Qed.

Lemma remove_old_certs_spec slot w recs :
  quiet w -> read_db (os w) slot = Some recs ->
  ok_wp (remove_old_certs slot) w
    (fun _ w' => same_env w w' /\
       read_db (os w') slot =
         Some (List.filter (other_nick (cert_hostname w)) recs)).
Proof.
  intros Hq Hdb. unfold remove_old_certs.
  wp_call_as Hq lst s1 H1. unfold k_PK11_ListCertsInSlot in H1.
  rewrite Hdb in H1. injection H1 as <- <-.
  apply wp_bind.
  eapply wp_mono; [eapply (remove_old_certs_loop_spec slot recs [])| |done];
    [done|done|set_solver|].
  intros _ w2 (Henv2 & Hdb2). by apply wp_ret.
Qed.

Lemma add_new_cert_spec slot cert w recs :
  quiet w -> read_db (os w) slot = Some recs ->
  ok_wp (add_new_cert slot cert) w
    (fun _ w' => same_env w w' /\
       read_db (os w') slot =
         Some (recs ++ [{| nickname := cert_hostname w; derCert := cert |}])).
Proof.
  intros Hq Hdb. unfold add_new_cert, format_not_after.
  apply wp_bind, wp_get.
  wp_call_as Hq a1 s1 H1. unfold k_PK11_ImportCert in H1.
  rewrite Hdb in H1. injection H1 as Hs1. subst s1.
  apply wp_call; [done|]. intros a2 s2 _ H2.
  cbn [os step_world interfere tick] in H2. rewrite Hq in H2.
  apply k_ok_inv in H2. subst s2.
  split; [done|]. cbn [os step_world].
  apply read_write_db. by eapply read_db_is_reg.
Qed.

(** C1. When the updater ([remove_old_certs] followed by [add_new_cert])
    returns in a quiet world, the database holds the records it held before
    that are stored under another nickname, unchanged and in their order,
    followed by one record that carries the host name as nickname and the
    input certificate as content; it is the only record under that
    nickname. *)
Theorem store_update_spec slot cert w w' recs :
  quiet w -> read_db (os w) slot = Some recs ->
  (remove_old_certs slot ;; add_new_cert slot cert) w = (Done tt, w') ->
  let host := cert_hostname w in
  let new := {| nickname := host; derCert := cert |} in
  read_db (os w') slot = Some (List.filter (other_nick host) recs ++ [new]) /\
  forall rs, read_db (os w') slot = Some rs ->
    List.filter (fun r => String.eqb (nickname r) host) rs = [new].
Proof.
  intros Hq Hdb Hrun host new.
  assert (Hres : read_db (os w') slot =
            Some (List.filter (other_nick host) recs ++ [new])).
  { pattern w'. eapply wp_elim; [exact Hrun|]. clear Hrun.
    apply wp_bind.
    eapply wp_mono; [by eapply remove_old_certs_spec| |done].
    intros _ w1 (Henv1 & Hdb1). cbv beta.
    eapply wp_mono; [eapply add_new_cert_spec; [|exact Hdb1]| |done].
    - by eapply same_env_quiet.
    - intros _ w2 (Henv2 & Hdb2). rewrite Hdb2.
      assert (cert_hostname w1 = cert_hostname w) as -> by apply Henv1.
      done. }
  split; [done|]. intros rs Hrs. rewrite Hres in Hrs. injection Hrs as <-.
  rewrite List.filter_app, filter_same_nick_other. cbn [List.filter nickname new app].
  by rewrite String.eqb_refl.
Qed.

(** ** Formatting *)

Lemma fmt_year_4 y : 1000 <= y <= 9999 -> fmt_year y = digits4 y.
Proof.
  intros Hy.
  assert (H : forallb (fun y => String.eqb (fmt_year y) (digits4 y)) (seqZ 1000 9000) = true)
    by (vm_compute; reflexivity).
  rewrite forallb_forall in H.
  apply String.eqb_eq, H, list_elem_of_In, elem_of_seqZ. lia.
Qed.

Lemma fmt_year_bc y :
  -999 <= y <= -100 -> fmt_year y = String "-" (digits3 (- y)).
Proof.
  intros Hy.
  assert (H : forallb (fun y => String.eqb (fmt_year y)
                                  (String "-" (digits3 (- y))))
                (seqZ (-999) 900) = true)
    by (vm_compute; reflexivity).
  rewrite forallb_forall in H.
  apply String.eqb_eq, H, list_elem_of_In, elem_of_seqZ. lia.
Qed.

Lemma fmt_year_short y :
  -99 <= y <= 999 -> (String.length (fmt_year y) <= 3)%nat.
Proof.
  intros Hy.
  assert (H : forallb (fun y => (String.length (fmt_year y) <=? 3)%nat)
                (seqZ (-99) 1099) = true)
    by (vm_compute; reflexivity).
  rewrite forallb_forall in H.
  apply Nat.leb_le, H, list_elem_of_In, elem_of_seqZ. lia.
Qed.

Lemma string_of_uint_length d :
  String.length (NilEmpty.string_of_uint d) = Decimal.nb_digits d.
Proof. induction d; cbn [NilEmpty.string_of_uint String.length Decimal.nb_digits]; congruence. Qed.

(** A number of at most three digits is below 1000. *)
Lemma three_digits d :
  (Decimal.nb_digits d <= 3)%nat -> (Pos.of_uint d <= 999)%N.
Proof.
  intros H.
  destruct d as [|d|d|d|d|d|d|d|d|d|d]; [done|..];
  (destruct d as [|d|d|d|d|d|d|d|d|d|d]; [done|..]);
  (destruct d as [|d|d|d|d|d|d|d|d|d|d]; [done|..]);
  (destruct d; [done|cbn [Decimal.nb_digits] in H; lia..]).
Qed.

Lemma fmt_year_long y : y <= -1000 -> (5 <= String.length (fmt_year y))%nat.
Proof.
  intros Hy. destruct y as [|p|p]; [lia|lia|].
  unfold fmt_year. cbn [Z.to_int NilZero.string_of_int].
  assert (Hn : (4 <= Decimal.nb_digits (Pos.to_uint p))%nat).
  { destruct (le_lt_dec 4 (Decimal.nb_digits (Pos.to_uint p))) as [|Hlt];
      [done|].
    assert (Hb : (Pos.of_uint (Pos.to_uint p) <= 999)%N)
      by (apply three_digits; lia).
    rewrite DecimalPos.Unsigned.of_to in Hb. lia. }
  unfold NilZero.string_of_uint.
  destruct (Pos.to_uint p) eqn:Hu;
    [cbn [Decimal.nb_digits] in Hn; lia|..];
    cbn [String.length]; rewrite string_of_uint_length; lia.
Qed.

Lemma pad2_2 n : 0 <= n <= 99 -> pad2 n = digits2 n.
Proof.
  intros Hn.
  assert (H : forallb (fun y => String.eqb (pad2 y) (digits2 y)) (seqZ 0 100) = true)
    by (vm_compute; reflexivity).
  rewrite forallb_forall in H.
  apply String.eqb_eq, H, list_elem_of_In, elem_of_seqZ. lia.
Qed.

Lemma is_digit_digit n : 0 <= n <= 9 -> is_digit (digit n) = true.
Proof.
  intros Hn.
  assert (H : forallb (fun k => is_digit (digit k)) (seqZ 0 10) = true)
    by reflexivity.
  rewrite forallb_forall in H.
  apply H, list_elem_of_In, elem_of_seqZ. lia.
Qed.

Lemma all_digits_app a b : all_digits (a ++ b) = all_digits a && all_digits b.
Proof. induction a; simpl; [done|]. rewrite IHa. by rewrite andb_assoc. Qed.

Lemma all_digits_digits2 n : 0 <= n <= 99 -> all_digits (digits2 n) = true.
Proof.
  intros Hn. unfold digits2. cbn [all_digits].
  rewrite !is_digit_digit by (Z.div_mod_to_equations; lia). done.
Qed.

Lemma all_digits_digits4 n : 0 <= n <= 9999 -> all_digits (digits4 n) = true.
Proof.
  intros Hn. unfold digits4. cbn [all_digits].
  rewrite all_digits_digits2 by (Z.div_mod_to_equations; lia).
  rewrite !is_digit_digit by (Z.div_mod_to_equations; lia). done.
Qed.

Lemma length_append a b : String.length (a ++ b) = (String.length a + String.length b)%nat.
Proof. induction a; simpl; auto. Qed.

(** What [strftime] writes after the year. *)
Lemma strftime_fields t :
  0 <= tm_sec t <= 59 -> 0 <= tm_min t <= 59 -> 0 <= tm_hour t <= 23 ->
  1 <= tm_mday t <= 31 -> 0 <= tm_mon t <= 11 ->
  strftime NSSDB_DIR_TS_SIZE t =
    let s := (fmt_year (tm_year t + 1900) ++ month_to_second t)%string in
    if Z.of_nat (String.length (fmt_year (tm_year t + 1900))) <=? 4
    then (Z.of_nat (String.length (fmt_year (tm_year t + 1900))) + 10, s)
    else (0, EmptyString).
Proof.
  intros. unfold strftime. rewrite !pad2_2 by lia. fold (month_to_second t).
  cbv zeta. rewrite length_append.
  assert (String.length (month_to_second t) = 10%nat) as -> by reflexivity.
  change NSSDB_DIR_TS_SIZE with 15.
  set (n := String.length (fmt_year (tm_year t + 1900))).
  destruct (Z.of_nat n <=? 4) eqn:E.
  - apply Z.leb_le in E.
    assert ((Z.of_nat (n + 10) + 1 <=? 15) = true) as ->
      by (apply Z.leb_le; lia).
    f_equal. lia.
  - apply Z.leb_gt in E.
    by assert ((Z.of_nat (n + 10) + 1 <=? 15) = false) as ->
      by (apply Z.leb_gt; lia).
Qed.

(** ** The calendar *)

(** Split [lo <= x <= hi] into the cases [x = lo], ..., [x = hi]. *)
Ltac each_of x lo :=
  first
    [ exfalso; lia
    | let H := fresh "Hx" in
      destruct (Z.eq_dec x lo) as [H|H];
      [ subst x
      | let lo' := eval compute in (lo + 1) in each_of x lo' ] ].

Lemma leap_year_floor y :
  (if leap_year y then 1 else 0)
  = (y / 4 - (y - 1) / 4) - (y / 100 - (y - 1) / 100)
    + (y / 400 - (y - 1) / 400).
Proof.
  unfold leap_year.
  destruct (y mod 4 =? 0) eqn:E4; destruct (y mod 100 =? 0) eqn:E100;
    destruct (y mod 400 =? 0) eqn:E400; cbn [andb orb negb];
    Z.div_mod_to_equations; lia.
Qed.

Lemma days_before_month_eq y m :
  1 <= m <= 12 ->
  days_before_month y m
  = if m <=? 2 then 31 * (m - 1)
    else (153 * (m - 3) + 2) / 5 + 59 + (if leap_year y then 1 else 0).
Proof.
  intros Hm. each_of m 1; unfold days_before_month, days_in_month;
    cbn -[leap_year]; destruct (leap_year y); reflexivity.
Qed.

Lemma year_of_era yoe doy :
  0 <= yoe <= 399 -> 0 <= doy <= 365 ->
  (doy = 365 -> (yoe + 1) mod 4 = 0 /\ ((yoe + 1) mod 100 <> 0 \/ yoe = 399)) ->
  (365 * yoe + yoe / 4 - yoe / 100 + doy
   - (365 * yoe + yoe / 4 - yoe / 100 + doy) / 1460
   + (365 * yoe + yoe / 4 - yoe / 100 + doy) / 36524
   - (365 * yoe + yoe / 4 - yoe / 100 + doy) / 146096) / 365 = yoe.
Proof. intros Hy Hd Hl. Z.div_mod_to_equations. lia. Qed.

Lemma gmtime_civil Y M D secs :
  1 <= M <= 12 -> 1 <= D <= days_in_month Y M -> 0 <= secs < 86400 ->
  gmtime ((days_before_year Y + days_before_month Y M + (D - 1)) * 86400
          + secs)
  = if (INT_MIN <=? Y - 1900) && (Y - 1900 <=? INT_MAX)
    then Some {| tm_sec := secs mod 60; tm_min := secs mod 3600 / 60;
                 tm_hour := secs / 3600; tm_mday := D; tm_mon := M - 1;
                 tm_year := Y - 1900 |}
    else None.
Proof.
  intros HM HD Hs.
  set (n := days_before_year Y + days_before_month Y M + (D - 1)).
  set (y' := if M <=? 2 then Y - 1 else Y).
  set (mp := if M <=? 2 then M + 9 else M - 3).
  set (era := y' / 400). set (yoe := y' mod 400).
  set (doy := (153 * mp + 2) / 5 + D - 1).
  set (doe := 365 * yoe + yoe / 4 - yoe / 100 + doy).
  assert (Hy' : y' = 400 * era + yoe /\ 0 <= yoe <= 399).
  { subst era yoe. pose proof (Z.div_mod y' 400 ltac:(lia)).
    pose proof (Z.mod_pos_bound y' 400 ltac:(lia)). lia. }
  clearbody era yoe. destruct Hy' as [Hy' Hyoe].
  pose proof (leap_year_floor Y) as HL.
  assert (Hmonth : 0 <= mp <= 11 /\ 0 <= doy <= 365 /\
            (doy = 365 -> M = 2 /\ leap_year Y = true) /\
            (5 * doy + 2) / 153 = mp /\
            (if mp <? 10 then mp + 3 else mp - 9) = M).
  { subst doy mp. remember (days_in_month Y M) as dim eqn:Hdim.
    unfold days_in_month in Hdim.
    destruct (M <=? 2) eqn:EM; destruct (leap_year Y); each_of M 1;
      try discriminate EM; vm_compute in Hdim; subst dim;
      (split; [lia|]); (split; [Z.div_mod_to_equations; lia|]);
      (split; [intros ?; first [by split|Z.div_mod_to_equations; lia]|]);
      (split; [Z.div_mod_to_equations; lia|reflexivity]). }
  destruct Hmonth as (Hmp & Hdoy & H365 & Hmp' & HM').
  assert (HA : n + 719468 = era * 146097 + doe).
  { subst n doe doy. unfold days_before_year, leap_days_before.
    rewrite days_before_month_eq by done. subst y' mp.
    destruct (M <=? 2) eqn:EM.
    - assert (M = 1 \/ M = 2) as [-> | ->] by lia;
        clear -Hy' Hyoe HL; Z.div_mod_to_equations; lia.
    - clear -Hy' Hyoe HL. generalize ((153 * (M - 3) + 2) / 5). intros F.
      Z.div_mod_to_equations. lia. }
  assert (HC : (doe - doe / 1460 + doe / 36524 - doe / 146096) / 365 = yoe).
  { subst doe. apply year_of_era; [done|done|].
    intros H. destruct (H365 H) as [-> HLy]. subst y'. cbn in Hy'.
    rewrite HLy in HL. clear -HL Hy' Hyoe. Z.div_mod_to_equations. lia. }
  unfold gmtime. cbv zeta.
  replace ((n * 86400 + secs) / 86400) with n
    by (Z.div_mod_to_equations; lia).
  replace ((n * 86400 + secs) mod 86400) with secs
    by (Z.div_mod_to_equations; lia).
  rewrite HA.
  assert (Hdoe : 0 <= doe <= 146096).
  { subst doe. clear -Hyoe Hdoy. Z.div_mod_to_equations. lia. }
  replace ((era * 146097 + doe) / 146097) with era
    by (clear -Hdoe; Z.div_mod_to_equations; lia).
  replace ((era * 146097 + doe) mod 146097) with doe
    by (clear -Hdoe; Z.div_mod_to_equations; lia).
  rewrite HC.
  replace (doe - (365 * yoe + yoe / 4 - yoe / 100)) with doy
    by (subst doe; lia).
  rewrite Hmp', HM'.
  replace (doy - (153 * mp + 2) / 5 + 1) with D by (subst doy; lia).
  replace (yoe + era * 400 + (if M <=? 2 then 1 else 0)) with Y
    by (subst y'; destruct (M <=? 2); lia).
  reflexivity.
Qed.

Lemma valid_civil_bounds c :
  valid_civil c = true ->
  1 <= c_mon c <= 12 /\ 1 <= c_mday c <= days_in_month (c_year c) (c_mon c)
  /\ 0 <= c_hour c <= 23 /\ 0 <= c_min c <= 59 /\ 0 <= c_sec c <= 59.
Proof. unfold valid_civil. rewrite !andb_true_iff. lia. Qed.

Lemma days_in_month_31 y m : days_in_month y m <= 31.
Proof.
  unfold days_in_month.
  repeat match goal with |- context [if ?b then _ else _] => destruct b end;
    lia.
Qed.

(** [gmtime] is the inverse of [timegm] wherever the year fits an [int]
    counted from 1900, and NULL elsewhere. *)
Lemma gmtime_timegm c :
  valid_civil c = true ->
  gmtime (timegm c) =
    if (INT_MIN <=? c_year c - 1900) && (c_year c - 1900 <=? INT_MAX)
    then Some (tm_of c) else None.
Proof.
  intros Hv. apply valid_civil_bounds in Hv as (Hm & Hd & Hh & Hmi & Hs).
  destruct c as [Y M D h mi s]. cbn [c_year c_mon c_mday c_hour c_min c_sec] in *.
  unfold timegm, tm_of. cbn [c_year c_mon c_mday c_hour c_min c_sec].
  replace (((days_before_year Y + days_before_month Y M + (D - 1)) * 24 + h)
           * 3600 + mi * 60 + s)
    with ((days_before_year Y + days_before_month Y M + (D - 1)) * 86400
          + (h * 3600 + mi * 60 + s)) by lia.
  rewrite gmtime_civil by lia.
  destruct (_ && _); [|done]. do 2 f_equal;
    Z.div_mod_to_equations; lia.
Qed.


Lemma same_cfg_refl w : same_cfg w w.
Proof. by repeat split. Qed.

Lemma same_cfg_trans w1 w2 w3 :
  same_cfg w1 w2 -> same_cfg w2 w3 -> same_cfg w1 w3.
Proof.
  unfold same_cfg. intros (?&?&?&?&?&?) (?&?&?&?&?&?).
  repeat split; congruence.
Qed.

Lemma same_cfg_quiet w w' : same_cfg w w' -> quiet w -> quiet w'.
Proof. intros (_ & Hi & _) Hq t s. rewrite Hi. apply Hq. Qed.

Lemma same_env_cfg w w' : same_env w w' -> same_cfg w w'.
Proof. intros (?&?&?&?&?&?&?&?). by repeat split. Qed.

Lemma hist_refl P w : hist P w w.
Proof. by exists []. Qed.

Lemma hist_trans P w1 w2 w3 : hist P w1 w2 -> hist P w2 w3 -> hist P w1 w3.
Proof.
  intros (l1 & H1 & F1) (l2 & H2 & F2). exists (l2 ++ l1).
  split; [by rewrite H2, H1, app_assoc|]. by apply Forall_app.
Qed.

Lemma hist_step (P : entry -> Prop) ev ok s w0 w :
  hist P w0 w -> P {| e_call := ev; e_ok := ok; e_after := s |} ->
  hist P w0 (step_world ev ok s w).
Proof.
  intros (l & Hl & Fl) Hs. eexists (_ :: l). split; [simpl; by rewrite Hl|].
  by constructor.
Qed.

Lemma hist_impl (P Q : entry -> Prop) w w' :
  (forall e, P e -> Q e) -> hist P w w' -> hist Q w w'.
Proof.
  intros HPQ (l & Hl & Fl). exists l. split; [done|].
  eapply Forall_impl; [exact Fl|]. intros e. apply HPQ.
Qed.

Lemma hist_extends P w w' : hist P w w' -> extends w w'.
Proof. intros (l & Hl & _). by exists l. Qed.

#[export] Instance same_env_rel : EnvRel same_env.
Proof.
  split.
  - apply same_env_refl.
  - apply same_env_trans.
  - by intros ev ok s w0 w H.
  - apply same_env_quiet.
Qed.

#[export] Instance same_cfg_rel : EnvRel same_cfg.
Proof.
  split.
  - apply same_cfg_refl.
  - apply same_cfg_trans.
  - by intros ev ok s w0 w H.
  - apply same_cfg_quiet.
Qed.

Section Rules.
Context {E : World -> World -> Prop} `{!EnvRel E} {A : event -> bool}.

Lemma run_in_refl (P : OS -> Prop) w : P (os w) -> run_in E A P w w.
  Proof.
    intros HP. split; [apply env_refl|]. split; [apply hist_refl|done].
  Qed.

Lemma run_in_trans P w1 w2 w3 :
    run_in E A P w1 w2 -> run_in E A P w2 w3 -> run_in E A P w1 w3.
  Proof.
    intros (C1 & H1 & _) (C2 & H2 & P3).
    split; [by eapply env_trans|]. split; [by eapply hist_trans|done].
  Qed.

Lemma run_in_step (P : OS -> Prop) ev ok s w0 w :
    run_in E A P w0 w -> A ev = true -> P s ->
    run_in E A P w0 (step_world ev ok s w).
  Proof.
    intros (C & H & _) Hev Hs. split; [by apply env_step|].
    split; [by apply hist_step|done].
  Qed.

Lemma run_in_quiet P w w' : run_in E A P w w' -> quiet w -> quiet w'.
  Proof. intros (C & _). by apply env_quiet. Qed.

Lemma run_in_P (P : OS -> Prop) w w' : run_in E A P w w' -> P (os w').
  Proof. by intros (_ & _ & ?). Qed.

  (** ** Rules for [inv_wp] *)

Lemma inv_bind {T U} P (m : M T) (k : T -> M U) w Q R :
    inv_wp E A P m w Q ->
    (forall a w1, run_in E A P w w1 -> Q a w1 ->
       inv_wp E A P (k a) w1 (fun b w2 => run_in E A P w w2 -> R b w2)) ->
    inv_wp E A P (bind m k) w R.
  Proof.
    intros Hm Hk. apply wp_bind. eapply wp_mono; [exact Hm| |done].
    intros a w1 [Hr HQ]. cbv beta.
    eapply wp_mono; [exact (Hk a w1 Hr HQ)| |].
    - intros b w2 [Hr2 HR]. cbv beta.
      assert (run_in E A P w w2) by (by eapply run_in_trans). auto.
    - intros w2 Hr2. by eapply run_in_trans.
  Qed.

Lemma inv_mono {T} P (m : M T) w (Q Q' : T -> World -> Prop) :
    inv_wp E A P m w Q ->
    (forall a w', run_in E A P w w' -> Q a w' -> Q' a w') ->
    inv_wp E A P m w Q'.
  Proof.
    intros Hm HQ. eapply wp_mono; [exact Hm| |done].
    intros a w' [Hr Ha]. auto.
  Qed.

Lemma inv_ret {T} (P : OS -> Prop) (a : T) w (Q : T -> World -> Prop) :
    P (os w) -> Q a w -> inv_wp E A P (ret a) w Q.
  Proof. intros HP HQ. apply wp_ret. split; [by apply run_in_refl|done]. Qed.

Lemma inv_get {T} (P : OS -> Prop) (f : World -> T) w
      (Q : T -> World -> Prop) :
    P (os w) -> Q (f w) w -> inv_wp E A P (get f) w Q.
  Proof. intros HP HQ. apply wp_get. split; [by apply run_in_refl|done]. Qed.

Lemma inv_FATAL {T} (P : OS -> Prop) msg w (Q : T -> World -> Prop) :
    P (os w) -> inv_wp E A P (FATAL msg) w Q.
  Proof. intros HP. apply wp_FATAL. by apply run_in_refl. Qed.

Lemma inv_assert (P : OS -> Prop) b w (Q : unit -> World -> Prop) :
    P (os w) -> (b = true -> Q tt w) -> inv_wp E A P (assert b) w Q.
  Proof.
    intros HP HQ. apply wp_assert; intros Hb.
    - split; [by apply run_in_refl|auto].
    - by apply run_in_refl.
  Qed.

Lemma inv_nofuel {T} (P : OS -> Prop) w (Q : T -> World -> Prop) :
    P (os w) -> inv_wp E A P (fun w => (NoFuel, w)) w Q.
  Proof. intros HP. unfold inv_wp, wp. by apply run_in_refl. Qed.

Lemma inv_sys {T} (P : OS -> Prop) ev (op : kcall T) w
      (Q : errno + T -> World -> Prop) :
    quiet w -> P (os w) -> A ev = true ->
    (forall e, (faulty w (tick w) = true /\ e = EIO) \/ op (os w) = inl e ->
       Q (inl e) (step_world ev false (os w) w)) ->
    (forall a s2, op (os w) = inr (a, s2) ->
       P s2 /\ Q (inr a) (step_world ev true s2 w)) ->
    inv_wp E A P (sys ev op) w Q.
  Proof.
    intros Hq HP Hev He Hok. apply wp_sys; rewrite Hq.
    - intros e Hc. split.
      + apply run_in_step; [by apply run_in_refl|done|done].
      + apply He. destruct Hc as [?|[_ ?]]; auto.
    - intros a s2 _ Hop. destruct (Hok a s2 Hop) as [HP2 HQ].
      split; [|done]. apply run_in_step; [by apply run_in_refl|done|done].
  Qed.

Lemma inv_call {T} (P : OS -> Prop) ev (op : kcall T) msg w
      (Q : T -> World -> Prop) :
    quiet w -> P (os w) -> A ev = true ->
    (forall a s2, op (os w) = inr (a, s2) ->
       P s2 /\ Q a (step_world ev true s2 w)) ->
    inv_wp E A P (call ev op msg) w Q.
  Proof.
    intros Hq HP Hev Hok. apply wp_call; rewrite Hq.
    - apply run_in_step; [by apply run_in_refl|done|done].
    - intros a s2 _ Hop. destruct (Hok a s2 Hop) as [HP2 HQ].
      split; [|done]. apply run_in_step; [by apply run_in_refl|done|done].
  Qed.

  (** A call that leaves the machine as it is. *)
Lemma inv_call_ro {T} (P : OS -> Prop) ev (op : kcall T) msg w
      (Q : T -> World -> Prop) :
    quiet w -> P (os w) -> A ev = true -> read_only op ->
    (forall a, op (os w) = inr (a, os w) ->
       Q a (step_world ev true (os w) w)) ->
    inv_wp E A P (call ev op msg) w Q.
  Proof.
    intros Hq HP Hev Hro HQ. apply inv_call; [done|done|done|].
    intros a s2 Hop. pose proof (Hro _ a s2 Hop). subst s2. auto.
  Qed.

Lemma inv_last_ro {T} (P : OS -> Prop) ev (op : kcall T) msg w :
    quiet w -> P (os w) -> A ev = true -> read_only op ->
    inv_wp E A P (call ev op msg) w (fun _ _ => True).
  Proof. intros. by apply inv_call_ro. Qed.

  (** ** Rules that step over one call *)

Lemma inv_step {T U} (P : OS -> Prop) ev (op : kcall T) msg (k : T -> M U)
      w R :
    quiet w -> P (os w) -> A ev = true ->
    (forall a s2, op (os w) = inr (a, s2) ->
       P s2 /\ inv_wp E A P (k a) (step_world ev true s2 w) R) ->
    inv_wp E A P (bind (call ev op msg) k) w R.
  Proof.
    intros Hq HP Hev Hk.
    eapply inv_bind with (Q := fun a w1 => exists s2,
      op (os w) = inr (a, s2) /\ w1 = step_world ev true s2 w).
    - apply inv_call; [done|done|done|]. intros a s2 Hop.
      split; [by apply (Hk a s2)|eauto].
    - intros a w1 _ (s2 & Hop & ->).
      eapply inv_mono; [by apply (Hk a s2)|]. auto.
  Qed.

Lemma inv_step_ro {T U} (P : OS -> Prop) ev (op : kcall T) msg
      (k : T -> M U) w R :
    quiet w -> P (os w) -> A ev = true -> read_only op ->
    (forall a, op (os w) = inr (a, os w) ->
       inv_wp E A P (k a) (step_world ev true (os w) w) R) ->
    inv_wp E A P (bind (call ev op msg) k) w R.
  Proof.
    intros Hq HP Hev Hro Hk. apply inv_step; [done|done|done|].
    intros a s2 Hop. pose proof (Hro _ _ _ Hop). subst s2. auto.
  Qed.

Lemma inv_step_sys {T U} (P : OS -> Prop) ev (op : kcall T)
      (k : errno + T -> M U) w R :
    quiet w -> P (os w) -> A ev = true ->
    (forall e, (faulty w (tick w) = true /\ e = EIO) \/ op (os w) = inl e ->
       inv_wp E A P (k (inl e)) (step_world ev false (os w) w) R) ->
    (forall a s2, op (os w) = inr (a, s2) ->
       P s2 /\ inv_wp E A P (k (inr a)) (step_world ev true s2 w) R) ->
    inv_wp E A P (bind (sys ev op) k) w R.
  Proof.
    intros Hq HP Hev He Hk.
    eapply inv_bind with (Q := fun r w1 =>
      match r with
      | inl e => ((faulty w (tick w) = true /\ e = EIO) \/ op (os w) = inl e)
                 /\ w1 = step_world ev false (os w) w
      | inr a => exists s2, op (os w) = inr (a, s2)
                 /\ w1 = step_world ev true s2 w
      end).
    - apply inv_sys; [done|done|done|by auto|].
      intros a s2 Hop. split; [by apply (Hk a s2)|eauto].
    - intros [e|a] w1 _ HQ.
      + destruct HQ as [Hc ->]. eapply inv_mono; [by apply He|]. auto.
      + destruct HQ as (s2 & Hop & ->).
        eapply inv_mono; [by apply (Hk a s2)|]. auto.
  Qed.

Lemma inv_step_act {U} (P : OS -> Prop) ev f (k : unit -> M U) w R :
    quiet w -> A ev = true -> P (os w) ->
    (forall s2, f (os w) = Some s2 ->
       P s2 /\ inv_wp E A P (k tt) (step_world ev true s2 w) R) ->
    inv_wp E A P (bind (act ev f) k) w R.
  Proof.
    intros Hq Hev HP Hk.
    eapply inv_bind with
      (Q := fun _ w1 => exists s2, f (os w) = Some s2
                                   /\ w1 = step_world ev true s2 w).
    - apply wp_act; rewrite Hq.
      + intros s2 Hs2. destruct (Hk s2 Hs2) as [HP2 _]. split; [|eauto].
        apply run_in_step; [by apply run_in_refl|done|done].
      + intros _. apply run_in_step; [by apply run_in_refl|done|done].
    - intros [] w1 _ (s2 & Hs2 & ->).
      eapply inv_mono; [by apply (Hk s2)|]. auto.
  Qed.

Lemma inv_kill {T} (P : OS -> Prop) sig w (Q : T -> World -> Prop) :
    P (os w) -> inv_wp E A P (kill sig) w Q.
  Proof. intros HP. apply wp_kill. by apply run_in_refl. Qed.

Lemma inv_or_sleep {T} (P : OS -> Prop) sleeps (m : M T) w Q :
    P (os w) -> inv_wp E A P m w Q -> inv_wp E A P (or_sleep sleeps m) w Q.
  Proof. intros HP Hm. apply wp_or_sleep; [by apply run_in_refl|done]. Qed.

Lemma inv_bind_or_sleep {T U} (P : OS -> Prop) sleeps (m : M T)
      (k : T -> M U) w R :
    P (os w) -> inv_wp E A P (bind m k) w R ->
    inv_wp E A P (bind (or_sleep sleeps m) k) w R.
  Proof.
    intros HP Hm. unfold inv_wp, wp, bind, or_sleep in *.
    destruct (negb (faulty w (tick w)) && sleeps _); [|exact Hm].
    by apply run_in_refl.
  Qed.

Lemma inv_step_get {T U} (P : OS -> Prop) (f : World -> T) (k : T -> M U)
      w R :
    P (os w) -> inv_wp E A P (k (f w)) w R -> inv_wp E A P (bind (get f) k) w R.
  Proof.
    intros HP Hk. eapply inv_bind with (Q := fun a w1 => a = f w /\ w1 = w).
    - by apply inv_get.
    - intros a w1 _ [-> ->]. eapply inv_mono; [exact Hk|]. auto.
  Qed.

Lemma inv_step_put {U} (P : OS -> Prop) (f : World -> World)
      (k : unit -> M U) w R :
    P (os w) -> E w (f w) -> log (f w) = log w -> os (f w) = os w ->
    inv_wp E A P (k tt) (f w) R -> inv_wp E A P (bind (put f) k) w R.
  Proof.
    intros HP Hc Hl Ho Hk.
    eapply inv_bind with (Q := fun _ w1 => w1 = f w).
    - apply wp_put. split; [|done]. split; [done|]. split; [|by rewrite Ho].
      exists []. by rewrite Hl.
    - intros [] w1 _ ->. eapply inv_mono; [exact Hk|]. auto.
  Qed.

Lemma inv_step_assert {U} (P : OS -> Prop) b (k : unit -> M U) w R :
    P (os w) -> (b = true -> inv_wp E A P (k tt) w R) ->
    inv_wp E A P (bind (assert b) k) w R.
  Proof.
    intros HP Hk. eapply inv_bind with (Q := fun _ w1 => b = true /\ w1 = w).
    - by apply inv_assert.
    - intros [] w1 _ [Hb ->]. eapply inv_mono; [by apply Hk|]. auto.
  Qed.

  (** Sequencing, when the postcondition does not mention the start. *)
Lemma inv_seq {T U} (P : OS -> Prop) (m : M T) (k : T -> M U) w Q
      (R : U -> World -> Prop) :
    quiet w -> inv_wp E A P m w Q ->
    (forall a w1, quiet w1 -> P (os w1) -> E w w1 -> Q a w1 ->
       inv_wp E A P (k a) w1 R) ->
    inv_wp E A P (bind m k) w R.
  Proof.
    intros Hq Hm Hk. eapply inv_bind; [exact Hm|].
    intros a w1 Hr HQ. eapply inv_mono.
    - apply Hk; [by eapply run_in_quiet|by eapply run_in_P|apply Hr|done].
    - auto.
  Qed.

Lemma readdir_loop_inv (P : OS -> Prop) body names msg w :
    A EvReaddir = true ->
    (forall d_name w1, quiet w1 -> P (os w1) ->
       inv_wp E A P (body d_name) w1 (fun _ _ => True)) ->
    quiet w -> P (os w) ->
    inv_wp E A P (readdir_loop body names msg) w (fun _ _ => True).
  Proof.
    intros HA Hbody. revert w.
    induction names as [|d rest IH]; intros w Hq HP.
    - apply inv_last_ro; [done|done|done|].
      intros s a s2 H. by injection H as _ <-.
    - cbn [readdir_loop].
      apply inv_step_ro; [done|done|done| |intros _ _].
      { intros s a s2 H. by injection H as _ <-. }
      eapply inv_seq with (Q := fun _ _ => True); [done| |].
      + destruct (_ || _); [by apply inv_ret|by apply Hbody].
      + intros _ w1 Hq1 HP1 _ _. by apply IH.
  Qed.
End Rules.

Lemma run_in_weaken (E E' : World -> World -> Prop) (A A' : event -> bool)
    (P P' : OS -> Prop) w w' :
  (forall a b, E a b -> E' a b) -> (forall ev, A ev = true -> A' ev = true) ->
  (forall s, P s -> P' s) ->
  run_in E A P w w' -> run_in E' A' P' w w'.
Proof.
  intros HE HA HP (C & H & Hs). split; [auto|]. split; [|auto].
  eapply hist_impl; [|exact H]. intros e [? ?]. split; auto.
Qed.

(** ** Keeping the old generation *)

Lemma is_dir_true s i : is_dir s i = true <-> exists es, dir_entries s i = Some es.
Proof.
  unfold is_dir. destruct (dir_entries s i); split; eauto; try done.
  by intros [? ?].
Qed.

Lemma pinned_empty conf s : pinned conf ∅ s.
Proof. intros name j H. by rewrite lookup_empty in H. Qed.

Lemma dir_entries_put_ne s fd nd i :
  i <> fd ->
  dir_entries (with_inodes (<[fd := nd]> (inodes s)) s) i = dir_entries s i.
Proof. intros Hi. unfold dir_entries. simpl. by rewrite lookup_insert_ne. Qed.

Lemma dir_entries_put_eq s fd nd :
  dir_entries (with_inodes (<[fd := nd]> (inodes s)) s) fd =
  match i_body nd with Dir es => Some es | _ => None end.
Proof. unfold dir_entries. simpl. by rewrite lookup_insert_eq. Qed.

Lemma dir_entries_put_same s fd nd nd' i :
  inodes s !! fd = Some nd -> i_body nd' = i_body nd ->
  dir_entries (with_inodes (<[fd := nd']> (inodes s)) s) i = dir_entries s i.
Proof.
  intros Hnd Hb. destruct (decide (i = fd)) as [->|Hi].
  - rewrite dir_entries_put_eq. unfold dir_entries. by rewrite Hnd, Hb.
  - by apply dir_entries_put_ne.
Qed.

Lemma old_kept_start s0 conf es0 :
  wf_os s0 -> dir_entries s0 conf = Some es0 -> old_kept s0 conf ∅ s0.
Proof.
  intros Hwf Hconf. apply dir_entries_Some in Hconf as (nd0 & Hnd0 & Hb0).
  assert (conf < next_ino s0)%nat by (apply Hwf; eauto).
  split; [done|]. split; [lia|]. split; [apply pinned_empty|].
  split; [done|]. split.
  - exists nd0, es0, es0. repeat split; try done.
    + rewrite Hnd0. f_equal. destruct nd0; simpl in *. by subst.
    + intros n j Hj Hn.
      assert (Hc : Some j = None) by (rewrite <- Hj; exact Hn). done.
  - intros i es Hi Hes. apply dir_entries_Some in Hes as (nd & Hnd & _).
    assert (i < next_ino s0)%nat by (apply Hwf; eauto). lia.
Qed.

(** An inode allocated since the start may be rewritten, as long as a
    directory stays the directory it is. *)
Lemma old_kept_put s0 conf pin s fd nd nd' :
  old_kept s0 conf pin s -> (next_ino s0 <= fd)%nat ->
  inodes s !! fd = Some nd ->
  (i_body nd' = i_body nd \/
   (is_dir_body (i_body nd) = false /\ is_dir_body (i_body nd') = false)) ->
  old_kept s0 conf pin (with_inodes (<[fd := nd']> (inodes s)) s).
Proof.
  intros (Hwf & Hn & Hpin & Hold & Hconf & Hcl) Hfd Hnd Hbody.
  assert (Hde : forall i es, i <> fd \/ is_dir_body (i_body nd) = true ->
            dir_entries s i = Some es ->
            dir_entries (with_inodes (<[fd := nd']> (inodes s)) s) i = Some es).
  { intros i es Hi Hes. destruct (decide (i = fd)) as [->|Hne].
    - rewrite dir_entries_put_eq.
      apply dir_entries_Some in Hes as (nd1 & Hnd1 & Hb1).
      rewrite Hnd in Hnd1. injection Hnd1 as <-.
      destruct Hbody as [->|[Hb _]]; [by rewrite Hb1|].
      rewrite Hb1 in Hb. done.
    - by rewrite dir_entries_put_ne. }
  assert (Hdir : forall i es, dir_entries s i = Some es ->
            dir_entries (with_inodes (<[fd := nd']> (inodes s)) s) i = Some es).
  { intros i es Hes. apply Hde; [|done].
    destruct (decide (i = fd)) as [->|]; [right|by left].
    apply dir_entries_Some in Hes as (nd1 & Hnd1 & Hb1).
    rewrite Hnd in Hnd1. injection Hnd1 as <-. by rewrite Hb1. }
  split; [|split; [done|split; [|split; [|split]]]].
  - intros i [x Hx]. cbn [inodes with_inodes next_ino] in *.
    destruct (decide (i = fd)) as [->|Hi]; [apply Hwf; eauto|].
    rewrite lookup_insert_ne in Hx by done. apply Hwf; eauto.
  - intros name j Hj. destruct (Hpin name j Hj) as [(es & Hes & Hn1) Hd].
    split.
    + exists es. split; [|done]. by apply Hdir.
    + apply is_dir_true in Hd as [esj Hesj]. apply is_dir_true.
      exists esj. by apply Hdir.
  - intros i Hi Hic. cbn [inodes with_inodes].
    rewrite lookup_insert_ne by lia. by apply Hold.
  - destruct Hconf as (nd0 & es0 & es & H1 & H2 & H3 & H4 & H5).
    exists nd0, es0, es. repeat split; try done.
    cbn [inodes with_inodes]. rewrite lookup_insert_ne by lia. done.
  - intros i es Hi Hes name j Hj.
    destruct (decide (i = fd)) as [->|Hne].
    + rewrite dir_entries_put_eq in Hes.
      destruct Hbody as [Hb|[_ Hb]].
      * eapply (Hcl fd es); [done| |done]. apply dir_entries_Some.
        exists nd. split; [done|]. rewrite <- Hb.
        destruct (i_body nd'); congruence.
      * destruct (i_body nd'); simpl in *; congruence.
    + rewrite dir_entries_put_ne in Hes by done. eauto.
Qed.

Lemma dir_entries_create_ne d es name nd s i :
  i <> d -> i <> next_ino s ->
  dir_entries (snd (create_in d es name nd s)) i = dir_entries s i.
Proof.
  intros H1 H2. unfold dir_entries. rewrite create_in_inodes.
  rewrite decide_False by done. by rewrite lookup_insert_ne.
Qed.

Lemma dir_entries_create_eq d es name nd s :
  dir_entries s d = Some es -> wf_os s ->
  dir_entries (snd (create_in d es name nd s)) d
  = Some (<[name := next_ino s]> es).
Proof.
  intros Hes Hwf. apply dir_entries_Some in Hes as (ndd & Hndd & Hb).
  assert (d <> next_ino s).
  { pose proof (wf_os_fresh _ Hwf). congruence. }
  unfold dir_entries. rewrite create_in_inodes.
  rewrite decide_True by done. rewrite lookup_insert_ne by done.
  by rewrite Hndd.
Qed.

(** A new inode may be entered in [conf] or in a directory allocated since
    the start. *)
Lemma old_kept_create s0 conf pin s d es name nd :
  old_kept s0 conf pin s -> dir_entries s d = Some es -> es !! name = None ->
  (d = conf \/ (next_ino s0 <= d)%nat) ->
  (i_body nd = Dir ∅ \/ is_dir_body (i_body nd) = false) ->
  old_kept s0 conf pin (snd (create_in d es name nd s)).
Proof.
  intros (Hwf & Hn & Hpin & Hold & Hconf & Hcl) Hes Hname Hd Hbody.
  pose proof (wf_os_fresh _ Hwf) as Hfresh.
  assert (Hdn : d <> next_ino s).
  { apply dir_entries_Some in Hes as (? & ? & _). congruence. }
  assert (Hdir : forall i, is_dir s i = true ->
            is_dir (snd (create_in d es name nd s)) i = true).
  { intros i Hi. apply is_dir_true in Hi as [esi Hesi]. apply is_dir_true.
    destruct (decide (i = d)) as [->|Hid].
    - erewrite dir_entries_create_eq by done. eauto.
    - rewrite dir_entries_create_ne; eauto.
      apply dir_entries_Some in Hesi as (? & ? & _). congruence. }
  destruct Hconf as (nd0 & es0 & esc & H1 & H2 & H3 & H4 & H5).
  split; [|split; [|split; [|split; [|split]]]].
  - intros i [x Hx]. rewrite create_in_inodes in Hx.
    cbn [create_in snd next_ino with_next_ino].
    destruct (decide (i = next_ino s)) as [->|Hi]; [lia|].
    assert (is_Some (inodes s !! i)); [|assert (i < next_ino s)%nat by (by apply Hwf); lia].
    case_decide.
    + subst i. apply dir_entries_Some in Hes as (? & ? & _). eauto.
    + rewrite lookup_insert_ne in Hx by done. eauto.
  - cbn [create_in snd next_ino with_next_ino]. lia.
  - intros n j Hj. destruct (Hpin n j Hj) as [(esc' & Hesc & Hn1) Hdj].
    split; [|by apply Hdir].
    destruct (decide (conf = d)) as [<-|Hcd].
    + erewrite dir_entries_create_eq by done.
      rewrite Hes in Hesc. injection Hesc as <-.
      eexists. split; [done|].
      destruct (decide (n = name)) as [->|Hne]; [congruence|].
      by rewrite lookup_insert_ne.
    + rewrite dir_entries_create_ne by (done || lia). eauto.
  - intros i Hi Hic. rewrite create_in_inodes.
    destruct Hd as [->|Hd]; (rewrite decide_False by lia);
      rewrite lookup_insert_ne by lia; by apply Hold.
  - rewrite create_in_inodes.
    destruct Hd as [->|Hd].
    + rewrite decide_True by done. rewrite lookup_insert_ne by lia.
      rewrite H3. cbn [fmap option_fmap option_map].
      apply dir_entries_Some in Hes as (ndc & Hndc & Hbc).
      rewrite H3 in Hndc. injection Hndc as <-. cbn [i_body set_body] in Hbc.
      injection Hbc as <-.
      exists nd0, es0, (<[name := next_ino s]> esc). repeat split; try done.
      * intros n j Hj. destruct (decide (n = name)) as [->|Hne].
        -- apply H4 in Hj. congruence.
        -- rewrite lookup_insert_ne by done. eauto.
      * intros n j Hj Hj0. destruct (decide (n = name)) as [->|Hne].
        -- rewrite lookup_insert_eq in Hj. injection Hj as <-. lia.
        -- rewrite lookup_insert_ne in Hj by done. eauto.
    + rewrite decide_False by lia. rewrite lookup_insert_ne by lia.
      exists nd0, es0, esc. by repeat split.
  - intros i esi Hi Hesi n j Hj.
    apply dir_entries_Some in Hesi as (ndi & Hndi & Hbi).
    rewrite create_in_inodes in Hndi. case_decide as Hid.
    + subst i. rewrite lookup_insert_ne in Hndi by done.
      apply dir_entries_Some in Hes as (ndd & Hndd & Hbd).
      rewrite Hndd in Hndi. cbn [fmap option_fmap option_map] in Hndi.
      injection Hndi as <-. cbn [i_body set_body] in Hbi. injection Hbi as <-.
      destruct (decide (n = name)) as [->|Hne].
      * rewrite lookup_insert_eq in Hj. injection Hj as <-. lia.
      * rewrite lookup_insert_ne in Hj by done.
        eapply (Hcl d es); [done| |done]. apply dir_entries_Some. eauto.
    + destruct (decide (i = next_ino s)) as [->|Hine].
      * rewrite lookup_insert_eq in Hndi. injection Hndi as <-.
        destruct Hbody as [Hb|Hb]; rewrite Hbi in Hb; [|done].
        injection Hb as ->. by rewrite lookup_empty in Hj.
      * rewrite lookup_insert_ne in Hndi by done.
        eapply (Hcl i esi); [done| |done]. apply dir_entries_Some. eauto.
Qed.

(** Fields of the machine other than the inode table do not matter. *)
Lemma old_kept_same s0 conf pin s s' :
  inodes s' = inodes s -> next_ino s' = next_ino s ->
  old_kept s0 conf pin s -> old_kept s0 conf pin s'.
Proof.
  intros Hi Hn. unfold old_kept, pinned, wf_os, is_dir, dir_entries.
  by rewrite Hi, Hn.
Qed.

Lemma old_kept_entry_fresh s0 conf pin s d es name j :
  old_kept s0 conf pin s -> (next_ino s0 <= d)%nat ->
  dir_entries s d = Some es -> es !! name = Some j -> (next_ino s0 <= j)%nat.
Proof. intros (_ & _ & _ & _ & _ & Hcl) Hd Hes Hj. eauto. Qed.

Lemma old_kept_next s0 conf pin s :
  old_kept s0 conf pin s -> (next_ino s0 <= next_ino s)%nat.
Proof. intros (_ & ? & _). lia. Qed.

Lemma old_kept_wf s0 conf pin s : old_kept s0 conf pin s -> wf_os s.
Proof. by intros (? & _). Qed.

Lemma old_kept_pinned s0 conf pin s :
  old_kept s0 conf pin s -> pinned conf pin s.
Proof. by intros (_ & _ & ? & _). Qed.

Lemma old_kept_old s0 conf pin s i :
  old_kept s0 conf pin s -> (i < next_ino s0)%nat -> i <> conf ->
  inodes s !! i = inodes s0 !! i.
Proof. intros (_ & _ & _ & H & _). apply H. Qed.

(** What [conf] had at the start it still has; what it has got since
    leads to new inodes. *)
Lemma old_kept_conf s0 conf pin s es0 :
  old_kept s0 conf pin s -> dir_entries s0 conf = Some es0 ->
  exists es, dir_entries s conf = Some es /\
    (forall name j, es0 !! name = Some j -> es !! name = Some j) /\
    (forall name j, es !! name = Some j -> es0 !! name = None ->
       (next_ino s0 <= j)%nat).
Proof.
  intros (_ & _ & _ & _ & (nd0 & e0 & es & H1 & H2 & H3 & H4 & H5) & _) Hes0.
  apply dir_entries_Some in Hes0 as (nd0' & Hnd0' & Hb0).
  rewrite H1 in Hnd0'. injection Hnd0' as <-. rewrite H2 in Hb0.
  injection Hb0 as <-. exists es. split; [|done].
  apply dir_entries_Some. eauto.
Qed.

(** A name of [conf] that leads to a directory may be pinned. *)
Lemma old_kept_pin s0 conf pin s es name j :
  old_kept s0 conf pin s -> dir_entries s conf = Some es ->
  es !! name = Some j -> is_dir s j = true ->
  old_kept s0 conf (<[name := j]> pin) s.
Proof.
  intros (Hwf & Hn & Hpin & Hrest) Hes Hj Hd.
  split; [done|]. split; [done|]. split; [|done].
  intros n i Hi. destruct (decide (n = name)) as [->|Hne].
  - rewrite lookup_insert_eq in Hi. injection Hi as <-. eauto.
  - rewrite lookup_insert_ne in Hi by done. by apply Hpin.
Qed.

Lemma old_kept_unpin s0 conf pin s :
  old_kept s0 conf pin s -> old_kept s0 conf ∅ s.
Proof.
  intros (Hwf & Hn & Hpin & Hrest).
  split; [done|]. split; [done|]. split; [apply pinned_empty|done].
Qed.

(** ** Calls that only read *)

Lemma k_ok_ro : read_only k_ok.
Proof. intros s a s2 H. by apply k_ok_inv in H. Qed.

Lemma k_fstat_ro fd : read_only (k_fstat fd).
Proof. intros s a s2 H. by apply k_fstat_inv in H as [? _]. Qed.

Lemma k_readlinkat_ro fd n : read_only (k_readlinkat fd n).
Proof. intros s a s2 H. by apply k_readlinkat_inv in H as [? _]. Qed.

Lemma k_mmap_ro fd n : read_only (k_mmap fd n).
Proof. intros s a s2 H. by apply k_mmap_inv in H as [? _]. Qed.

Lemma k_reopen_ro fd fl : read_only (k_reopen fd fl).
Proof. intros s a s2 H. by apply k_reopen_inv in H as [? _]. Qed.

Lemma k_open_ro p fl : read_only (k_open p fl).
Proof. intros s a s2 H. by apply k_open_inv in H as [? _]. Qed.

Lemma k_fdopendir_ro fd : read_only (k_fdopendir fd).
Proof. intros s a s2 H. by apply k_fdopendir_inv in H as [? _]. Qed.

Lemma k_read_ro fd n : read_only (k_read fd n).
Proof. intros s a s2 H. by apply k_read_inv in H as [? _]. Qed.

Lemma k_openat_ro d name flags mode :
  has_flag flags O_CREAT = false -> read_only (k_openat d name flags mode).
Proof.
  intros Hc s a s2 H. apply k_openat_inv in H as (es & _ & [H|H]).
  - by destruct H as (_ & ? & _).
  - destruct H as (_ & ? & _). congruence.
Qed.

Lemma k_ListCerts_ro slot : read_only (k_PK11_ListCertsInSlot slot).
Proof.
  intros s a s2. unfold k_PK11_ListCertsInSlot.
  destruct (read_db s slot); [|done]. by intros [= _ <-].
Qed.

Lemma k_GetSlot_ro : read_only k_PK11_GetInternalKeySlot.
Proof.
  intros s a s2. unfold k_PK11_GetInternalKeySlot.
  destruct (nss s); [|done]. by intros [= _ <-].
Qed.

Lemma k_Decode_ro pem : read_only (k_CERT_DecodeCertFromPackage pem).
Proof.
  intros s a s2. unfold k_CERT_DecodeCertFromPackage.
  destruct pem; [done|]. by intros [= _ <-].
Qed.

Lemma k_time_ro : read_only k_time.
Proof. intros s a s2. unfold k_time. by intros [= _ <-]. Qed.

Create HintDb ro.
#[export] Hint Resolve k_ok_ro k_fstat_ro k_readlinkat_ro k_mmap_ro k_reopen_ro
  k_open_ro k_fdopendir_ro k_read_ro k_ListCerts_ro k_GetSlot_ro k_Decode_ro
  k_time_ro : ro.
#[export] Hint Extern 1 (read_only (k_openat _ _ _ _)) =>
  (apply k_openat_ro; reflexivity) : ro.

(** Step over a call that only reads; [H] names its equation. *)
Ltac step_ro a H :=
  apply inv_step_ro;
    [done|assumption|reflexivity|solve [auto with ro]|intros a H].

(** Step over a call that writes; [H] names its equation. *)
Ltac step_rw a s H :=
  apply inv_step; [done|assumption|reflexivity|intros a s H].

Lemma alter_as_insert {A} (f : A -> A) (m : gmap nat A) i x :
  m !! i = Some x -> alter f i m = <[i := f x]> m.
Proof.
  intros Hx. apply map_eq. intros j. rewrite lookup_alter, lookup_insert.
  repeat case_decide; subst; try done. by rewrite Hx.
Qed.

Section PhaseA.
Variables (s0 : OS) (conf : ino) (pin : gmap string ino).

Local Abbreviation K := (old_kept s0 conf pin).
Local Abbreviation n0 := (next_ino s0).

Lemma copy_fd_inv orig flags w :
    quiet w -> K (os w) ->
    inv_wp same_env no_unlink K (copy_fd orig flags) w
      (fun fd w' => fd = orig /\ os w' = os w).
  Proof.
    intros Hq HK. unfold copy_fd, alloc.
    step_ro a1 H1. cbv zeta.
    destruct (one_way flags); [apply inv_or_sleep; [assumption|]|];
    (apply inv_call_ro; [done|assumption|done|auto with ro|];
     intros fd H2; apply k_reopen_inv in H2 as (_ & -> & _); done).
  Qed.

Lemma upd_inode_kept fd f w a s2 :
    K (os w) -> (n0 <= fd)%nat ->
    (forall nd, i_body (f nd) = i_body nd) ->
    upd_inode fd f (os w) = inr (a, s2) -> K s2.
  Proof.
    intros HK Hfd Hf H. apply upd_inode_inv in H as (nd & Hnd & ->).
    eapply old_kept_put; eauto.
  Qed.

Lemma k_fchown_kept fd u g w a s2 :
    K (os w) -> (n0 <= fd)%nat -> k_fchown fd u g (os w) = inr (a, s2) -> K s2.
  Proof. intros HK Hfd. apply upd_inode_kept; auto. Qed.

Lemma k_utimens_kept fd x y w a s2 :
    K (os w) -> (n0 <= fd)%nat -> k_utimens fd x y (os w) = inr (a, s2) -> K s2.
  Proof. intros HK Hfd. apply upd_inode_kept; auto. Qed.

Lemma k_fchmod_kept fd m w a s2 :
    K (os w) -> (n0 <= fd)%nat -> k_fchmod fd m (os w) = inr (a, s2) -> K s2.
  Proof.
    intros HK Hfd H. apply k_fchmod_inv in H as (nd & Hnd & _ & ->).
    eapply old_kept_put; eauto.
  Qed.

Lemma k_fallocate_kept fd n w a s2 :
    K (os w) -> (n0 <= fd)%nat -> k_fallocate fd n (os w) = inr (a, s2) -> K s2.
  Proof.
    intros HK Hfd H. apply k_fallocate_inv in H as (nd & d & Hnd & Hb & _ & ->).
    eapply old_kept_put; eauto. right. by rewrite Hb.
  Qed.

Lemma k_memcpy_kept src dst n s s2 :
    K s -> (n0 <= dst)%nat -> k_memcpy src dst n s = Some s2 -> K s2.
  Proof.
    intros HK Hd. unfold k_memcpy.
    destruct (inodes s !! src) as [sn|]; [|by intros [= <-]].
    destruct (inodes s !! dst) as [dn|] eqn:Hdn; [|by intros [= <-]].
    destruct (i_body sn); try (by intros [= <-]).
    destruct (i_body dn) eqn:Hb; try (by intros [= <-]).
    destruct (_ && _); [|done]. intros [= <-].
    eapply old_kept_put; eauto. right. by rewrite Hb.
  Qed.

Lemma copy_metadata_inv src dest path srcst ts w :
    quiet w -> K (os w) -> (n0 <= dest)%nat ->
    inv_wp same_env no_unlink K (copy_metadata src dest path srcst ts) w (fun _ _ => True).
  Proof.
    intros Hq HK Hd. unfold copy_metadata, fchown, fchmod, alloc, utimens.
    apply inv_step_assert; [done|intros _].
    step_rw a1 s1 H1. apply k_fchown_kept in H1; [|done..]. split; [done|].
    eapply inv_seq with (Q := fun _ _ => True); [done| |].
    { destruct (negb (S_ISLNK (st_mode srcst))); [|by apply inv_ret].
      apply inv_call; [done|done|done|]. intros a2 s2 H2.
      apply k_fchmod_kept in H2; done. }
    intros [] w2 Hq2 HK2 _ _.
    step_ro a3 H3. step_ro a4 H4.
    destruct ts; [|by apply inv_ret].
    apply inv_call; [done|done|done|]. intros a5 s5 H5.
    apply k_utimens_kept in H5; done.
  Qed.

Lemma copy_file_contents_inv src dest path srcst w :
    quiet w -> K (os w) -> (n0 <= dest)%nat ->
    inv_wp same_env no_unlink K (copy_file_contents src dest path srcst) w (fun _ _ => True).
  Proof.
    intros Hq HK Hd. unfold copy_file_contents.
    apply inv_step_assert; [done|intros _].
    destruct (st_size srcst =? 0); [by apply inv_ret|].
    destruct ((st_size srcst <? 0) || (st_size srcst >? SSIZE_MAX));
      [by apply inv_FATAL|].
    unfold fallocate, mmap, memcpy, munmap, fstat.
    step_rw a1 s1 H1. apply k_fallocate_kept in H1; [|done..]. split; [done|].
    step_ro a2 H2. step_ro a3 H3.
    apply inv_step_act; [done|done|done|]. intros s4 H4.
    apply k_memcpy_kept in H4 as HK4; [|done..]. split; [done|].
    step_ro a5 H5. step_ro a6 H6. step_ro st H7.
    match goal with |- context [if ?b then _ else _] => destruct b end;
      [by apply inv_FATAL|by apply inv_ret].
  Qed.

Lemma k_env_kept (s s2 : OS) :
    inodes s2 = inodes s -> next_ino s2 = next_ino s -> K s -> K s2.
  Proof. apply old_kept_same. Qed.

Lemma k_openat_kept d name flags mode s i s2 :
    K s -> (d = conf \/ (n0 <= d)%nat) ->
    k_openat d name flags mode s = inr (i, s2) ->
    K s2 /\ ((n0 <= d)%nat -> (n0 <= i)%nat).
  Proof.
    intros HK Hd H. apply k_openat_inv in H as (es & Hes & [H|H]).
    - destruct H as (Hi & -> & _). split; [done|]. intros Hd'.
      by eapply old_kept_entry_fresh.
    - destruct H as (Hnone & _ & Hc).
      assert (i = next_ino s /\ s2 = snd (create_in d es name
                (fresh_inode s (apply_umask s mode) (Reg [])) s)) as [-> ->].
      { split; [exact (f_equal fst Hc)|exact (f_equal snd Hc)]. }
      split; [by eapply old_kept_create; eauto|].
      intros _. by eapply old_kept_next.
  Qed.

Lemma k_mkdirat_kept d name mode s a s2 :
    K s -> (d = conf \/ (n0 <= d)%nat) ->
    k_mkdirat d name mode s = inr (a, s2) -> K s2.
  Proof.
    intros HK Hd H. apply k_mkdirat_inv in H as (es & Hes & Hnone & ->).
    eapply old_kept_create; eauto.
  Qed.

Lemma k_symlinkat_kept target d name s a s2 :
    K s -> (d = conf \/ (n0 <= d)%nat) ->
    k_symlinkat target d name s = inr (a, s2) -> K s2.
  Proof.
    intros HK Hd H. apply k_symlinkat_inv in H as (es & Hes & Hnone & ->).
    eapply old_kept_create; eauto.
  Qed.

Lemma write_db_kept slot rs s :
    K s -> (n0 <= slot)%nat -> is_Some (read_db s slot) ->
    K (write_db slot rs s).
  Proof.
    intros HK Hs [recs Hr]. unfold read_db, reg_data in Hr.
    destruct (inodes s !! slot) as [nd|] eqn:Hnd; [|done].
    destruct (i_body nd) eqn:Hb; try done.
    unfold write_db. erewrite alter_as_insert by done.
    eapply old_kept_put; eauto. right. by rewrite Hb.
  Qed.

Lemma copy_nssdb_file_inv srcdir destdir name w :
    quiet w -> K (os w) -> (n0 <= destdir)%nat ->
    inv_wp same_env no_unlink K (copy_nssdb_file srcdir destdir name) w
      (fun _ _ => True).
  Proof.
    intros Hq HK Hd.
    unfold copy_nssdb_file, openat, fstat, fchown, fchmod, utimens, close.
    apply inv_bind_or_sleep; [assumption|].
    step_ro src H1. step_ro srcst H2.
    destruct (negb (S_ISREG (st_mode srcst))); [by apply inv_FATAL|].
    step_rw dest s3 H3.
    apply k_openat_kept in H3 as [HK3 Hdest]; [|done|by right].
    specialize (Hdest Hd). split; [done|].
    eapply inv_seq with (Q := fun _ _ => True); [done| |].
    { by apply copy_file_contents_inv. }
    intros _ w4 Hq4 HK4 _ _.
    apply inv_step_get; [done|].
    step_rw a5 s5 H5. apply k_fchown_kept in H5; [|done..]. split; [done|].
    step_rw a6 s6 H6. apply k_fchmod_kept in H6; [|done..]. split; [done|].
    step_rw a7 s7 H7. apply k_utimens_kept in H7; [|done..]. split; [done|].
    step_ro a8 H8. apply inv_last_ro; [done|done|done|auto with ro].
  Qed.

Lemma copy_nssdb_files_inv srcdir destdir w :
    quiet w -> K (os w) -> (n0 <= destdir)%nat ->
    inv_wp same_env no_unlink K (copy_nssdb_files srcdir destdir) w (fun _ _ => True).
  Proof.
    intros Hq HK Hd. unfold copy_nssdb_files.
    revert w Hq HK. induction nssdb_names as [|n l IH]; intros w Hq HK.
    - by apply inv_ret.
    - cbn [for_each]. eapply inv_seq with (Q := fun _ _ => True); [done| |].
      + by apply copy_nssdb_file_inv.
      + intros _ w1 Hq1 HK1 _ _. by apply IH.
  Qed.

Lemma set_effective_user_inv uid gid w :
    quiet w -> K (os w) ->
    inv_wp same_env no_unlink K (set_effective_user uid gid) w (fun _ _ => True).
  Proof.
    intros Hq HK. unfold set_effective_user.
    step_rw a1 s1 H1. injection H1 as _ <-.
    split; [by eapply k_env_kept; [..|exact HK]|].
    assert (HK1 : K (with_egid gid (os w))) by (by eapply k_env_kept; [..|exact HK]).
    step_rw a2 s2 H2. injection H2 as _ <-.
    assert (HK2 : K (with_euid uid (with_egid gid (os w))))
      by (by eapply k_env_kept; [..|exact HK1]).
    split; [done|].
    apply inv_step_get; [done|].
    match goal with |- context [if ?b then _ else _] => destruct b end;
      [by apply inv_FATAL|].
    apply inv_step_get; [done|].
    match goal with |- context [if ?b then _ else _] => destruct b end;
      [by apply inv_FATAL|by apply inv_ret].
  Qed.

Lemma k_NSS_InitReadWrite_inv s a s2 :
    k_NSS_InitReadWrite s = inr (a, s2) ->
    exists d es c, cwd s = Some d /\ dir_entries s d = Some es /\
      es !! "cert8.db" = Some c /\ is_Some (read_db s c) /\
      s2 = with_nss (Some c) s.
  Proof.
    unfold k_NSS_InitReadWrite. destruct (cwd s) as [d|]; [|done].
    destruct (dir_entries s d) as [es|] eqn:Hes; [|done].
    destruct (lookup_reg s es "cert8.db") as [c|] eqn:Hc; [|done].
    destruct (lookup_reg s es "key3.db"); [|done].
    destruct (lookup_reg s es "secmod.db"); [|done].
    destruct (reg_data s c ≫= db_decode) eqn:Hr; [|done].
    intros [= _ <-]. exists d, es, c.
    split; [done|]. split; [done|]. split; [|split; [|done]].
    - unfold lookup_reg in Hc. destruct (es !! "cert8.db") as [i|]; [|done].
      destruct (reg_data s i); [|done]. congruence.
    - unfold read_db. rewrite Hr. eauto.
  Qed.

Lemma init_libnss_inv dirfd w :
    quiet w -> K (os w) -> (n0 <= dirfd)%nat ->
    inv_wp same_env no_unlink K (init_libnss dirfd) w
      (fun slot w' => (n0 <= slot)%nat).
  Proof.
    intros Hq HK Hd. unfold init_libnss.
    step_rw a1 s1 H1.
    assert (s1 = with_cwd (Some dirfd) (os w)) as ->.
    { unfold k_fchdir in H1. destruct (is_dir (os w) dirfd); congruence. }
    assert (HK1 : K (with_cwd (Some dirfd) (os w)))
      by (by eapply k_env_kept; [..|exact HK]).
    split; [done|].
    step_rw a2 s2 H2.
    apply k_NSS_InitReadWrite_inv in H2 as (d & es & c & Hcwd & Hes & Hc & _ & ->).
    cbn [os step_world cwd with_cwd] in Hcwd. injection Hcwd as <-.
    assert (Hfresh : (n0 <= c)%nat) by (by eapply old_kept_entry_fresh).
    cbn [os step_world].
    assert (HK2 : K (with_nss (Some c) (with_cwd (Some dirfd) (os w))))
      by (by eapply k_env_kept; [..|exact HK1]).
    split; [done|].
    step_ro slot H3. cbn [os step_world] in H3.
    unfold k_PK11_GetInternalKeySlot in H3. cbn [nss with_nss] in H3.
    injection H3 as <-.
    apply inv_step_get; [done|].
    match goal with |- context [if ?b then _ else _] => destruct b end;
      [by apply inv_FATAL|by apply inv_ret].
  Qed.

Lemma new_certificate_inv w :
    quiet w -> K (os w) ->
    inv_wp same_env no_unlink K new_certificate w (fun _ _ => True).
  Proof.
    intros Hq HK. unfold new_certificate, alloc, open, fstat, close.
    apply inv_step_get; [done|].
    step_ro a1 H1. apply inv_bind_or_sleep; [assumption|].
    step_ro fd H2. step_ro st H3.
    match goal with |- context [if ?b then _ else _] => destruct b end;
      [by apply inv_FATAL|].
    step_ro a4 H4. step_ro pem H5.
    match goal with |- context [if ?b then _ else _] => destruct b end;
      [by apply inv_FATAL|].
    step_ro a6 H6. apply inv_last_ro; [done|done|done|auto with ro].
  Qed.

Lemma format_not_after_inv w :
    quiet w -> K (os w) ->
    inv_wp same_env no_unlink K format_not_after w (fun _ _ => True).
  Proof. intros. apply inv_last_ro; [done|done|done|auto with ro]. Qed.

Lemma k_Delete_kept slot c s a s2 :
    K s -> (n0 <= slot)%nat ->
    k_SEC_DeletePermCertificate slot c s = inr (a, s2) -> K s2.
  Proof.
    intros HK Hs. unfold k_SEC_DeletePermCertificate.
    destruct (read_db s slot) eqn:Hr; [|done].
    destruct (remove_first c l); [|done]. intros [= _ <-].
    apply write_db_kept; eauto.
  Qed.

Lemma k_Import_kept slot cert nick s a s2 :
    K s -> (n0 <= slot)%nat ->
    k_PK11_ImportCert slot cert nick s = inr (a, s2) -> K s2.
  Proof.
    intros HK Hs. unfold k_PK11_ImportCert.
    destruct (read_db s slot) eqn:Hr; [|done]. intros [= _ <-].
    apply write_db_kept; eauto.
  Qed.

Lemma remove_old_certs_loop_inv slot nodes deleted w :
    quiet w -> K (os w) -> (n0 <= slot)%nat ->
    inv_wp same_env no_unlink K (remove_old_certs_loop slot nodes deleted) w
      (fun _ _ => True).
  Proof.
    intros Hq HK Hs. revert deleted w Hq HK.
    induction nodes as [|node rest IH]; intros deleted w Hq HK.
    - by apply inv_ret.
    - cbn [remove_old_certs_loop].
      apply inv_step_get; [done|].
      eapply inv_seq with (Q := fun _ _ => True); [done| |].
      { destruct (_ =? _); [by apply format_not_after_inv|by apply inv_ret]. }
      intros _ w1 Hq1 HK1 _ _.
      apply inv_step_get; [done|].
      destruct (negb _); [by apply IH|].
      apply inv_step_sys; [done|done|done| |].
      + intros e _. unfold format_not_after.
        apply inv_step_ro; [done|done|done|auto with ro|intros _ _].
        by apply inv_FATAL.
      + intros a s2 H2. apply k_Delete_kept in H2; [|done..].
        split; [done|]. by apply IH.
  Qed.

Lemma remove_old_certs_inv slot w :
    quiet w -> K (os w) -> (n0 <= slot)%nat ->
    inv_wp same_env no_unlink K (remove_old_certs slot) w (fun _ _ => True).
  Proof.
    intros Hq HK Hs. unfold remove_old_certs.
    step_ro lst H1.
    eapply inv_seq with (Q := fun _ _ => True); [done| |].
    - by apply remove_old_certs_loop_inv.
    - intros _ w1 Hq1 HK1 _ _. by apply inv_ret.
  Qed.

Lemma add_new_cert_inv slot cert w :
    quiet w -> K (os w) -> (n0 <= slot)%nat ->
    inv_wp same_env no_unlink K (add_new_cert slot cert) w (fun _ _ => True).
  Proof.
    intros Hq HK Hs. unfold add_new_cert.
    apply inv_step_get; [done|].
    step_rw a1 s1 H1. apply k_Import_kept in H1; [|done..]. split; [done|].
    by apply format_not_after_inv.
  Qed.

Lemma shutdown_libnss_inv slot w :
    quiet w -> K (os w) ->
    inv_wp same_env no_unlink K (shutdown_libnss slot) w (fun _ _ => True).
  Proof.
    intros Hq HK. unfold shutdown_libnss.
    step_rw a1 s1 H1.
    assert (s1 = with_nss None (os w)) as ->.
    { unfold k_NSS_Shutdown in H1. destruct (nss (os w)); congruence. }
    assert (HK1 : K (with_nss None (os w)))
      by (by eapply k_env_kept; [..|exact HK]).
    split; [done|]. apply inv_last_ro; [done|done|done|auto with ro].
  Qed.

  (** The link made by [create_symlink] is a new inode, entered under
      [name], with the target it was given. *)
Lemma create_symlink_inv dirfd target name dbdir_name path w :
    quiet w -> K (os w) -> (dirfd = conf \/ (n0 <= dirfd)%nat) ->
    inv_wp same_env no_unlink K (create_symlink dirfd target name dbdir_name path) w
      (fun fd w' => (n0 <= fd)%nat /\
         map (fun e => (e_call e, e_ok e)) (log w') =
           [(EvReadlinkat fd, true); (EvAlloc, true); (EvFstat fd, true);
            (EvOpenat dirfd name (O_RDONLY .| O_NOFOLLOW .| O_PATH), true);
            (EvSymlinkat target dirfd name, true)]
           ++ map (fun e => (e_call e, e_ok e)) (log w) /\
         (exists es, dir_entries (os w') dirfd = Some es
                     /\ es !! name = Some fd) /\
         exists nd, inodes (os w') !! fd = Some nd /\ i_body nd = Lnk target
                    /\ i_uid nd = euid (os w) /\ i_gid nd = egid (os w)).
  Proof.
    intros Hq HK Hd.
    unfold create_symlink, symlinkat, openat, fstat, alloc, readlinkat.
    apply inv_step_assert; [done|intros _].
    step_rw a1 s1 H1.
    pose proof (k_symlinkat_kept _ _ _ _ _ _ HK Hd H1) as HK1.
    split; [done|].
    apply k_symlinkat_inv in H1 as (es & Hes & Hnone & Hs1).
    pose proof (old_kept_wf _ _ _ _ HK) as Hwf.
    assert (Hes1 : dir_entries s1 dirfd = Some (<[name := next_ino (os w)]> es)).
    { rewrite Hs1. by apply dir_entries_create_eq. }
    assert (Hnd1 : inodes s1 !! next_ino (os w)
                   = Some (fresh_inode (os w) 0x1FF (Lnk target))).
    { rewrite Hs1, create_in_inodes. rewrite decide_False.
      - by rewrite lookup_insert_eq.
      - apply dir_entries_Some in Hes as (? & Hx & _).
        pose proof (wf_os_fresh _ Hwf). congruence. }
    step_ro fd H2. cbn [os step_world] in H2.
    apply k_openat_inv in H2 as (es1 & Hes1' & [H2|H2]);
      [|by destruct H2 as (_ & ? & _)].
    destruct H2 as (Hfd & _). rewrite Hes1 in Hes1'. injection Hes1' as <-.
    rewrite lookup_insert_eq in Hfd. injection Hfd as <-.
    step_ro st H3.
    destruct (negb (S_ISLNK (st_mode st))); [by apply inv_FATAL|].
    destruct (_ || _); [by apply inv_FATAL|].
    destruct (negb (_ =? _)); [by apply inv_FATAL|].
    step_ro a4 H4. step_ro new_target H5.
    destruct (memcmp_differs _ _ _); [by apply inv_FATAL|].
    apply inv_ret; [done|]. cbn [os step_world log].
    split; [by eapply old_kept_next|]. split; [done|].
    split.
    - exists (<[name := next_ino (os w)]> es).
      split; [done|]. by rewrite lookup_insert_eq.
    - eexists. split; [exact Hnd1|]. done.
  Qed.

Lemma copy_file_inv srcpfd destdir name path srcst w :
    quiet w -> K (os w) -> (n0 <= destdir)%nat ->
    inv_wp same_env no_unlink K (copy_file srcpfd destdir name path srcst) w
      (fun _ _ => True).
  Proof.
    intros Hq HK Hd. unfold copy_file, openat, close.
    apply inv_step_assert; [done|intros _].
    eapply inv_seq; [done|by apply copy_fd_inv|].
    intros src w1 Hq1 HK1 _ _.
    assert (Htail : forall (p : ino * bool) w2,
      quiet w2 -> K (os w2) -> (n0 <= p.1)%nat ->
      inv_wp same_env no_unlink K
        (let '(dest, copy_timestamps) := p in
         copy_metadata src dest path srcst copy_timestamps ;;
         call (EvClose src) k_ok "Failed to close file: %s/%s%s: %m" ;;
         call (EvClose dest) k_ok "Failed to close file: %s/%s%s: %m")
        w2 (fun _ _ => True)).
    { intros [dest ts] w2 Hq2 HK2 Hdest. cbn [fst] in Hdest.
      eapply inv_seq with (Q := fun _ _ => True); [done| |].
      + by apply copy_metadata_inv.
      + intros _ w3 Hq3 HK3 _ _. step_ro a4 H4.
        apply inv_last_ro; [done|done|done|auto with ro]. }
    apply inv_step_sys; [done|done|done| |].
    - intros e _.
      eapply inv_seq with (Q := fun p _ => (n0 <= p.1)%nat); [done| |].
      + destruct (negb _); [by apply inv_FATAL|].
        apply inv_bind_or_sleep; [assumption|].
        step_rw dest s2 H2. cbn [os step_world] in H2.
        apply k_openat_kept in H2 as [HK2 Hdest]; [|done|by right].
        split; [done|]. apply inv_ret; [done|]. by apply Hdest.
      + intros p w4 Hq4 HK4 _ Hp. by apply Htail.
    - intros dest s2 H2.
      apply k_openat_kept in H2 as [HK2 Hdest]; [|done|by right].
      split; [done|].
      eapply inv_seq with (Q := fun p _ => (n0 <= p.1)%nat); [done| |].
      + eapply inv_seq with (Q := fun _ _ => True); [done| |].
        * apply copy_file_contents_inv; [done|done|by apply Hdest].
        * intros _ w3 Hq3 HK3 _ _. apply inv_ret; [done|]. by apply Hdest.
      + intros p w4 Hq4 HK4 _ Hp. by apply Htail.
  Qed.

Lemma copy_link_inv src destdir name path srcst w :
    quiet w -> K (os w) -> (n0 <= destdir)%nat ->
    inv_wp same_env no_unlink K (copy_link src destdir name path srcst) w
      (fun _ _ => True).
  Proof.
    intros Hq HK Hd. unfold copy_link, alloc, readlinkat, close.
    apply inv_step_assert; [done|intros _].
    destruct (_ || _); [by apply inv_FATAL|].
    step_ro a1 H1. step_ro target H2.
    apply inv_step_get; [done|].
    eapply inv_seq; [done| |].
    - apply create_symlink_inv; [done|done|by right].
    - intros dest w1 Hq1 HK1 _ (Hdest & _).
      eapply inv_seq with (Q := fun _ _ => True); [done| |].
      + by apply copy_metadata_inv.
      + intros _ w3 Hq3 HK3 _ _.
        apply inv_last_ro; [done|done|done|auto with ro].
  Qed.

Section Rec.
Variable rec : ino -> ino -> string -> M unit.
Hypothesis rec_inv : forall srcdir destdir subdir w,
      quiet w -> K (os w) -> (n0 <= destdir)%nat ->
      inv_wp same_env no_unlink K (rec srcdir destdir subdir) w (fun _ _ => True).

Lemma copy_subdir_inv srcpfd destdir name path srcst w :
      quiet w -> K (os w) -> (n0 <= destdir)%nat ->
      inv_wp same_env no_unlink K (copy_subdir rec srcpfd destdir name path srcst) w
        (fun _ _ => True).
    Proof.
      intros Hq HK Hd. unfold copy_subdir, mkdirat, openat, close.
      apply inv_step_assert; [done|intros _].
      eapply inv_seq; [done|by apply copy_fd_inv|].
      intros src w1 Hq1 HK1 _ _.
      step_rw a2 s2 H2.
      apply k_mkdirat_kept in H2; [|done|by right]. split; [done|].
      step_rw dest s3 H3. cbn [os step_world] in H3.
      apply k_openat_kept in H3 as [HK3 Hdest]; [|done|by right].
      specialize (Hdest Hd). split; [done|].
      eapply inv_seq with (Q := fun _ _ => True); [done| |].
      { by apply rec_inv. }
      intros _ w4 Hq4 HK4 _ _.
      eapply inv_seq with (Q := fun _ _ => True); [done| |].
      { by apply copy_metadata_inv. }
      intros _ w5 Hq5 HK5 _ _. step_ro a6 H6.
      apply inv_last_ro; [done|done|done|auto with ro].
    Qed.

Lemma copy_entry_inv srcdir destdir subdir d_name w :
      quiet w -> K (os w) -> (n0 <= destdir)%nat ->
      inv_wp same_env no_unlink K (copy_entry rec srcdir destdir subdir d_name) w
        (fun _ _ => True).
    Proof.
      intros Hq HK Hd. unfold copy_entry, alloc, openat, fstat, close.
      step_ro a1 H1. step_ro src H2. step_ro st H3.
      eapply inv_seq with (Q := fun _ _ => True); [done| |].
      - destruct (_ =? _); [by apply copy_file_inv|].
        destruct (_ =? _); [by apply copy_link_inv|].
        destruct (_ =? _); [by apply copy_subdir_inv|].
        by apply inv_FATAL.
      - intros _ w4 Hq4 HK4 _ _.
        apply inv_last_ro; [done|done|done|auto with ro].
    Qed.
End Rec.

Lemma copy_dir_contents_inv fuel srcdir destdir subdir w :
    quiet w -> K (os w) -> (n0 <= destdir)%nat ->
    inv_wp same_env no_unlink K (copy_dir_contents fuel srcdir destdir subdir) w
      (fun _ _ => True).
  Proof.
    revert srcdir destdir subdir w.
    induction fuel as [|fuel IH]; intros srcdir destdir subdir w Hq HK Hd.
    - by apply inv_nofuel.
    - cbn [copy_dir_contents]. unfold fdopendir, closedir.
      apply inv_step_assert; [done|intros _].
      eapply inv_seq; [done|by apply copy_fd_inv|].
      intros dirfd w1 Hq1 HK1 _ _.
      step_ro names H2.
      eapply inv_seq with (Q := fun _ _ => True); [done| |].
      + apply readdir_loop_inv; [done| |done|done].
        intros d_name w3 Hq3 HK3. by apply copy_entry_inv.
      + intros _ w3 Hq3 HK3 _ _.
        apply inv_last_ro; [done|done|done|auto with ro].
  Qed.

Lemma copy_nssdb_dir_inv fuel srcdir destdir w :
    quiet w -> K (os w) -> (n0 <= destdir)%nat ->
    inv_wp same_env no_unlink K (copy_nssdb_dir fuel srcdir destdir) w
      (fun _ _ => True).
  Proof.
    intros Hq HK Hd. unfold copy_nssdb_dir, fstat.
    eapply inv_seq with (Q := fun _ _ => True); [done| |].
    { by apply copy_dir_contents_inv. }
    intros _ w1 Hq1 HK1 _ _. step_ro srcst H1.
    by apply copy_metadata_inv.
  Qed.
End PhaseA.

Lemma dir_entries_set_entries s d es es' i :
  dir_entries s d = Some es ->
  dir_entries (set_entries d es' s) i
  = if decide (i = d) then Some es' else dir_entries s i.
Proof.
  intros Hes. apply dir_entries_Some in Hes as (nd & Hnd & Hb).
  unfold dir_entries, set_entries. cbn [inodes with_inodes].
  rewrite lookup_alter. case_decide as Hi.
  - subst i. rewrite decide_True by done. by rewrite Hnd.
  - by rewrite decide_False by congruence.
Qed.

Lemma inodes_set_entries_ne s d es' i :
  i <> d -> inodes (set_entries d es' s) !! i = inodes s !! i.
Proof.
  intros Hi. unfold set_entries. cbn [inodes with_inodes].
  rewrite lookup_alter. by rewrite decide_False by congruence.
Qed.

Lemma is_dir_set_entries s d es es' i :
  dir_entries s d = Some es ->
  is_dir s i = true -> is_dir (set_entries d es' s) i = true.
Proof.
  intros Hes Hi. apply is_dir_true in Hi as [esi Hesi]. apply is_dir_true.
  erewrite dir_entries_set_entries by done. case_decide; eauto.
Qed.

Lemma new_live_alias s0 conf newname s :
  new_live s0 conf newname s -> alias_to s conf newname.
Proof.
  intros (_ & _ & es & L & D & nd & Hes & HL & _ & Hnd & Hb & HD & _ & Hd).
  split.
  - unfold alias_target. by rewrite Hes, HL, Hnd, Hb.
  - eauto.
Qed.

(** Taking names out of an old directory. *)
Lemma new_live_shrink_old s0 conf newname s d es es' :
  new_live s0 conf newname s -> (d < next_ino s0)%nat -> d <> conf ->
  dir_entries s d = Some es ->
  (forall name j, es' !! name = Some j -> es !! name = Some j) ->
  new_live s0 conf newname (set_entries d es' s).
Proof.
  intros (Hc & Hcl & esc & L & D & nd & Hes & HL & HLn & Hnd & Hb & HD & HDn & Hd)
    Hdn Hdc Hesd Hsub.
  split; [done|]. split.
  - intros i esi name j Hi Hic Hesi Hj.
    erewrite dir_entries_set_entries in Hesi by done.
    case_decide.
    + subst i. injection Hesi as <-. eapply (Hcl d es); eauto.
    + eapply (Hcl i esi); eauto.
  - exists esc, L, D, nd.
    split; [erewrite dir_entries_set_entries by done;
            by rewrite decide_False by done|].
    split; [done|]. split; [done|].
    split; [rewrite inodes_set_entries_ne by lia; done|].
    split; [done|]. split; [done|]. split; [done|].
    by eapply is_dir_set_entries.
Qed.

(** Taking a name other than the alias and the new generation out of
    [conf]. *)
Lemma new_live_shrink_conf s0 conf newname s es name :
  new_live s0 conf newname s -> dir_entries s conf = Some es ->
  name <> "alias" -> name <> newname ->
  new_live s0 conf newname (set_entries conf (delete name es) s).
Proof.
  intros (Hc & Hcl & esc & L & D & nd & Hes & HL & HLn & Hnd & Hb & HD & HDn & Hd)
    Hes' Hn1 Hn2.
  rewrite Hes in Hes'. injection Hes' as <-.
  split; [done|]. split.
  - intros i esi n j Hi Hic Hesi Hj.
    erewrite dir_entries_set_entries in Hesi by done.
    rewrite decide_False in Hesi by done. eapply (Hcl i esi); eauto.
  - exists (delete name esc), L, D, nd.
    split; [erewrite dir_entries_set_entries by done;
            by rewrite decide_True by done|].
    split; [by rewrite lookup_delete_ne|]. split; [done|].
    split; [rewrite inodes_set_entries_ne by lia; done|].
    split; [done|]. split; [by rewrite lookup_delete_ne|]. split; [done|].
    by eapply is_dir_set_entries.
Qed.

Lemma new_live_same s0 conf newname s s' :
  inodes s' = inodes s ->
  new_live s0 conf newname s -> new_live s0 conf newname s'.
Proof.
  intros Hi. unfold new_live, old_closed, is_dir, dir_entries.
  by rewrite Hi.
Qed.

Lemma k_unlinkat_inv d name flags s a s2 :
  k_unlinkat d name flags s = inr (a, s2) ->
  exists es i, dir_entries s d = Some es /\ es !! name = Some i /\
    s2 = set_entries d (delete name es) s.
Proof.
  unfold k_unlinkat. destruct (dir_entries s d) as [es|] eqn:Hes; [|done].
  destruct (es !! name) as [i|] eqn:Hi; [|done].
  intros H. exists es, i. split; [done|]. split; [done|].
  destruct (has_flag flags AT_REMOVEDIR).
  - destruct (is_empty_dir s i); [congruence|].
    destruct (is_dir s i); done.
  - destruct (is_dir s i); [done|congruence].
Qed.

Section PhaseB.
Variables (s0 : OS) (conf : ino) (newname : string).

Local Abbreviation B := (new_live s0 conf newname).
Local Abbreviation n0 := (next_ino s0).

Lemma k_unlinkat_old_kept d name flags s a s2 :
    B s -> (d < n0)%nat -> d <> conf ->
    k_unlinkat d name flags s = inr (a, s2) -> B s2.
  Proof.
    intros HB Hd Hdc H. apply k_unlinkat_inv in H as (es & i & Hes & Hi & ->).
    eapply new_live_shrink_old; eauto.
    intros n j Hj. apply lookup_delete_Some in Hj. tauto.
  Qed.

Lemma copy_fd_live orig flags w :
    quiet w -> B (os w) ->
    inv_wp same_env any_call B (copy_fd orig flags) w
      (fun fd w' => fd = orig).
  Proof.
    intros Hq HB. unfold copy_fd, alloc.
    step_ro a1 H1. cbv zeta.
    destruct (one_way flags); [apply inv_or_sleep; [assumption|]|];
    (apply inv_call_ro; [done|assumption|done|auto with ro|];
     intros fd H2; by apply k_reopen_inv in H2 as (_ & -> & _)).
  Qed.

Section Rec.
Variable rec : ino -> string -> M unit.
Hypothesis rec_inv : forall dirfd subdir w,
      quiet w -> B (os w) -> (dirfd < n0)%nat -> dirfd <> conf ->
      inv_wp same_env any_call B (rec dirfd subdir) w (fun _ _ => True).

Lemma delete_entry_inv dirfd subdir d_name w :
      quiet w -> B (os w) -> (dirfd < n0)%nat -> dirfd <> conf ->
      inv_wp same_env any_call B (delete_entry rec dirfd subdir d_name) w
        (fun _ _ => True).
    Proof.
      intros Hq HB Hd Hdc. unfold delete_entry, alloc, openat, fstat, unlinkat, close.
      step_ro a1 H1. step_ro fd H2. cbn [os step_world] in H2.
      apply k_openat_inv in H2 as (es & Hes & [H2|H2]);
        [|by destruct H2 as (_ & ? & _)].
      destruct H2 as (Hfd & _).
      destruct HB as (Hc & Hcl & Hrest).
      destruct (Hcl dirfd es d_name fd Hd Hdc Hes Hfd) as [Hfdn Hfdc].
      assert (HB : B (os w)) by done.
      step_ro st H3.
      eapply inv_seq with (Q := fun _ _ => True); [done| |].
      - destruct (S_ISDIR (st_mode st)); [|by apply inv_ret].
        eapply inv_seq with (Q := fun _ _ => True); [done| |].
        + by apply rec_inv.
        + intros _ w1 Hq1 HB1 _ _. by apply inv_ret.
      - intros flags w1 Hq1 HB1 _ _.
        step_rw a4 s4 H4. apply k_unlinkat_old_kept in H4; [|done..].
        split; [done|]. apply inv_last_ro; [done|done|done|auto with ro].
    Qed.
End Rec.

Lemma delete_dir_contents_inv fuel dirfd subdir w :
    quiet w -> B (os w) -> (dirfd < n0)%nat -> dirfd <> conf ->
    inv_wp same_env any_call B (delete_dir_contents fuel dirfd subdir) w
      (fun _ _ => True).
  Proof.
    revert dirfd subdir w.
    induction fuel as [|fuel IH]; intros dirfd subdir w Hq HB Hd Hdc.
    - by apply inv_nofuel.
    - cbn [delete_dir_contents]. unfold fdopendir, closedir.
      apply inv_step_assert; [done|intros _].
      eapply inv_seq; [done|by apply copy_fd_live|].
      intros fd w1 Hq1 HB1 _ _.
      step_ro names H2.
      eapply inv_seq with (Q := fun _ _ => True); [done| |].
      + apply readdir_loop_inv; [done| |done|done].
        intros d_name w3 Hq3 HB3. by apply delete_entry_inv.
      + intros _ w3 Hq3 HB3 _ _.
        apply inv_last_ro; [done|done|done|auto with ro].
  Qed.

  (** The Reaper: when it returns, the name of the old generation is gone
      from [conf]. *)
Lemma delete_old_nssdb_dir_inv fuel old_fd w :
    quiet w -> B (os w) -> (old_fd < n0)%nat -> old_fd <> conf ->
    old_dbdir_name w <> "alias" -> old_dbdir_name w <> newname ->
    inv_wp same_env any_call B (delete_old_nssdb_dir fuel conf old_fd) w
      (fun _ w' => exists es, dir_entries (os w') conf = Some es
                              /\ es !! old_dbdir_name w = None).
  Proof.
    intros Hq HB Hd Hdc Hn1 Hn2. unfold delete_old_nssdb_dir, unlinkat.
    eapply inv_seq with (Q := fun _ _ => True); [done| |].
    { by apply delete_dir_contents_inv. }
    intros _ w1 Hq1 HB1 Henv _.
    apply inv_step_get; [done|].
    assert (Hname : old_dbdir_name w1 = old_dbdir_name w) by apply Henv.
    rewrite Hname.
    apply inv_call; [done|done|done|]. intros a s2 H2.
    apply k_unlinkat_inv in H2 as (es & i & Hes & Hi & ->).
    split.
    - by apply new_live_shrink_conf.
    - exists (delete (old_dbdir_name w) es). cbn [os step_world].
      split; [|by rewrite lookup_delete_eq].
      erewrite dir_entries_set_entries by done. by rewrite decide_True.
  Qed.
End PhaseB.

Lemma substring_0_ge n s :
  (String.length s <= n)%nat -> String.substring 0 n s = s.
Proof.
  revert n. induction s as [|a s IH]; intros [|n] H; simpl in *;
    try done; try lia.
  rewrite IH by lia. done.
Qed.

Lemma open_existing_directory flags i nd j :
  has_flag flags O_DIRECTORY = true -> has_flag flags O_PATH = false ->
  open_existing flags i nd = inr j -> exists es, i_body nd = Dir es.
Proof.
  intros Hd Hp. unfold open_existing. rewrite Hd, Hp.
  destruct (i_body nd); try done; eauto.
  by rewrite andb_false_r.
Qed.

Section Steps.
Context {E0 E' : World -> World -> Prop} `{!EnvRel E0} `{!EnvRel E'}
    {A : event -> bool}.

  (** A function that keeps [P], in the middle of a run that has kept the
      weaker [P0] so far. *)
Lemma wp_stepA {T U} (P0 P : OS -> Prop) (m : M T) (k : T -> M U) w0 w Q
      (Qf : U -> World -> Prop) (Ef : World -> Prop) :
    (forall a b, E' a b -> E0 a b) -> (forall s, P s -> P0 s) ->
    run_in E0 A P0 w0 w ->
    inv_wp E' A P m w Q ->
    (forall w', run_in E0 A P0 w0 w' -> Ef w') ->
    (forall a w1, run_in E0 A P0 w0 w1 -> E' w w1 -> P (os w1) -> Q a w1 ->
       wp (k a) w1 Qf Ef) ->
    wp (bind m k) w Qf Ef.
  Proof.
    intros HE HP Hr Hm HEf Hk. apply wp_bind.
    assert (Hw : forall w1, run_in E' A P w w1 -> run_in E0 A P0 w0 w1).
    { intros w1 Hr1. eapply run_in_trans; [exact Hr|].
      eapply run_in_weaken; [exact HE| |exact HP|exact Hr1]. auto. }
    eapply wp_mono; [exact Hm| |].
    - intros a w1 [Hr1 HQ]. apply Hk; [by apply Hw|apply Hr1| |done].
      by eapply run_in_P.
    - intros w' Hr1. apply HEf. by apply Hw.
  Qed.
End Steps.

Section Rules2.
Context {E : World -> World -> Prop} `{!EnvRel E} {A : event -> bool}.

  (** A call that only reads, whose result is used whether it fails or
      not. *)
Lemma inv_step_sys_ro {T U} (P : OS -> Prop) ev (op : kcall T)
      (k : errno + T -> M U) w R :
    quiet w -> P (os w) -> A ev = true -> read_only op ->
    (forall r ok, inv_wp E A P (k r) (step_world ev ok (os w) w) R) ->
    inv_wp E A P (bind (sys ev op) k) w R.
  Proof.
    intros Hq HP Hev Hro Hk. apply inv_step_sys; [done|done|done| |].
    - intros e _. apply Hk.
    - intros a s2 H. pose proof (Hro _ _ _ H). subst s2. split; [done|].
      apply Hk.
  Qed.
End Rules2.

Section Prefix.
Variables (s0 : OS) (conf : ino).

Local Abbreviation K := (old_kept s0 conf ∅).
Local Abbreviation n0 := (next_ino s0).

  (** [old_nssdb_dir] changes nothing; it returns the directory that the
      alias names and what [fstat] says of the alias. *)
Lemma old_nssdb_dir_spec w :
    quiet w -> K (os w) ->
    inv_wp same_cfg no_unlink K (old_nssdb_dir conf) w
      (fun p w' => os w' = os w /\
         exists es a nd tg,
           dir_entries (os w) conf = Some es /\ es !! "alias" = Some a /\
           inodes (os w) !! a = Some nd /\ i_body nd = Lnk tg /\
           p.2 = stat_of nd /\ old_dbdir_name w' = tg /\
           es !! tg = Some p.1 /\ is_dir (os w) p.1 = true).
  Proof.
    intros Hq HK. unfold old_nssdb_dir, openat, fstat, alloc, close.
    step_ro fd H1.
    apply k_openat_inv in H1 as (es & Hes & [H1|H1]);
      [|by destruct H1 as (_ & ? & _)].
    destruct H1 as (Hfd & _).
    step_ro linkst H2. cbn [os step_world] in H2.
    apply k_fstat_inv in H2 as (_ & nd & Hnd & Hst).
    destruct (negb (S_ISLNK (st_mode linkst))); [by apply inv_FATAL|].
    destruct (st_size linkst >? NSSDB_DIR_PTN_LEN) eqn:Hsz;
      [by apply inv_FATAL|].
    apply inv_step_put; [done|by repeat split|done|done|].
    apply inv_step_sys; [done|done|done| |].
    { intros e _. by apply inv_FATAL. }
    intros t s2 H3. cbn [os step_world with_old_dbdir_name] in H3.
    apply k_readlinkat_inv in H3 as (-> & nd' & tg & Hnd' & Hb & Ht).
    rewrite Hnd in Hnd'. injection Hnd' as <-.
    split; [done|].
    assert (t = tg) as ->.
    { rewrite Ht. apply substring_0_ge.
      rewrite Hst in Hsz. unfold stat_of in Hsz. cbn [st_size] in Hsz.
      rewrite Hb in Hsz. cbn [size_of] in Hsz. lia. }
    apply inv_step_put; [done|by repeat split|done|done|].
    destruct (memchr slash tg); [by apply inv_FATAL|].
    step_ro a4 H4. step_ro a5 H5. step_ro old H6.
    cbn [os step_world with_old_dbdir_name] in H6.
    apply k_openat_inv in H6 as (es' & Hes' & [H6|H6]);
      [|by destruct H6 as (_ & ? & _)].
    rewrite Hes in Hes'. injection Hes' as <-.
    destruct H6 as (Hold & _ & _ & ndo & Hndo & Hopen).
    apply open_existing_directory in Hopen as [eso Hbo]; [|done..].
    apply inv_ret; [done|]. split; [done|].
    exists es, fd, nd, tg. cbn [fst snd old_dbdir_name step_world
      with_old_dbdir_name os].
    repeat split; try done.
    apply is_dir_true. exists eso. apply dir_entries_Some. eauto.
  Qed.

  (** [new_nssdb_dir] returns a new directory, entered in [conf] under the
      new name, which starts with the fixed prefix and was not a name of
      [conf] before. *)
Lemma new_nssdb_dir_spec w :
    quiet w -> K (os w) ->
    inv_wp same_cfg no_unlink K (new_nssdb_dir conf) w
      (fun dirfd w' =>
         old_dbdir_name w' = old_dbdir_name w /\ (n0 <= dirfd)%nat /\
         (exists ts, new_dbdir_name w' = (NSSDB_DIR_PREFIX ++ ts)%string) /\
         (exists es, dir_entries (os w) conf = Some es
                     /\ es !! new_dbdir_name w' = None) /\
         exists es, dir_entries (os w') conf = Some es /\
           es !! new_dbdir_name w' = Some dirfd /\
           is_dir (os w') dirfd = true).
  Proof.
    intros Hq HK. unfold new_nssdb_dir, mkdirat, openat, fchown.
    apply inv_step_sys_ro; [done|done|done|auto with ro|]. intros r ok.
    cbv zeta. destruct (gmtime _) as [tm|]; [|by apply inv_kill].
    destruct (_ >? _); [by apply inv_FATAL|].
    apply inv_step_put; [done|by repeat split|done|done|].
    destruct (strftime _ _) as [n ts].
    destruct (negb _); [by apply inv_FATAL|].
    apply inv_step_put; [done|by repeat split|done|done|].
    set (name := (NSSDB_DIR_PREFIX ++ ts)%string).
    step_rw a1 s1 H1.
    cbn [os step_world with_new_dbdir_name] in H1.
    pose proof (k_mkdirat_kept _ _ _ _ _ _ _ _ _ HK (or_introl eq_refl) H1)
      as HK1.
    split; [done|].
    apply k_mkdirat_inv in H1 as (es & Hes & Hnone & Hs1).
    pose proof (old_kept_wf _ _ _ _ HK) as Hwf.
    assert (Hes1 : dir_entries s1 conf = Some (<[name := next_ino (os w)]> es)).
    { rewrite Hs1. by apply dir_entries_create_eq. }
    assert (Hcn : conf <> next_ino (os w)).
    { apply dir_entries_Some in Hes as (? & Hx & _).
      pose proof (wf_os_fresh _ Hwf). congruence. }
    assert (Hnd1 : exists nd, inodes s1 !! next_ino (os w) = Some nd
                              /\ i_body nd = Dir ∅).
    { rewrite Hs1, create_in_inodes. rewrite decide_False by done.
      rewrite lookup_insert_eq. eauto. }
    destruct Hnd1 as (nd1 & Hnd1 & Hb1).
    step_ro dirfd H2. cbn [os step_world] in H2.
    apply k_openat_inv in H2 as (es1 & Hes1' & [H2|H2]);
      [|by destruct H2 as (_ & ? & _)].
    destruct H2 as (Hfd & _). rewrite Hes1 in Hes1'. injection Hes1' as <-.
    rewrite lookup_insert_eq in Hfd. injection Hfd as <-.
    apply inv_step_get; [done|].
    assert (Hfresh : (n0 <= next_ino (os w))%nat) by (by eapply old_kept_next).
    step_rw a3 s3 H3.
    cbn [os step_world] in H3.
    pose proof H3 as H3'. apply k_fchown_inv in H3' as (nd & Hnd & ->).
    match goal with |- ?G /\ _ => assert (HK3 : G) end.
    { eapply old_kept_put; eauto. }
    split; [done|]. apply inv_ret; [done|].
    cbn [os step_world old_dbdir_name new_dbdir_name with_new_dbdir_name].
    split; [done|]. split; [done|]. split; [by exists ts|].
    split; [by exists es|].
    exists (<[name := next_ino (os w)]> es).
    split; [|split; [by rewrite lookup_insert_eq|]].
    - rewrite dir_entries_put_ne by done. done.
    - rewrite Hnd1 in Hnd. injection Hnd as <-.
      apply is_dir_true. exists ∅. rewrite dir_entries_put_eq.
      cbn [i_body set_owner]. 
      destruct nd1; cbn in *. by subst.
  Qed.
End Prefix.

Lemma prefix_not_alias ts : (NSSDB_DIR_PREFIX ++ ts)%string <> "alias".
Proof. done. Qed.

Lemma prefix_not_alias_new ts : (NSSDB_DIR_PREFIX ++ ts)%string <> "alias.new".
Proof. done. Qed.

Lemma alias_target_Some s conf t :
  alias_target s conf = Some t <->
  exists es a nd, dir_entries s conf = Some es /\ es !! "alias" = Some a /\
    inodes s !! a = Some nd /\ i_body nd = Lnk t.
Proof.
  unfold alias_target. split.
  - destruct (dir_entries s conf) as [es|]; [|done].
    destruct (es !! "alias") as [a|] eqn:Ha; [|done].
    destruct (inodes s !! a) as [nd|] eqn:Hnd; [|done].
    destruct (i_body nd) eqn:Hb; try done. intros [= <-]. eauto 10.
  - intros (es & a & nd & -> & -> & -> & ->). done.
Qed.

Lemma old_kept_alias_target s0 conf pin s t :
  wf_os s0 -> alias_target s0 conf = Some t -> old_kept s0 conf pin s ->
  alias_target s conf = Some t.
Proof.
  intros Hwf Ht HK. apply alias_target_Some in Ht as (es0 & a & nd & Hes0 & Ha & Hnd & Hb).
  destruct (old_kept_conf _ _ _ _ _ HK Hes0) as (es & Hes & Hsub & _).
  apply alias_target_Some. exists es, a, nd.
  split; [done|]. split; [by apply Hsub|]. split; [|done].
  assert (a < next_ino s0)%nat by (apply Hwf; eauto).
  assert (a <> conf).
  { intros ->. apply dir_entries_Some in Hes0 as (nd' & Hnd' & Hb').
    rewrite Hnd in Hnd'. injection Hnd' as <-. congruence. }
  erewrite old_kept_old; eauto.
Qed.

Lemma old_kept_is_dir s0 conf pin s i :
  old_kept s0 conf pin s -> is_dir s0 conf = true ->
  (i < next_ino s0)%nat -> is_dir s0 i = true -> is_dir s i = true.
Proof.
  intros HK Hc Hi Hd. destruct (decide (i = conf)) as [->|Hne].
  - apply is_dir_true in Hc as [es0 Hes0].
    destruct (old_kept_conf _ _ _ _ _ HK Hes0) as (es & Hes & _).
    apply is_dir_true. eauto.
  - unfold is_dir, dir_entries in *. erewrite old_kept_old; eauto.
Qed.

Lemma old_kept_old_live s0 conf pin oldname s :
  wf_os s0 -> alias_to s0 conf oldname -> old_kept s0 conf pin s ->
  old_live s0 conf oldname s.
Proof.
  intros Hwf [Ht (es0 & d & Hes0 & Hd & Hdir)] HK. split; [split|].
  - by eapply old_kept_alias_target.
  - destruct (old_kept_conf _ _ _ _ _ HK Hes0) as (es & Hes & Hsub & _).
    exists es, d. split; [done|]. split; [by apply Hsub|].
    eapply old_kept_is_dir; eauto.
    + apply is_dir_true. eauto.
    + apply Hwf. apply is_dir_true in Hdir as [e He].
      apply dir_entries_Some in He as (? & ? & _). eauto.
  - intros i Hi Hic. by eapply old_kept_old.
Qed.

Lemma old_kept_old_closed s0 conf pin s :
  wf_os s0 -> well_linked s0 conf -> old_kept s0 conf pin s ->
  old_closed s0 conf s.
Proof.
  intros Hwf Hwl HK i es name j Hi Hic Hes Hj.
  assert (Hes0 : dir_entries s0 i = Some es).
  { unfold dir_entries in *. erewrite <- old_kept_old; eauto. }
  destruct (Hwl i es name j Hes0 Hj) as [Hx Hjc]. split; [|done].
  by apply Hwf.
Qed.

(** What the rename of alias.new over alias does to [conf]. *)
Lemma k_renameat_alias conf s es a L s2 :
  dir_entries s conf = Some es -> es !! "alias.new" = Some L ->
  es !! "alias" = Some a -> a <> L -> is_dir s L = false ->
  k_renameat conf "alias.new" conf "alias" s = inr (tt, s2) ->
  dir_entries s2 conf = Some (<["alias" := L]> (delete "alias.new" es)) /\
  forall i, inodes s2 !! i = if decide (i = conf)
                             then set_body (Dir (<["alias" := L]>
                                    (delete "alias.new" es))) <$> inodes s !! i
                             else inodes s !! i.
Proof.
  intros Hes HL Ha HaL HdL. unfold k_renameat. rewrite Hes, HL, Ha.
  rewrite bool_decide_eq_false_2 by congruence. rewrite HdL.
  erewrite dir_entries_set_entries by done. rewrite decide_True by done.
  intros H.
  assert (s2 = set_entries conf (<["alias" := L]> (delete "alias.new" es))
                 (set_entries conf (delete "alias.new" es) s)) as ->.
  { destruct (is_dir s a); congruence. }
  split.
  - erewrite dir_entries_set_entries.
    + by rewrite decide_True.
    + erewrite dir_entries_set_entries by done. by rewrite decide_True.
  - intros i. unfold set_entries. cbn [inodes with_inodes].
    rewrite !lookup_alter. case_decide as Hi.
    + subst i. rewrite !decide_True by done.
      destruct (inodes s !! conf) as [nd|]; [|done]. by destruct nd.
    + by rewrite decide_False by congruence.
Qed.

Section Swap.
Variables (s0 : OS) (conf : ino) (pin : gmap string ino).

Local Abbreviation K := (old_kept s0 conf pin).
Local Abbreviation n0 := (next_ino s0).

Lemma update_nssdb_symlink_spec linkst w :
    quiet w -> K (os w) ->
    wp (update_nssdb_symlink conf linkst) w
      (fun _ w' => exists wb es L nd s,
         run_in same_env no_unlink K w wb /\
         dir_entries (os wb) conf = Some es /\ es !! "alias.new" = Some L /\
         (n0 <= L)%nat /\ inodes (os wb) !! L = Some nd /\
         i_body nd = Lnk (new_dbdir_name w) /\
         i_uid nd = st_uid linkst /\ i_gid nd = st_gid linkst /\
         map call_ok_of (log wb) =
           [(EvClose L, true);
            (EvFchown L (Some (st_uid linkst)) (Some (st_gid linkst)), true);
            (EvReadlinkat L, true); (EvAlloc, true); (EvFstat L, true);
            (EvOpenat conf "alias.new" (O_RDONLY .| O_NOFOLLOW .| O_PATH),
             true);
            (EvSymlinkat (new_dbdir_name w) conf "alias.new", true)]
           ++ map call_ok_of (log w) /\
         k_renameat conf "alias.new" conf "alias" (os wb) = inr (tt, s) /\
         w' = step_world (EvRenameat conf "alias.new" conf "alias") true s wb)
      (run_in same_env no_unlink K w).
  Proof.
    intros Hq HK. unfold update_nssdb_symlink, fchown, close, renameat.
    apply wp_bind, wp_get.
    eapply (wp_stepA (E0 := same_env) (E' := same_env) (A := no_unlink)
              K K _ _ w); [done|done|by apply run_in_refl| |done|].
    { apply create_symlink_inv; [done|done|by left]. }
    intros fd w1 Hr1 He1 HK1 (Hfd & Hlog & (es & Hes & Hn) & nd & Hnd & Hb & _).
    assert (Hq1 : quiet w1) by (by apply (same_env_quiet w w1)).
    eapply (wp_stepA (E0 := same_env) (E' := same_env) (A := no_unlink)
              K K _ _ w) with
      (Q := fun _ w2 => exists s2,
         k_fchown fd (Some (st_uid linkst)) (Some (st_gid linkst)) (os w1)
           = inr (tt, s2) /\
         w2 = step_world
                (EvFchown fd (Some (st_uid linkst)) (Some (st_gid linkst)))
                true s2 w1); [done|done|done| |done|].
    { apply inv_call; [done|done|done|]. intros [] s2 H2. split; [|eauto].
      by eapply k_fchown_kept. }
    intros _ w2 Hr2 He2 HK2 (s2 & H2 & ->).
    eapply (wp_stepA (E0 := same_env) (E' := same_env) (A := no_unlink)
              K K _ _ w) with
      (Q := fun _ w3 => w3 = step_world (EvClose fd) true s2
         (step_world
            (EvFchown fd (Some (st_uid linkst)) (Some (st_gid linkst)))
            true s2 w1)); [done|done|done| |done|].
    { apply inv_call_ro; [done|done|done|auto with ro|]. by intros []. }
    intros _ w3 Hr3 He3 HK3 Hw3.
    assert (Hq3 : quiet w3) by (by subst w3).
    apply wp_call; rewrite Hq3.
    { apply run_in_step; done. }
    intros [] s _ H4. subst w3. cbn [os step_world] in H4.
    apply k_fchown_inv in H2 as (nd' & Hnd' & ->).
    rewrite Hnd in Hnd'. injection Hnd' as <-.
    assert (Hfc : fd <> conf).
    { destruct HK as (_ & ? & _). lia. }
    eexists _, es, fd, _, s.
    split; [exact Hr3|]. cbn [os step_world log].
    split; [by rewrite dir_entries_put_ne|].
    split; [done|]. split; [done|].
    split; [cbn [inodes with_inodes]; by rewrite lookup_insert_eq|].
    split; [done|]. split; [done|]. split; [done|].
    split; [|done].
    cbn [map call_ok_of e_call e_ok]. fold call_ok_of.
    unfold call_ok_of in *. by rewrite Hlog.
  Qed.
End Swap.

Lemma renamed_live s0 conf oldname newname D sb es L nd s :
  wf_os s0 -> well_linked s0 conf -> alias_to s0 conf oldname ->
  old_kept s0 conf (<[newname := D]> ∅) sb -> (next_ino s0 <= D)%nat ->
  newname <> "alias" -> newname <> "alias.new" ->
  dir_entries sb conf = Some es -> es !! "alias.new" = Some L ->
  (next_ino s0 <= L)%nat -> inodes sb !! L = Some nd ->
  i_body nd = Lnk newname ->
  k_renameat conf "alias.new" conf "alias" sb = inr (tt, s) ->
  new_live s0 conf newname s.
Proof.
  intros Hwf Hwl [Ht _] HK HD Hn1 Hn2 Hes HL HLn Hnd Hb Hren.
  apply alias_target_Some in Ht as (es0 & a & nda & Hes0 & Ha & Hnda & _).
  destruct (old_kept_conf _ _ _ _ _ HK Hes0) as (es' & Hes' & Hsub & _).
  rewrite Hes in Hes'. injection Hes' as <-.
  assert (Han : (a < next_ino s0)%nat) by (apply Hwf; eauto).
  assert (Hc : (conf < next_ino s0)%nat) by (destruct HK as (_ & ? & _); lia).
  assert (HdL : is_dir sb L = false).
  { unfold is_dir, dir_entries. by rewrite Hnd, Hb. }
  eapply k_renameat_alias in Hren as [Hes2 Hin2]; eauto; [|lia].
  assert (Hde : forall i, i <> conf -> dir_entries s i = dir_entries sb i).
  { intros i Hi. unfold dir_entries. rewrite Hin2.
    by rewrite decide_False by done. }
  destruct (old_kept_pinned _ _ _ _ HK newname D) as [(es' & Hes' & HDe) HDd].
  { by rewrite lookup_insert_eq. }
  rewrite Hes in Hes'. injection Hes' as <-.
  split; [done|]. split.
  - intros i esi name j Hi Hic Hesi Hj. rewrite Hde in Hesi by done.
    eapply old_kept_old_closed; eauto.
  - exists (<["alias" := L]> (delete "alias.new" es)), L, D, nd.
    split; [done|]. split; [by rewrite lookup_insert_eq|]. split; [done|].
    split; [rewrite Hin2; by rewrite decide_False by lia|].
    split; [done|].
    split; [rewrite lookup_insert_ne by done; by rewrite lookup_delete_ne|].
    split; [done|].
    unfold is_dir in *. rewrite Hde by lia. done.
Qed.

Lemma renamed_owner s0 conf oldname pin sb es L nd s :
  wf_os s0 -> alias_to s0 conf oldname ->
  old_kept s0 conf pin sb ->
  dir_entries sb conf = Some es -> es !! "alias.new" = Some L ->
  (next_ino s0 <= L)%nat -> inodes sb !! L = Some nd ->
  is_lnk (i_body nd) = true ->
  k_renameat conf "alias.new" conf "alias" sb = inr (tt, s) ->
  alias_owner s conf = Some (i_uid nd, i_gid nd).
Proof.
  intros Hwf [Ht _] HK Hes HL HLn Hnd Hb Hren.
  apply alias_target_Some in Ht as (es0 & a & nda & Hes0 & Ha & Hnda & _).
  destruct (old_kept_conf _ _ _ _ _ HK Hes0) as (es' & Hes' & Hsub & _).
  rewrite Hes in Hes'. injection Hes' as <-.
  assert (Han : (a < next_ino s0)%nat) by (apply Hwf; eauto).
  assert (Hc : (conf < next_ino s0)%nat) by (destruct HK as (_ & ? & _); lia).
  assert (HdL : is_dir sb L = false).
  { unfold is_dir, dir_entries. rewrite Hnd. by destruct (i_body nd). }
  eapply k_renameat_alias in Hren as [Hes2 Hin2]; eauto; [|lia].
  unfold alias_owner. rewrite Hes2, lookup_insert_eq, Hin2.
  rewrite decide_False by lia. by rewrite Hnd.
Qed.

Lemma alias_owner_start s0 conf oldname pin s es a nd :
  wf_os s0 -> alias_to s0 conf oldname -> old_kept s0 conf pin s ->
  dir_entries s conf = Some es -> es !! "alias" = Some a ->
  inodes s !! a = Some nd ->
  alias_owner s0 conf = Some (i_uid nd, i_gid nd).
Proof.
  intros Hwf [Ht _] HK Hes Ha Hnd.
  apply alias_target_Some in Ht as (es0 & a0 & nd0 & Hes0 & Ha0 & Hnd0 & Hb0).
  destruct (old_kept_conf _ _ _ _ _ HK Hes0) as (es' & Hes' & Hsub & _).
  rewrite Hes in Hes'. injection Hes' as <-.
  apply Hsub in Ha0 as Ha1. rewrite Ha in Ha1. injection Ha1 as ->.
  assert (Han : (a0 < next_ino s0)%nat) by (apply Hwf; eauto).
  assert (a0 <> conf).
  { intros ->. apply dir_entries_Some in Hes0 as (nd' & Hnd' & Hb').
    rewrite Hnd0 in Hnd'. injection Hnd' as <-. congruence. }
  erewrite old_kept_old in Hnd; eauto.
  unfold alias_owner. rewrite Hes0, Ha0, Hnd0. congruence.
Qed.

Lemma reaper_tail_inv s0 conf newname fuel old_fd new_fd w :
  quiet w -> new_live s0 conf newname (os w) ->
  (old_fd < next_ino s0)%nat -> old_fd <> conf ->
  old_dbdir_name w <> "alias" -> old_dbdir_name w <> newname ->
  inv_wp same_env any_call (new_live s0 conf newname)
    (delete_old_nssdb_dir fuel conf old_fd ;;
     close new_fd "Failed to close directory: %s/%s: %m" ;;
     close old_fd "Failed to close directory: %s/%s: %m" ;;
     close conf "Failed to close directory: %s: %m") w
    (fun _ w' => exists es, dir_entries (os w') conf = Some es
                            /\ es !! old_dbdir_name w = None).
Proof.
  intros Hq HB Ho Hoc Hn1 Hn2. unfold close.
  eapply inv_seq; [done|by apply delete_old_nssdb_dir_inv|].
  intros [] w1 Hq1 HB1 _ Hgone.
  step_ro a1 H1. step_ro a2 H2.
  apply inv_call_ro; [done|done|done|auto with ro|]. by intros _ _.
Qed.

Ltac stepA spec a wn HQ :=
  lazymatch goal with
  | Hr : run_in same_cfg no_unlink _ ?w0 ?wi, He : same_env ?wbase ?wi,
    Hq : quiet ?wi, HK : old_kept _ ?conf ?pin (os ?wi)
    |- wp (bind _ _) ?wi _ _ =>
      eapply (wp_stepA (E0 := same_cfg) (E' := same_env) (A := no_unlink)
                (old_kept (os w0) conf ∅) (old_kept (os w0) conf pin)
                _ _ w0);
        [apply same_env_cfg|apply old_kept_unpin|exact Hr|spec|by left|];
      let Hr' := fresh "Hr" in
      let He' := fresh "He" in
      let HK' := fresh "HKp" in
      let Hq' := fresh "Hq" in
      let Hen := fresh "Hen" in
      intros a wn Hr' He' HK' HQ;
      assert (Hq' : quiet wn) by (by apply (same_env_quiet wi wn));
      assert (Hen : same_env wbase wn)
        by (by apply (same_env_trans wbase wi wn));
      clear Hr He Hq HK He';
      rename Hr' into Hr; rename Hen into He; rename Hq' into Hq;
      rename HK' into HK
  end.

Section MainProof.
Variables (fuel : nat) (w : World) (conf : ino) (oldname : string).
Hypothesis Hq : quiet w.
Hypothesis Hwf : wf_os (os w).
Hypothesis Hpath : paths (os w) !! httpd_conf_dir = Some conf.
Hypothesis Hwl : well_linked (os w) conf.
Hypothesis Hal : alias_to (os w) conf oldname.

Local Abbreviation K0 := (old_kept (os w) conf ∅).
Local Abbreviation n0 := (next_ino (os w)).

Lemma main_phases :
    wp (main fuel) w
      (fun _ w' => after_swap w conf oldname w' /\
         exists es, dir_entries (os w') conf = Some es
                    /\ es !! oldname = None)
      (fun w' => before_swap w conf w' \/ after_swap w conf oldname w').
  Proof.
    pose proof Hal as [Ht (es0 & d0 & Hes0 & Hd0 & Hdir0)].
    assert (HK0 : K0 (os w)) by (by eapply old_kept_start).
    assert (Hr0 : before_swap w conf w) by (by apply run_in_refl).
    assert (Hd0n : (d0 < n0)%nat /\ d0 <> conf).
    { destruct (Hwl conf es0 oldname d0 Hes0 Hd0) as [Hx ?]. split; [|done].
      by apply Hwf. }
    unfold main, open.
    (* open *)
    eapply (wp_stepA (E0 := same_cfg) (E' := same_env) (A := no_unlink)
              K0 K0 _ _ w) with (Q := fun fd _ => fd = conf);
      [apply same_env_cfg|done|exact Hr0| |by left|].
    { apply inv_call_ro; [done|done|done|auto with ro|]. intros fd H.
      apply k_open_inv in H as (_ & Hp & _). congruence. }
    intros ? w1 Hr1 He1 HK1 ->.
    assert (Hq1 : quiet w1) by (by apply (same_env_quiet w w1)).
    (* old_nssdb_dir *)
    eapply (wp_stepA (E0 := same_cfg) (E' := same_cfg) (A := no_unlink)
              K0 K0 _ _ w);
      [done|done|exact Hr1|by apply old_nssdb_dir_spec|by left|].
    intros [old_fd linkst] w2 Hr2 He2 HK2
      (_ & es1 & a & nda & tg & Hes1 & Ha & Hnda & Hba & Hlst & Hname & Hold
       & _).
    cbn [fst snd] in *.
    assert (Hown0 : alias_owner (os w) conf
                    = Some (st_uid linkst, st_gid linkst)).
    { rewrite Hlst. cbn [stat_of st_uid st_gid].
      exact (alias_owner_start _ _ _ _ _ _ _ _ Hwf Hal HK1 Hes1 Ha Hnda). }
    assert (Hq2 : quiet w2) by (by apply (same_cfg_quiet w1 w2)).
    assert (tg = oldname) as ->.
    { pose proof (old_kept_alias_target _ _ _ _ _ Hwf Ht HK1) as Ht1.
      apply alias_target_Some in Ht1 as (e & a' & nd' & He & Ha' & Hnd' & Hb').
      congruence. }
    assert (old_fd = d0) as ->.
    { destruct (old_kept_conf _ _ _ _ _ HK1 Hes0) as (e & He & Hsub & _).
      apply Hsub in Hd0. congruence. }
    destruct Hd0n as [Hd0n Hd0c].
    assert (Hna : oldname <> "alias").
    { intros ->. apply alias_target_Some in Ht
        as (e & a' & nd' & He & Ha' & Hnd' & Hb').
      rewrite Hes0 in He. injection He as <-.
      rewrite Hd0 in Ha'. injection Ha' as <-.
      apply is_dir_true in Hdir0 as [ed Hed].
      apply dir_entries_Some in Hed as (nd'' & Hnd'' & Hb''). congruence. }
    (* new_nssdb_dir *)
    eapply (wp_stepA (E0 := same_cfg) (E' := same_cfg) (A := no_unlink)
              K0 K0 _ _ w);
      [done|done|exact Hr2|by apply new_nssdb_dir_spec|by left|].
    intros D w3 Hr3 He3 HK3
      (Hname3 & HD & [ts Hts] & (es2 & Hes2 & Hnone) & es3 & Hes3 & HDe & HDd).
    assert (Hq3 : quiet w3) by (by apply (same_cfg_quiet w2 w3)).
    set (newname := new_dbdir_name w3) in *.
    assert (Hno : newname <> oldname).
    { intros Heq. destruct (old_kept_conf _ _ _ _ _ HK2 Hes0)
        as (e & He & Hsub & _).
      apply Hsub in Hd0. congruence. }
    assert (Hn1 : newname <> "alias") by (rewrite Hts; apply prefix_not_alias).
    assert (Hn2 : newname <> "alias.new")
      by (rewrite Hts; apply prefix_not_alias_new).
    set (pin := <[newname := D]> (∅ : gmap string ino)).
    assert (HKp : old_kept (os w) conf pin (os w3))
      by (by eapply old_kept_pin).
    assert (Hen : same_env w3 w3) by apply same_env_refl.
    assert (Holdn : old_dbdir_name w3 = oldname) by congruence.
    clear He1 He2 He3 Hq1 Hq2 HK1 HK2 HK3 Hr1 Hr2 Hes1 Ha Hnda Hba Hold
      Hes2 Hnone Hes3 HDe HDd Hname Hname3.
    (* the store and the tree *)
    stepA ltac:(by apply copy_nssdb_files_inv) a4 w4 HQ4.
    apply wp_bind, wp_get. apply wp_bind, wp_get.
    apply wp_bind, wp_get. apply wp_bind, wp_get.
    stepA ltac:(by apply set_effective_user_inv) a5 w5 HQ5.
    stepA ltac:(by apply init_libnss_inv) slot w6 Hslot.
    stepA ltac:(by apply new_certificate_inv) cert w7 HQ7.
    stepA ltac:(by apply remove_old_certs_inv) a8 w8 HQ8.
    stepA ltac:(by apply add_new_cert_inv) a9 w9 HQ9.
    stepA ltac:(by apply shutdown_libnss_inv) a10 w10 HQ10.
    stepA ltac:(by apply set_effective_user_inv) a11 w11 HQ11.
    stepA ltac:(by apply copy_nssdb_dir_inv) a12 w12 HQ12.
    (* the swap *)
    apply wp_bind. eapply wp_mono.
    { apply (update_nssdb_symlink_spec (os w) conf pin); done. }
    2:{ intros w' Hr'. left. eapply run_in_trans; [exact Hr3|].
        eapply run_in_weaken; [apply same_env_cfg| |apply old_kept_unpin|exact Hr'].
        auto. }
    intros [] w' (wb & es & L & nd & s & Hrb & Hes & HL & HLn & Hnd & Hb
                  & Hu & Hg & _ & Hren & ->).
    assert (Hown : alias_owner s conf = alias_owner (os w) conf).
    { rewrite Hown0, <- Hu, <- Hg.
      eapply (renamed_owner (os w) conf oldname pin (os wb)); eauto.
      - exact (run_in_P (old_kept (os w) conf pin) w12 wb Hrb).
      - by rewrite Hb. }
    assert (Hbs : before_swap w conf wb).
    { eapply run_in_trans; [exact Hr3|].
      eapply run_in_weaken; [apply same_env_cfg| |apply old_kept_unpin|exact Hrb].
      auto. }
    assert (Henb : same_env w3 wb).
    { eapply same_env_trans; [exact Hen|]. apply Hrb. }
    assert (Hnb : new_dbdir_name wb = newname) by apply Henb.
    assert (Hnw : new_dbdir_name w12 = newname) by apply Hen.
    assert (Hob : old_dbdir_name wb = oldname).
    { rewrite <- Holdn. apply Henb. }
    assert (HB : new_live (os w) conf newname s).
    { rewrite Hnw in Hb.
      eapply (renamed_live (os w) conf oldname newname D (os wb)); eauto.
      exact (run_in_P (old_kept (os w) conf pin) w12 wb Hrb). }
    assert (Hqb : quiet wb)
      by (apply (same_env_quiet w12 wb); [apply Hrb|done]).
    eapply wp_mono.
    { apply (reaper_tail_inv (os w) conf newname fuel d0 D); try done.
      - cbn [old_dbdir_name step_world]. by rewrite Hob.
      - cbn [old_dbdir_name step_world]. by rewrite Hob. }
    - intros [] w'' [Hr'' Hgone].
      cbn [old_dbdir_name step_world] in Hgone. rewrite Hob in Hgone.
      split; [|done]. exists wb, s. rewrite Hnb. done.
    - intros w'' Hr''. right. exists wb, s. rewrite Hnb. done.
  Qed.
End MainProof.

Lemma before_swap_unpack w conf oldname w' :
  wf_os (os w) -> alias_to (os w) conf oldname -> before_swap w conf w' ->
  exists pre, log w' = pre ++ log w /\
    Forall (entry_in no_unlink (old_live (os w) conf oldname)) pre /\
    old_live (os w) conf oldname (os w').
Proof.
  intros Hwf Hal (_ & (pre & Hlog & Hpre) & HK). exists pre.
  split; [done|]. split; [|by eapply old_kept_old_live].
  eapply Forall_impl; [exact Hpre|]. intros e [? ?].
  split; [done|]. by eapply old_kept_old_live.
Qed.

Lemma after_swap_unpack_owner w conf oldname w' :
  wf_os (os w) -> alias_to (os w) conf oldname ->
  after_swap w conf oldname w' ->
  exists pre post s newname, newname <> oldname /\
    log w' = post ++ swap_entry conf s :: pre ++ log w /\
    Forall (entry_in no_unlink (old_live (os w) conf oldname)) pre /\
    alias_to s conf newname /\
    Forall (fun e => alias_to (e_after e) conf newname) post /\
    alias_to (os w') conf newname /\
    is_Some (alias_owner (os w) conf) /\
    alias_owner s conf = alias_owner (os w) conf.
Proof.
  intros Hwf Hal (wb & s & Hb & Hne & HB & Hs & Hown
                  & (_ & (post & Hlog & Hpost) & HB')).
  destruct (before_swap_unpack _ _ _ _ Hwf Hal Hb) as (pre & Hlogb & Hpre & _).
  exists pre, post, s, (new_dbdir_name wb). split; [done|].
  split; [cbn [log step_world] in Hlog; by rewrite Hlog, Hlogb|].
  split; [done|]. split; [by eapply new_live_alias|].
  split; [|split; [by eapply new_live_alias|done]].
  eapply Forall_impl; [exact Hpost|]. intros e [_ ?].
  by eapply new_live_alias.
Qed.

Lemma after_swap_unpack w conf oldname w' :
  wf_os (os w) -> alias_to (os w) conf oldname ->
  after_swap w conf oldname w' ->
  exists pre post s newname, newname <> oldname /\
    log w' = post ++ swap_entry conf s :: pre ++ log w /\
    Forall (entry_in no_unlink (old_live (os w) conf oldname)) pre /\
    alias_to s conf newname /\
    Forall (fun e => alias_to (e_after e) conf newname) post /\
    alias_to (os w') conf newname.
Proof.
  intros Hwf Hal Ha.
  destruct (after_swap_unpack_owner _ _ _ _ Hwf Hal Ha)
    as (pre & post & s & newname & ? & ? & ? & ? & ? & ? & _).
  exists pre, post, s, newname. split_and!; done.
Qed.

(** C4. In a run of [main] that no other process disturbs, started where
    the alias names an existing directory [oldname] of /etc/httpd, either
    the alias is never renamed, and then no call deletes anything, every
    state of the run has the alias naming [oldname] and every inode of the
    start (the directory /etc/httpd apart) as it was, and the run does not
    return; or the log has one successful rename of alias.new over alias,
    before which the same holds, and from which on, in every state, while
    the Reaper deletes and whether or not it finishes, the alias names a
    different, existing directory; when the run returns, [oldname] is no
    longer a name of /etc/httpd. *)
Theorem reaper_runs_after_swap fuel w conf oldname r w' :
  quiet w -> wf_os (os w) ->
  paths (os w) !! httpd_conf_dir = Some conf ->
  well_linked (os w) conf -> alias_to (os w) conf oldname ->
  main fuel w = (r, w') ->
  (exists pre, log w' = pre ++ log w /\ r <> Done tt /\
     Forall (entry_in no_unlink (old_live (os w) conf oldname)) pre /\
     old_live (os w) conf oldname (os w'))
  \/
  (exists pre post s newname, newname <> oldname /\
     log w' = post ++ swap_entry conf s :: pre ++ log w /\
     Forall (entry_in no_unlink (old_live (os w) conf oldname)) pre /\
     alias_to s conf newname /\
     Forall (fun e => alias_to (e_after e) conf newname) post /\
     alias_to (os w') conf newname /\
     (r = Done tt ->
      exists es, dir_entries (os w') conf = Some es /\ es !! oldname = None)).
Proof.
  intros Hq Hwf Hpath Hwl Hal Hrun.
  pose proof (main_phases fuel w conf oldname Hq Hwf Hpath Hwl Hal) as H.
  unfold wp in H. rewrite Hrun in H.
  assert (Hafter : after_swap w conf oldname w' ->
    (r = Done tt -> exists es, dir_entries (os w') conf = Some es
                               /\ es !! oldname = None) ->
    exists pre post s newname, newname <> oldname /\
     log w' = post ++ swap_entry conf s :: pre ++ log w /\
     Forall (entry_in no_unlink (old_live (os w) conf oldname)) pre /\
     alias_to s conf newname /\
     Forall (fun e => alias_to (e_after e) conf newname) post /\
     alias_to (os w') conf newname /\
     (r = Done tt ->
      exists es, dir_entries (os w') conf = Some es /\ es !! oldname = None)).
  { intros Ha Hg.
    destruct (after_swap_unpack _ _ _ _ Hwf Hal Ha)
      as (pre & post & s & newname & ? & ? & ? & ? & ? & ?).
    exists pre, post, s, newname. split_and!; done. }
  assert (Hbefore : before_swap w conf w' -> r <> Done tt ->
    exists pre, log w' = pre ++ log w /\ r <> Done tt /\
     Forall (entry_in no_unlink (old_live (os w) conf oldname)) pre /\
     old_live (os w) conf oldname (os w')).
  { intros Hb Hr.
    destruct (before_swap_unpack _ _ _ _ Hwf Hal Hb) as (pre & ? & ? & ?).
    exists pre. split_and!; done. }
  destruct r as [[]|msg| |sg| |];
    [right; destruct H as [Ha Hg]; apply Hafter; [done|]; by intros _|..];
    (destruct H as [Hb|Ha]; [left; by apply Hbefore|right; by apply Hafter]).
Qed.

(** [update_nssdb_symlink], undisturbed. *)
Lemma alias_swap_undisturbed conf linkst oldname w r w' :
  quiet w -> wf_os (os w) -> alias_target (os w) conf = Some oldname ->
  update_nssdb_symlink conf linkst w = (r, w') ->
  exists pre,
    Forall (fun e => alias_target (e_after e) conf = Some oldname) pre /\
    match r with
    | Done _ =>
        exists s es L nd,
          log w' = swap_entry conf s :: pre ++ log w /\ os w' = s /\
          map call_ok_of pre =
            [(EvClose L, true);
             (EvFchown L (Some (st_uid linkst)) (Some (st_gid linkst)), true);
             (EvReadlinkat L, true); (EvAlloc, true); (EvFstat L, true);
             (EvOpenat conf "alias.new" (O_RDONLY .| O_NOFOLLOW .| O_PATH),
              true);
             (EvSymlinkat (new_dbdir_name w) conf "alias.new", true)] /\
          alias_target s conf = Some (new_dbdir_name w) /\
          dir_entries s conf = Some es /\ es !! "alias" = Some L /\
          es !! "alias.new" = None /\ inodes s !! L = Some nd /\
          i_body nd = Lnk (new_dbdir_name w) /\
          i_uid nd = st_uid linkst /\ i_gid nd = st_gid linkst
    | _ => log w' = pre ++ log w /\ alias_target (os w') conf = Some oldname
    end.
Proof.
  intros Hq Hwf Ht Hrun.
  pose proof Ht as Ht'.
  apply alias_target_Some in Ht' as (es0 & a & nda & Hes0 & Ha & Hnda & Hba).
  assert (HK : old_kept (os w) conf ∅ (os w)) by (by eapply old_kept_start).
  pose proof (update_nssdb_symlink_spec (os w) conf ∅ linkst w Hq HK) as H.
  unfold wp in H. rewrite Hrun in H.
  assert (Hstop : forall wx,
    run_in same_env no_unlink (old_kept (os w) conf ∅) w wx ->
    exists pre,
      Forall (fun e => alias_target (e_after e) conf = Some oldname) pre /\
      log wx = pre ++ log w /\ alias_target (os wx) conf = Some oldname).
  { intros wx (_ & (pre & Hlog & Hpre) & HK'). exists pre.
    split; [|split; [done|by eapply old_kept_alias_target]].
    eapply Forall_impl; [exact Hpre|]. intros e [_ ?].
    by eapply old_kept_alias_target. }
  destruct r as [[]|msg| |sg| |]; try (by apply Hstop).
  destruct H as (wb & es & L & nd & s & Hrb & Hes & HL & HLn & Hnd & Hb
                 & Hu & Hg & Hcalls & Hren & ->).
  destruct (Hstop _ Hrb) as (pre & Hpre & Hlog & _). exists pre.
  split; [done|].
  pose proof (run_in_P _ _ _ Hrb) as HKb.
  destruct (old_kept_conf _ _ _ _ _ HKb Hes0) as (es' & Hes' & Hsub & _).
  rewrite Hes in Hes'. injection Hes' as <-.
  assert (Han : (a < next_ino (os w))%nat) by (apply Hwf; eauto).
  assert (Hc : (conf < next_ino (os w))%nat)
    by (destruct HK as (_ & ? & _); lia).
  assert (HdL : is_dir (os wb) L = false).
  { unfold is_dir, dir_entries. by rewrite Hnd, Hb. }
  eapply k_renameat_alias in Hren as [Hes2 Hin2]; eauto; [|lia].
  assert (HL2 : inodes s !! L = Some nd).
  { rewrite Hin2. by rewrite decide_False by lia. }
  exists s, (<["alias" := L]> (delete "alias.new" es)), L, nd.
  split; [cbn [log step_world]; by rewrite Hlog|]. split; [done|].
  split.
  { rewrite Hlog, map_app in Hcalls. by apply app_inv_tail in Hcalls. }
  split.
  { apply alias_target_Some. eexists _, L, nd.
    split; [exact Hes2|]. by rewrite lookup_insert_eq. }
  split; [done|]. split; [by rewrite lookup_insert_eq|].
  split; [rewrite lookup_insert_ne by done; by rewrite lookup_delete_eq|].
  done.
Qed.

Lemma log_no_loop (e : entry) l l0 : l0 = e :: l ++ l0 -> False.
Proof. intros H. apply (f_equal length) in H. simpl in H. rewrite length_app in H. lia. Qed.

Lemma mtime_differs (a b : timespec) :
  a <> b ->
  negb (tv_sec a =? tv_sec b) || negb (tv_nsec a =? tv_nsec b) = true.
Proof.
  intros Hne. destruct (tv_sec a =? tv_sec b) eqn:E1; [|done].
  destruct (tv_nsec a =? tv_nsec b) eqn:E2; [|done].
  destruct Hne. destruct a, b. simpl in *. f_equal; lia.
Qed.

Lemma mtime_same (a b : timespec) :
  negb (tv_sec a =? tv_sec b) || negb (tv_nsec a =? tv_nsec b) = false ->
  a = b.
Proof.
  intros H. apply orb_false_iff in H as [H1 H2].
  apply negb_false_iff in H1, H2. destruct a, b. simpl in *. f_equal; lia.
Qed.

(** The race check of [copy_file_contents], whatever happens around it. *)
Lemma copy_file_contents_check src dest path srcst w :
  0 < st_size srcst ->
  wpo (copy_file_contents src dest path srcst) w (fun o w' =>
    (forall e l nd, log w' = e :: l ++ log w ->
       e_call e = EvFstat src -> e_ok e = true ->
       inodes (e_after e) !! src = Some nd -> i_mtim nd <> st_mtim srcst ->
       o = Fatal changed_msg) /\
    (o = Done tt -> exists e l nd, log w' = e :: l ++ log w /\
       e_call e = EvFstat src /\ e_ok e = true /\
       inodes (e_after e) !! src = Some nd /\ i_mtim nd = st_mtim srcst)).
Proof.
  intros Hsz. unfold copy_file_contents.
  assert (Hstop : forall (o : outcome unit), o <> Done tt ->
    (forall e l nd, log w = e :: l ++ log w ->
       e_call e = EvFstat src -> e_ok e = true ->
       inodes (e_after e) !! src = Some nd -> i_mtim nd <> st_mtim srcst ->
       o = Fatal changed_msg) /\
    (o = Done tt -> exists e l nd, log w = e :: l ++ log w /\
       e_call e = EvFstat src /\ e_ok e = true /\
       inodes (e_after e) !! src = Some nd /\ i_mtim nd = st_mtim srcst)).
  { intros o Ho. split; [|done]. intros e l nd Hl. by apply log_no_loop in Hl. }
  apply wpo_step_assert; [intros _; by apply Hstop|intros _].
  destruct (st_size srcst =? 0) eqn:E0; [lia|].
  destruct (_ || _); [by apply Hstop|]. clear Hstop.
  unfold fallocate, mmap, memcpy, munmap, fstat.
  assert (Hfail : forall ev s w1 (o : outcome unit),
    (forall e l nd, log (step_world ev false s w1) = e :: l ++ log w ->
       e_call e = EvFstat src -> e_ok e = true ->
       inodes (e_after e) !! src = Some nd -> i_mtim nd <> st_mtim srcst ->
       o = Fatal changed_msg)).
  { intros ev s w1 o e l nd Hl Hc Hok. exfalso.
    cbn [log step_world] in Hl. injection Hl as <- _. done. }
  do 3 (apply wpo_step_call; [by split; [apply Hfail|]|intros _ ? _]).
  apply wpo_step_act; [intros _; by split; [apply Hfail|]|intros ? _].
  do 2 (apply wpo_step_call; [by split; [apply Hfail|]|intros _ ? _]).
  apply wpo_step_call; [by split; [apply Hfail|]|intros st s7 Hst].
  apply k_fstat_inv in Hst as (-> & nd' & Hnd' & ->).
  unfold wpo.
  match goal with |- context [if ?b then _ else _] => destruct b eqn:Hb end;
    cbn [fst snd FATAL ret].
  - split; [done|]. intros [=].
  - apply mtime_same in Hb. split.
    + intros e l nd Hl Hc Hok Hnd Hne. exfalso.
      cbn [log step_world] in Hl. injection Hl as <- _.
      assert (Heq : Some nd = Some nd')
        by exact (eq_trans (eq_sym Hnd) Hnd').
      injection Heq as ->. by destruct Hne.
    + intros _. eexists _, [_; _; _; _; _; _], nd'.
      split; [reflexivity|]. split; [done|]. split; [done|].
      split; [exact Hnd'|done].
Qed.

(** ** What a function may log *)

Lemma emits_ret A {T} (a : T) : emits A (ret a).
Proof. intros w. by exists []. Qed.

Lemma emits_FATAL A {T} msg : emits A (@FATAL T msg).
Proof. intros w. exists []. split; [reflexivity|constructor]. Qed.

Lemma emits_assert A b : emits A (assert b).
Proof. intros w. exists []. unfold assert. by destruct b. Qed.

Lemma emits_get A {T} (f : World -> T) : emits A (get f).
Proof. intros w. by exists []. Qed.

Lemma emits_put A f : (forall w, log (f w) = log w) -> emits A (put f).
Proof.
  intros Hf w. exists []. split; [|constructor]. cbn [put snd]. apply Hf.
Qed.

Lemma emits_bind A {T U} (m : M T) (k : T -> M U) :
  emits A m -> (forall a, emits A (k a)) -> emits A (bind m k).
Proof.
  intros Hm Hk w. destruct (Hm w) as (l1 & Hl1 & F1). unfold bind.
  destruct (m w) as [[a|msg| | | |] w1]; simpl in *; eauto.
  destruct (Hk a w1) as (l2 & Hl2 & F2). exists (l2 ++ l1).
  split; [by rewrite Hl2, Hl1, app_assoc|by apply Forall_app].
Qed.

Lemma emits_sys A {T} ev (op : kcall T) : A ev = true -> emits A (sys ev op).
Proof.
  intros Hev w. unfold sys.
  destruct (faulty w (tick w));
    [eexists [_]; split; [done|by repeat constructor]|].
  destruct (op _) as [e|[a s2]];
    (eexists [_]; split; [done|by repeat constructor]).
Qed.

Lemma emits_call A {T} ev (op : kcall T) msg :
  A ev = true -> emits A (call ev op msg).
Proof.
  intros Hev. unfold call. apply emits_bind; [by apply emits_sys|].
  intros [e|a]; [apply emits_FATAL|apply emits_ret].
Qed.

Lemma emits_act A ev f : A ev = true -> emits A (act ev f).
Proof.
  intros Hev w. unfold act.
  destruct (f _); (eexists [_]; split; [done|by repeat constructor]).
Qed.

Lemma emits_kill A {T} sig : emits A (@kill T sig).
Proof. intros w. exists []. split; [reflexivity|constructor]. Qed.

Lemma emits_or_sleep A {T} sleeps (m : M T) :
  emits A m -> emits A (or_sleep sleeps m).
Proof.
  intros Hm w. unfold or_sleep.
  destruct (negb (faulty w (tick w)) && sleeps _); [|apply Hm].
  exists []. split; [reflexivity|constructor].
Qed.

Lemma emits_for_each A {T} (body : T -> M unit) l :
  (forall x, emits A (body x)) -> emits A (for_each body l).
Proof.
  intros Hb. induction l as [|x l IH]; [apply emits_ret|].
  cbn [for_each]. apply emits_bind; [apply Hb|]. by intros _.
Qed.

Ltac emits_step :=
  first
    [ apply emits_bind; [|intros ?]
    | apply emits_call; reflexivity
    | apply emits_sys; reflexivity
    | apply emits_act; reflexivity
    | apply emits_or_sleep
    | apply emits_kill
    | apply emits_ret
    | apply emits_FATAL
    | apply emits_assert
    | apply emits_get
    | apply emits_put; reflexivity
    | match goal with
      | |- emits _ (if ?b then _ else _) => destruct b
      | |- emits _ (match ?x with inl _ => _ | inr _ => _ end) => destruct x
      | |- emits _ (match ?x with Some _ => _ | None => _ end) => destruct x
      | |- emits _ (let (_, _) := ?x in _) => destruct x
      end ].

Lemma open_harmless path flags msg : emits harmless (open path flags msg).
Proof. unfold open. repeat emits_step. Qed.

Lemma old_nssdb_dir_harmless conf : emits harmless (old_nssdb_dir conf).
Proof.
  unfold old_nssdb_dir, openat, fstat, alloc, close. repeat emits_step.
Qed.

Lemma new_nssdb_dir_harmless conf : emits harmless (new_nssdb_dir conf).
Proof.
  unfold new_nssdb_dir, mkdirat, openat, fchown. repeat emits_step.
Qed.

Lemma copy_file_contents_harmless src dest path srcst :
  emits harmless (copy_file_contents src dest path srcst).
Proof.
  unfold copy_file_contents, fallocate, mmap, memcpy, munmap, fstat.
  repeat emits_step.
Qed.

Lemma copy_nssdb_files_harmless srcdir destdir :
  emits harmless (copy_nssdb_files srcdir destdir).
Proof.
  unfold copy_nssdb_files. apply emits_for_each. intros name.
  unfold copy_nssdb_file, openat, fstat, fchown, fchmod, utimens, close.
  repeat first [apply copy_file_contents_harmless | emits_step].
Qed.

Lemma emits_run A {T} (m : M T) w r w' :
  emits A m -> m w = (r, w') ->
  exists l, log w' = l ++ log w /\ Forall (fun e => A (e_call e) = true) l.
Proof. intros Hm Hr. specialize (Hm w). by rewrite Hr in Hm. Qed.

Lemma bind_stop {T U} (m : M T) (k : T -> M U) w (r : outcome T) w' :
  m w = (r, w') -> (forall a, r <> Done a) ->
  exists r' : outcome U, bind m k w = (r', w') /\ (forall a, r' <> Done a) /\
    (forall msg, r = Fatal msg <-> r' = Fatal msg).
Proof.
  intros Hm Hr. unfold bind. rewrite Hm. destruct r as [a|msg| |sg| |].
  - by destruct (Hr a).
  - exists (Fatal msg). split; [done|]. split; [done|].
    intros m'. split; intros [= ->]; done.
  - exists Aborted. split; [done|]. split; [done|]. by intros m'.
  - exists (Killed sg). split; [done|]. split; [done|]. by intros m'.
  - exists Asleep. split; [done|]. split; [done|]. by intros m'.
  - exists NoFuel. split; [done|]. split; [done|]. by intros m'.
Qed.

Lemma for_each_stop {T} (body : T -> M unit) before x rest w w1 msg w2 :
  for_each body before w = (Done tt, w1) -> body x w1 = (Fatal msg, w2) ->
  for_each body (before ++ x :: rest) w = (Fatal msg, w2).
Proof.
  revert w. induction before as [|y l IH]; intros w Hb Hx.
  - injection Hb as ->. cbn [app for_each]. by apply bind_fatal.
  - cbn [app for_each] in *. unfold bind in Hb |- *.
    destruct (body y w) as [[[]|m| | | |] w']; try done. by apply IH.
Qed.

Lemma main_stops_in_replicator fuel w conf w1 old linkst w2 new w3 msg w4 :
  open httpd_conf_dir (O_RDONLY .| O_DIRECTORY)
    "Failed to open directory: %s: %m" w = (Done conf, w1) ->
  old_nssdb_dir conf w1 = (Done (old, linkst), w2) ->
  new_nssdb_dir conf w2 = (Done new, w3) ->
  copy_nssdb_files old new w3 = (Fatal msg, w4) ->
  main fuel w = (Fatal msg, w4) /\
  exists l, log w4 = l ++ log w
            /\ Forall (fun e => harmless (e_call e) = true) l.
Proof.
  intros H1 H2 H3 H4. split.
  - unfold main. rewrite (bind_done _ _ _ _ _ H1).
    rewrite (bind_done _ _ _ _ _ H2). cbv beta iota.
    rewrite (bind_done _ _ _ _ _ H3). by apply bind_fatal.
  - destruct (emits_run _ _ _ _ _ (open_harmless _ _ _) H1) as (l1 & E1 & F1).
    destruct (emits_run _ _ _ _ _ (old_nssdb_dir_harmless _) H2)
      as (l2 & E2 & F2).
    destruct (emits_run _ _ _ _ _ (new_nssdb_dir_harmless _) H3)
      as (l3 & E3 & F3).
    destruct (emits_run _ _ _ _ _ (copy_nssdb_files_harmless _ _) H4)
      as (l4 & E4 & F4).
    exists (l4 ++ l3 ++ l2 ++ l1). split.
    + rewrite E4, E3, E2, E1. by rewrite !app_assoc.
    + by repeat apply Forall_app_2.
Qed.

(** C3, for a source whose size when it was opened is positive.  Whatever
    other processes do and whichever calls fail: if [main] reaches the
    content copy of a store file, and the copy ends on its [fstat] of the
    source, which finds a modification time other than the one read when
    the source was opened, then [main] ends there with the fatal error
    File changed during copy, and no call of the run has deleted or
    imported a certificate, renamed or unlinked anything. *)
Theorem changed_store_file_is_fatal fuel w name src dest srcst w7 e l nd :
  reaches_copy w name src dest srcst w7 ->
  0 < st_size srcst ->
  let w8 := (copy_file_contents src dest name srcst w7).2 in
  log w8 = e :: l ++ log w7 ->
  e_call e = EvFstat src -> e_ok e = true ->
  inodes (e_after e) !! src = Some nd -> i_mtim nd <> st_mtim srcst ->
  main fuel w = (Fatal changed_msg, w8) /\
  exists l', log w8 = l' ++ log w
             /\ Forall (fun e => harmless (e_call e) = true) l'.
Proof.
  intros (conf & w1 & old & linkst & w2 & new & w3 & before & rest & w4 & w5
          & w6 & H1 & H2 & H3 & Hn & H4 & H5 & H6 & Hreg & H7)
    Hsz w8 Hlog Hc Hok Hnd Hm.
  pose proof (copy_file_contents_check src dest name srcst w7 Hsz) as [Hchk _].
  specialize (Hchk e l nd Hlog Hc Hok Hnd Hm).
  assert (Hcopy : copy_file_contents src dest name srcst w7
                  = (Fatal changed_msg, w8)).
  { subst w8. destruct (copy_file_contents src dest name srcst w7) as [o wx].
    simpl in *. by subst o. }
  eapply main_stops_in_replicator; eauto.
  unfold copy_nssdb_files. rewrite Hn.
  eapply for_each_stop; [exact H4|].
  unfold copy_nssdb_file. rewrite (bind_done _ _ _ _ _ H5).
  rewrite (bind_done _ _ _ _ _ H6). rewrite Hreg. cbn [negb].
  rewrite (bind_done _ _ _ _ _ H7). by apply bind_fatal.
Qed.

(** C10. A source of size zero: [copy_file_contents] returns at once, in
    the world it was called in, so that nothing is allocated, written or
    checked (a path that is empty or starts with a slash fails the
    assertion before that); and the fatal error File changed during copy
    ends it only when the size is positive. *)
Theorem copy_file_contents_zero_size src dest path srcst w :
  (st_size srcst = 0 ->
   copy_file_contents src dest path srcst w
   = (if relative_nonempty path then Done tt else Aborted, w)) /\
  (forall w', copy_file_contents src dest path srcst w
              = (Fatal changed_msg, w') -> 0 < st_size srcst).
Proof.
  split.
  - intros Hs. unfold copy_file_contents, bind, assert. rewrite Hs.
    by destruct (relative_nonempty path).
  - unfold copy_file_contents. unfold bind at 1. unfold assert.
    destruct (relative_nonempty path); [|done].
    destruct (st_size srcst =? 0) eqn:E0; [done|].
    destruct ((st_size srcst <? 0) || (st_size srcst >? SSIZE_MAX)) eqn:E1.
    + unfold FATAL. intros w' [= H].
    + intros _ _. lia.
Qed.

Lemma wpo_call {T} ev (op : kcall T) msg w (Φ : outcome T -> World -> Prop) :
  let s1 := interfere w (tick w) (os w) in
  Φ (Fatal msg) (step_world ev false s1 w) ->
  (forall a s2, op s1 = inr (a, s2) -> Φ (Done a) (step_world ev true s2 w)) ->
  wpo (call ev op msg) w Φ.
Proof.
  intros s1 HF HD. unfold wpo, call, bind, sys. fold s1.
  destruct (faulty w (tick w)); [done|].
  destruct (op s1) as [e|[a s2]] eqn:Hop; [done|]. by apply HD.
Qed.

Lemma create_symlink_harmless dirfd target name dbdir_name path :
  emits harmless (create_symlink dirfd target name dbdir_name path).
Proof.
  unfold create_symlink, symlinkat, openat, fstat, alloc, readlinkat.
  repeat emits_step.
Qed.

Lemma harmless_no_swap conf l :
  Forall (fun e => harmless (e_call e) = true) l -> no_swap conf l.
Proof.
  intros H. eapply Forall_impl; [exact H|]. intros e He Hc.
  cbv beta in He. by rewrite Hc in He.
Qed.

(** The five calls of a [create_symlink] that returns, in any world, and
    what the two that verify have seen. *)
Lemma create_symlink_calls dirfd target name dbdir_name path w :
  ok_wp (create_symlink dirfd target name dbdir_name path) w
    (fun fd w' => exists e1 e2 e3 e4 e5,
       log w' = e5 :: e4 :: e3 :: e2 :: e1 :: log w /\
       call_ok_of e1 = (EvSymlinkat target dirfd name, true) /\
       call_ok_of e2
       = (EvOpenat dirfd name (O_RDONLY .| O_NOFOLLOW .| O_PATH), true) /\
       call_ok_of e3 = (EvFstat fd, true) /\
       call_ok_of e4 = (EvAlloc, true) /\
       call_ok_of e5 = (EvReadlinkat fd, true) /\
       stats_as_link fd (Z.of_nat (String.length target)) (e_after e3) /\
       reads_as fd (Z.of_nat (String.length target)) target (e_after e5)).
Proof.
  unfold create_symlink, symlinkat, fstat, alloc, readlinkat.
  apply wp_bind, wp_assert; [intros _|done].
  apply wp_bind, wp_call; [done|]. intros [] s1 _ _.
  rewrite openat_awake by done.
  apply wp_bind, wp_call; [done|]. intros fd s2 _ _.
  apply wp_bind, wp_call; [done|]. intros st s3 _ H3.
  cbn [interfere tick os step_world] in H3.
  set (t3 := interfere w _ s2) in H3.
  pose proof H3 as H3'.
  apply k_fstat_inv in H3'. destruct H3' as (Hs3 & _).
  destruct (S_ISLNK (st_mode st)) eqn:Hl; cbn [negb]; [|by apply wp_FATAL].
  destruct ((st_size st <=? 0) || (st_size st >? SSIZE_MAX - 1));
    [by apply wp_FATAL|].
  destruct (st_size st =? Z.of_nat (String.length target)) eqn:Hsz;
    cbn [negb]; [|by apply wp_FATAL].
  apply Z.eqb_eq in Hsz.
  apply wp_bind, wp_call; [done|]. intros [] s4 _ _.
  apply wp_bind, wp_call; [done|]. intros nt s5 _ H5.
  cbn [interfere tick os step_world] in H5.
  set (t5 := interfere w _ s4) in H5.
  pose proof H5 as H5'.
  apply k_readlinkat_inv in H5'. destruct H5' as (Hs5 & nd & tg & _ & _ & Hnt).
  destruct (memcmp_differs target nt (st_size st)) eqn:Hm;
    [by apply wp_FATAL|].
  apply wp_ret. rewrite Hnt in Hm. apply memcmp_same in Hm; [|done].
  rewrite <- Hnt in Hm. rewrite Hm, Hsz in H5.
  eexists _, _, _, _, _. split; [reflexivity|].
  cbn [call_ok_of e_call e_ok e_after]. split_and!; try done.
  - exists st. rewrite Hs3 in H3 |- *.
    split; [exact H3|split; [exact Hl|exact Hsz]].
  - unfold reads_as. rewrite Hs5 in H5 |- *. exact H5.
Qed.

(** The calls of [update_nssdb_symlink], whatever happens around them. *)
Lemma update_nssdb_symlink_checked conf linkst w :
  wpo (update_nssdb_symlink conf linkst) w (fun o w' =>
    exists pre,
      match o with
      | Done _ =>
          exists s L,
            log w' = swap_entry conf s :: pre ++ log w /\
            map call_ok_of pre =
              [(EvClose L, true);
               (EvFchown L (Some (st_uid linkst)) (Some (st_gid linkst)),
                true);
               (EvReadlinkat L, true); (EvAlloc, true); (EvFstat L, true);
               (EvOpenat conf "alias.new" (O_RDONLY .| O_NOFOLLOW .| O_PATH),
                true);
               (EvSymlinkat (new_dbdir_name w) conf "alias.new", true)] /\
            (forall e, e ∈ pre -> e_call e = EvFstat L ->
               stats_as_link L
                 (Z.of_nat (String.length (new_dbdir_name w))) (e_after e)) /\
            (forall e, e ∈ pre -> e_call e = EvReadlinkat L ->
               reads_as L (Z.of_nat (String.length (new_dbdir_name w)))
                 (new_dbdir_name w) (e_after e))
      | _ => log w' = pre ++ log w /\ no_swap conf pre
      end).
Proof.
  unfold update_nssdb_symlink. apply wpo_step_get. apply wpo_bind.
  unfold wpo at 1.
  destruct (create_symlink conf (new_dbdir_name w) "alias.new" "" "alias.new" w)
    as [o1 w1] eqn:Hc.
  destruct (emits_run _ _ _ _ _
              (create_symlink_harmless conf (new_dbdir_name w) "alias.new" ""
                 "alias.new") Hc) as (l1 & Hl1 & Hh1).
  pose proof (harmless_no_swap conf l1 Hh1) as Hn1.
  cbn [fst snd].
  destruct o1 as [L|msg| |sg| |]; try (by exists l1).
  pose proof (create_symlink_calls conf (new_dbdir_name w) "alias.new" ""
                "alias.new" w) as Hcalls.
  unfold wp in Hcalls. rewrite Hc in Hcalls.
  destruct Hcalls as (e1 & e2 & e3 & e4 & e5 & Hlog & H1 & H2 & H3 & H4 & H5
                      & Hst & Hrd).
  assert (l1 = [e5; e4; e3; e2; e1]) as ->.
  { rewrite Hlog in Hl1.
    change (e5 :: e4 :: e3 :: e2 :: e1 :: log w)
      with ([e5; e4; e3; e2; e1] ++ log w) in Hl1.
    by apply app_inv_tail in Hl1. }
  unfold fchown, close, renameat.
  apply wpo_step_call.
  { eexists (_ :: [e5; e4; e3; e2; e1]). split; [cbn [log step_world]; by rewrite Hlog|].
    constructor; [by intros _|exact Hn1]. }
  intros [] s2 _.
  apply wpo_step_call.
  { eexists (_ :: _ :: [e5; e4; e3; e2; e1]). split; [cbn [log step_world]; by rewrite Hlog|].
    constructor; [by intros _|]. constructor; [by intros [=]|exact Hn1]. }
  intros [] s3 _.
  apply wpo_call.
  { eexists (_ :: _ :: _ :: [e5; e4; e3; e2; e1]).
    split; [cbn [log step_world]; by rewrite Hlog|].
    constructor; [by intros _|]. constructor; [by intros [=]|].
    constructor; [by intros [=]|exact Hn1]. }
  intros [] s _.
  eexists (_ :: _ :: [e5; e4; e3; e2; e1]). eexists s, L.
  split; [cbn [log step_world]; by rewrite Hlog|].
  split.
  { cbn [map]. rewrite H1, H2, H3, H4, H5. reflexivity. }
  unfold call_ok_of in *.
  split; intros e He Hce;
    repeat (apply elem_of_cons in He as [->|He]; [try done|]);
    try (by apply elem_of_nil in He);
    congruence.
Qed.

(** In an undisturbed run of [main], the owner and the group of the link
    that the rename puts behind the alias are those of the link that was
    behind it at the start. *)
Lemma main_keeps_alias_owner fuel w conf oldname r w' :
  quiet w -> wf_os (os w) ->
  paths (os w) !! httpd_conf_dir = Some conf ->
  well_linked (os w) conf -> alias_to (os w) conf oldname ->
  main fuel w = (r, w') ->
  (exists pre, log w' = pre ++ log w /\ r <> Done tt /\
     Forall (fun e => alias_to (e_after e) conf oldname) pre)
  \/
  (exists pre post s newname, newname <> oldname /\
     log w' = post ++ swap_entry conf s :: pre ++ log w /\
     Forall (fun e => alias_to (e_after e) conf oldname) pre /\
     alias_to s conf newname /\
     is_Some (alias_owner (os w) conf) /\
     alias_owner s conf = alias_owner (os w) conf).
Proof.
  intros Hq Hwf Hpath Hwl Hal Hrun.
  pose proof (main_phases fuel w conf oldname Hq Hwf Hpath Hwl Hal) as H.
  unfold wp in H. rewrite Hrun in H.
  assert (Hold : forall pre,
    Forall (entry_in no_unlink (old_live (os w) conf oldname)) pre ->
    Forall (fun e => alias_to (e_after e) conf oldname) pre).
  { intros pre Hpre. eapply Forall_impl; [exact Hpre|].
    by intros e [_ [? _]]. }
  assert (Hafter : after_swap w conf oldname w' ->
    exists pre post s newname, newname <> oldname /\
     log w' = post ++ swap_entry conf s :: pre ++ log w /\
     Forall (fun e => alias_to (e_after e) conf oldname) pre /\
     alias_to s conf newname /\
     is_Some (alias_owner (os w) conf) /\
     alias_owner s conf = alias_owner (os w) conf).
  { intros Ha.
    destruct (after_swap_unpack_owner _ _ _ _ Hwf Hal Ha)
      as (pre & post & s & newname & ? & ? & ? & ? & _ & _ & ? & ?).
    exists pre, post, s, newname. split_and!; auto. }
  assert (Hbefore : before_swap w conf w' -> r <> Done tt ->
    exists pre, log w' = pre ++ log w /\ r <> Done tt /\
     Forall (fun e => alias_to (e_after e) conf oldname) pre).
  { intros Hb Hr.
    destruct (before_swap_unpack _ _ _ _ Hwf Hal Hb) as (pre & ? & ? & ?).
    exists pre. split_and!; auto. }
  destruct r as [[]|msg| |sg| |];
    [right; destruct H as [Ha Hg]; by apply Hafter|..];
    (destruct H as [Hb|Ha]; [left; by apply Hbefore|right; by apply Hafter]).
Qed.

(** C2. [update_nssdb_symlink] and the alias.

    Whatever other processes do meanwhile: if the function returns, its
    calls were, in this order and all successful, symlinkat of alias.new
    with the new generation's name as target, openat, fstat, a buffer
    allocation and readlinkat of the new link, fchown of the link to the
    owner and group in [linkst], close, and one renameat of alias.new over
    alias, which is the last; the fstat saw a symbolic link of the length
    of the new name, and the readlinkat read back that very name.  If the
    function does not return, it has made no successful rename.

    When no other process acts: every state before the rename has the
    alias reading as at the start; after the rename the alias reads as
    the new generation's name, the link behind it has the owner and group
    of [linkst], and alias.new is no longer a name; if the function does
    not return, the alias still reads as at the start.

    In [main], undisturbed, [linkst] is what [old_nssdb_dir] read of the
    alias: the link that the rename puts behind the alias has the owner
    and the group of the link that was behind it when the run began. *)
Theorem alias_swap_is_one_rename conf linkst w r w' :
  update_nssdb_symlink conf linkst w = (r, w') ->
  let target := new_dbdir_name w in
  let n := Z.of_nat (String.length target) in
  exists pre,
    match r with
    | Done _ =>
        exists s L,
          log w' = swap_entry conf s :: pre ++ log w /\
          map call_ok_of pre =
            [(EvClose L, true);
             (EvFchown L (Some (st_uid linkst)) (Some (st_gid linkst)), true);
             (EvReadlinkat L, true); (EvAlloc, true); (EvFstat L, true);
             (EvOpenat conf "alias.new" (O_RDONLY .| O_NOFOLLOW .| O_PATH),
              true);
             (EvSymlinkat target conf "alias.new", true)] /\
          (forall e, e ∈ pre -> e_call e = EvFstat L ->
             stats_as_link L n (e_after e)) /\
          (forall e, e ∈ pre -> e_call e = EvReadlinkat L ->
             reads_as L n target (e_after e))
    | _ => log w' = pre ++ log w /\ no_swap conf pre
    end /\
    (quiet w -> wf_os (os w) ->
     forall oldname, alias_target (os w) conf = Some oldname ->
       Forall (fun e => alias_target (e_after e) conf = Some oldname) pre /\
       match r with
       | Done _ =>
           exists es L nd,
             alias_target (os w') conf = Some target /\
             dir_entries (os w') conf = Some es /\
             es !! "alias" = Some L /\ es !! "alias.new" = None /\
             inodes (os w') !! L = Some nd /\ i_body nd = Lnk target /\
             i_uid nd = st_uid linkst /\ i_gid nd = st_gid linkst
       | _ => alias_target (os w') conf = Some oldname
       end) /\
    (forall fuel w0 r0 w0' oldname,
       quiet w0 -> wf_os (os w0) ->
       paths (os w0) !! httpd_conf_dir = Some conf ->
       well_linked (os w0) conf -> alias_to (os w0) conf oldname ->
       main fuel w0 = (r0, w0') ->
       (exists pre0, log w0' = pre0 ++ log w0 /\ r0 <> Done tt /\
          Forall (fun e => alias_to (e_after e) conf oldname) pre0)
       \/
       (exists pre0 post s newname, newname <> oldname /\
          log w0' = post ++ swap_entry conf s :: pre0 ++ log w0 /\
          Forall (fun e => alias_to (e_after e) conf oldname) pre0 /\
          alias_to s conf newname /\
          is_Some (alias_owner (os w0) conf) /\
          alias_owner s conf = alias_owner (os w0) conf)).
Proof.
  intros Hrun target n.
  pose proof (update_nssdb_symlink_checked conf linkst w) as HA.
  unfold wpo in HA. rewrite Hrun in HA. cbn [fst snd] in HA.
  destruct HA as (pre & HA). exists pre.
  split; [exact HA|].
  split; [|intros fuel w0 r0 w0' oldname; apply main_keeps_alias_owner].
  intros Hq Hwf oldname Ht.
  destruct (alias_swap_undisturbed conf linkst oldname w r w' Hq Hwf Ht Hrun)
    as (pre' & Hpre' & HB).
  assert (pre' = pre) as ->.
  { destruct r as [[]|msg| |sg| |];
      [destruct HA as (s & L & Hlog & _);
       destruct HB as (s' & es & L' & nd & Hlog' & _);
       rewrite Hlog in Hlog'; injection Hlog' as _ Hl;
       by apply app_inv_tail in Hl|..];
      (destruct HA as [Hlog _]; destruct HB as [Hlog' _];
       rewrite Hlog in Hlog'; by apply app_inv_tail in Hlog'). }
  split; [done|].
  destruct r as [[]|msg| |sg| |]; try (by destruct HB).
  destruct HB as (s & es & L & nd & _ & <- & _ & ? & ? & ? & ? & ? & ? & ? & ?).
  exists es, L, nd. split_and!; done.
Qed.

(** * The theorems at work on a machine *)

Lemma wf_osb_ok s : wf_osb s = true -> wf_os s.
Proof.
  unfold wf_osb. rewrite forallb_forall. intros H i [nd Hnd].
  apply elem_of_map_to_list, list_elem_of_In, H in Hnd.
  by apply Nat.ltb_lt in Hnd.
Qed.

Lemma well_linkedb_ok s conf : well_linkedb s conf = true -> well_linked s conf.
Proof.
  unfold well_linkedb. rewrite forallb_forall. intros H i es name j Hes Hj.
  apply dir_entries_Some in Hes as (nd & Hnd & Hb).
  apply elem_of_map_to_list, list_elem_of_In, H in Hnd.
  cbn [snd] in Hnd. rewrite Hb in Hnd. rewrite forallb_forall in Hnd.
  apply elem_of_map_to_list, list_elem_of_In, Hnd in Hj. cbn [snd] in Hj.
  destruct (inodes s !! j) as [x|]; [|done]. split; [eauto|].
  apply negb_true_iff, Nat.eqb_neq in Hj. done.
Qed.

Lemma run_eq {T} (m : M T) w o : (m w).1 = o -> m w = (o, (m w).2).
Proof. intros <-. by destruct (m w). Qed.

Lemma fmap_Some_eq {A B} (f : A -> B) (o : option A) a b :
  o = Some a -> f <$> o = Some b -> f a = b.
Proof. intros -> [= <-]. done. Qed.

Ltac run_by_eval :=
  lazymatch goal with
  | |- ?m ?w = (?o, _) =>
      exact (run_eq m w o ltac:(vm_compute; reflexivity))
  end.

Lemma quiet_w0 : quiet w0.
Proof. by intros t s. Qed.

Lemma faultless_w0 : faultless w0.
Proof. by intros t. Qed.

Lemma wf_os0 : wf_os os0.
Proof. apply wf_osb_ok. by vm_compute. Qed.

Lemma entries_of_ok s d :
  is_dir s d = true -> dir_entries s d = Some (entries_of s d).
Proof.
  unfold is_dir, entries_of. by destruct (dir_entries s d).
Qed.

Lemma alias_to_os0 : alias_to os0 1%nat old_name0.
Proof.
  split; [by vm_compute|].
  exists (entries_of os0 1%nat), 3%nat.
  split; [apply entries_of_ok; by vm_compute|]. split; by vm_compute.
Qed.

(** C4 on [w0]: the run returns, so the alias was renamed. *)
Lemma reaper_runs_after_swap_witness :
  (exists pre, log w0_end = pre ++ log w0 /\ Done tt <> Done tt /\
     Forall (entry_in no_unlink (old_live (os w0) 1%nat old_name0)) pre /\
     old_live (os w0) 1%nat old_name0 (os w0_end))
  \/
  (exists pre post s newname, newname <> old_name0 /\
     log w0_end = post ++ swap_entry 1%nat s :: pre ++ log w0 /\
     Forall (entry_in no_unlink (old_live (os w0) 1%nat old_name0)) pre /\
     alias_to s 1%nat newname /\
     Forall (fun e => alias_to (e_after e) 1%nat newname) post /\
     alias_to (os w0_end) 1%nat newname /\
     (Done tt = Done tt ->
      exists es, dir_entries (os w0_end) 1%nat = Some es
                 /\ es !! old_name0 = None)).
Proof.
  apply (reaper_runs_after_swap 5 w0 1%nat old_name0 (Done tt) w0_end).
  - exact quiet_w0.
  - exact wf_os0.
  - by vm_compute.
  - apply well_linkedb_ok. by vm_compute.
  - exact alias_to_os0.
  - run_by_eval.
Defined.

(** C2 on [w0], with the new name already chosen, and on the whole run
    from [w0]: the alias belongs to user 0 and group 48 before and
    after. *)
Lemma alias_swap_is_one_rename_witness :
  let w := with_new_dbdir_name new_name0 w0 in
  let linkst := stat0 2%nat in
  let w' := (update_nssdb_symlink 1%nat linkst w).2 in
  (exists pre s L,
     log w' = swap_entry 1%nat s :: pre ++ log w /\
     map call_ok_of pre =
       [(EvClose L, true); (EvFchown L (Some 0) (Some 48), true);
        (EvReadlinkat L, true); (EvAlloc, true); (EvFstat L, true);
        (EvOpenat 1%nat "alias.new" (O_RDONLY .| O_NOFOLLOW .| O_PATH),
         true);
        (EvSymlinkat new_name0 1%nat "alias.new", true)] /\
     (forall e, e ∈ pre -> e_call e = EvReadlinkat L ->
        reads_as L 20 new_name0 (e_after e)) /\
     Forall (fun e => alias_target (e_after e) 1%nat = Some old_name0) pre /\
     alias_target (os w') 1%nat = Some new_name0) /\
  (exists pre0 post s newname, newname <> old_name0 /\
     log w0_end = post ++ swap_entry 1%nat s :: pre0 ++ log w0 /\
     alias_to s 1%nat newname /\
     alias_owner os0 1%nat = Some (0, 48) /\
     alias_owner s 1%nat = alias_owner os0 1%nat).
Proof.
  intros w linkst w'.
  destruct (alias_swap_is_one_rename 1%nat linkst w (Done tt) w'
              ltac:(run_by_eval)) as (pre & HA & HB & HC).
  split.
  - destruct HA as (s & L & Hlog & Hcalls & _ & Hread).
    destruct (HB ltac:(by intros t s0) wf_os0 old_name0 ltac:(by vm_compute))
      as (Hpre & es & L' & nd & Ht & _).
    exists pre, s, L. split_and!; done.
  - destruct (HC 5%nat w0 (Done tt) w0_end old_name0 quiet_w0 wf_os0
                ltac:(by vm_compute)
                ltac:(apply well_linkedb_ok; by vm_compute)
                alias_to_os0 ltac:(run_by_eval))
      as [(pre0 & _ & Hne & _)|(pre0 & post & s & newname & ? & ? & _ & ?
                                & _ & ?)]; [done|].
    exists pre0, post, s, newname. split_and!; done.
Defined.

(** C3 on [w_race]: cert8.db is rewritten during its copy. *)
Lemma changed_store_file_is_fatal_witness :
  main 5 w_race = (Fatal changed_msg, w_race_8) /\
  exists l', log w_race_8 = l' ++ log w_race
             /\ Forall (fun e => harmless (e_call e) = true) l'.
Proof.
  destruct (copy_file_contents_harmless 4%nat 12%nat "cert8.db"
              (stat0 4%nat) w_race_7) as (l0 & Hl0 & _).
  fold w_race_8 in Hl0.
  assert (Hhead : (fun e => (e_call e, e_ok e, inodes (e_after e) !! 4%nat))
                    <$> head (log w_race_8)
                  = Some (EvFstat 4%nat, true, Some cert8_rewritten))
    by (by vm_compute).
  assert (Hlen : length (log w_race_8) <> length (log w_race_7))
    by (by vm_compute).
  destruct l0 as [|e l]; cbn [app] in Hl0;
    [destruct Hlen; exact (f_equal length Hl0)|].
  pose proof (fmap_Some_eq _ _ _ _ (f_equal head Hl0) Hhead) as Hh.
  injection Hh as Hc Hok Hnd.
  apply (changed_store_file_is_fatal 5 w_race "cert8.db" 4%nat 12%nat
           (stat0 4%nat) w_race_7 e l cert8_rewritten).
  - exists 1%nat, w_race_1, 3%nat, (stat0 2%nat), w_race_2, 11%nat, w_race_3,
      [], ["key3.db"; "secmod.db"]%string, w_race_3, w_race_5, w_race_6.
    split; [run_by_eval|]. split; [run_by_eval|].
    split; [run_by_eval|]. split; [done|]. split; [done|].
    split; [run_by_eval|]. split; [run_by_eval|].
    split; [by vm_compute|]. run_by_eval.
  - by vm_compute.
  - exact Hl0.
  - exact Hc.
  - exact Hok.
  - exact Hnd.
  - by vm_compute.
Defined.

(** C3 as the claim has it fails on [w_empty]: key3.db is empty when it is
    opened, its content, size and modification time are changed before its
    copy is made, and the run returns.  The call at tick 27 is the [fstat]
    of the source, the one at tick 28 creates the copy, the one at tick 32
    closes the source. *)
Lemma empty_store_file_change_unnoticed :
  (main 5 w_empty).1 = Done tt /\
  (fun e => (e_call e, inodes (e_after e) !! 5%nat)) <$> calls_empty !! 27%nat
    = Some (EvFstat 5%nat, Some key3_empty) /\
  (fun e => (e_call e, inodes (e_after e) !! 5%nat)) <$> calls_empty !! 32%nat
    = Some (EvClose 5%nat, Some key3_rewritten) /\
  size_of (i_body key3_empty) = 0 /\
  size_of (i_body key3_rewritten) = 3 /\
  i_mtim key3_empty <> i_mtim key3_rewritten /\
  e_call <$> take 4 (drop 28 calls_empty)
    = [EvOpenat 11%nat "key3.db" (O_RDWR .| O_CREAT .| O_EXCL);
       EvFchown 13%nat None (Some 48); EvFchmod 13%nat 0x1B0;
       EvUtimens 13%nat (stamp 200) (stamp 201)].
Proof.
  split; [by vm_compute|]. split; [by vm_compute|].
  split; [by vm_compute|]. split; [done|]. split; [done|].
  split; by vm_compute.
Qed.



(** C6 on the world of [w0] after [new_nssdb_dir]: key3.db is new there. *)
Lemma copy_entry_regular_file_witness :
  let w' := (copy_entry (copy_dir_contents 3) 3%nat 11%nat "" "key3.db"
               w0_3).2 in
  exists dest, inodes (os w0_3) !! dest = None /\
    dir_entries (os w') 11%nat
      = Some (<["key3.db" := dest]> (entries_of (os w0_3) 11%nat)) /\
    inodes (os w') !! dest
      = Some (mk_inode 0x1A0 0 48 200 (Reg (bytes_of "KEY"))) /\
    (forall i, i <> dest -> i <> 11%nat ->
       inodes (os w') !! i = inodes (os w0_3) !! i).
Proof.
  intros w'.
  assert (Hnew : entries_of (os w0_3) 11%nat !! "key3.db" = None)
    by (by vm_compute).
  pose proof (copy_entry_regular_file (copy_dir_contents 3) 3%nat 11%nat ""
           "key3.db" w0_3 w' (entries_of (os w0_3) 3%nat)
           5%nat (mk_inode 0x1A0 0 48 200 (Reg (bytes_of "KEY")))
           (bytes_of "KEY") (entries_of (os w0_3) 11%nat)) as H.
  rewrite Hnew in H. apply H.
  - by intros t s.
  - apply wf_osb_ok. by vm_compute.
  - apply entries_of_ok. by vm_compute.
  - by vm_compute.
  - by vm_compute.
  - done.
  - unfold mk_inode. cbn [i_perm]. lia.
  - apply entries_of_ok. by vm_compute.
  - run_by_eval.
Defined.




(** C9 on the world of [w0] after [copy_nssdb_files], where key3.db is
    there already, and on three worlds where a character device, a FIFO
    that nobody reads and a socket stand in its place. *)
Lemma copy_file_existing_destination_witness :
  (exists w', os w' = with_inodes
                        (<[13%nat := synced (stat0 5%nat) false
                                       (store_copy w0_3
                                          (mk_inode 0x1A0 0 48 200
                                             (Reg (bytes_of "KEY")))
                                          (bytes_of "KEY"))]>
                           (inodes (os w0_4))) (os w0_4)
     /\ copy_file 5%nat 11%nat "key3.db" "/key3.db" (stat0 5%nat) w0_4
        = (Done tt, w')) /\
  (exists w', os w' = with_inodes
                        (<[13%nat := synced (stat0 5%nat) false
                                       (mk_inode 0x1B6 0 0 700
                                          (Special S_IFCHR))]>
                           (inodes (os_with_special S_IFCHR)))
                        (os_with_special S_IFCHR)
     /\ copy_file 5%nat 11%nat "key3.db" "/key3.db" (stat0 5%nat)
          (w_special S_IFCHR) = (Done tt, w')) /\
  (exists w', os w' = os_with_special S_IFIFO
     /\ copy_file 5%nat 11%nat "key3.db" "/key3.db" (stat0 5%nat)
          (w_special S_IFIFO) = (Asleep, w')) /\
  (exists w', os w' = os_with_special S_IFSOCK
     /\ copy_file 5%nat 11%nat "key3.db" "/key3.db" (stat0 5%nat)
          (w_special S_IFSOCK)
        = (Fatal "Failed to open file: %s/%s%s: %m", w')).
Proof.
  split; [|split; [|split]].
  - destruct (copy_file_existing_destination 5%nat 11%nat "key3.db"
                "/key3.db" (stat0 5%nat) w0_4
                (mk_inode 0x1A0 0 48 200 (Reg (bytes_of "KEY")))
                (entries_of (os w0_4) 11%nat) 13%nat
                (store_copy w0_3
                   (mk_inode 0x1A0 0 48 200 (Reg (bytes_of "KEY")))
                   (bytes_of "KEY")))
      as (_ & w' & Hrun & Hos & _).
    + by intros t s.
    + by intros t.
    + done.
    + by vm_compute.
    + done.
    + by vm_compute.
    + apply entries_of_ok. by vm_compute.
    + by vm_compute.
    + by vm_compute.
    + exists w'. split; [exact Hos|exact Hrun].
  - destruct (copy_file_existing_destination 5%nat 11%nat "key3.db"
                "/key3.db" (stat0 5%nat) (w_special S_IFCHR)
                (mk_inode 0x1A0 0 48 200 (Reg (bytes_of "KEY")))
                (entries_of (os_with_special S_IFCHR) 11%nat) 13%nat
                (mk_inode 0x1B6 0 0 700 (Special S_IFCHR)))
      as (_ & w' & Hrun & Hos & _).
    + by intros t s.
    + by intros t.
    + done.
    + by vm_compute.
    + done.
    + by vm_compute.
    + apply entries_of_ok. by vm_compute.
    + by vm_compute.
    + by vm_compute.
    + exists w'. split; [exact Hos|exact Hrun].
  - destruct (copy_file_existing_destination 5%nat 11%nat "key3.db"
                "/key3.db" (stat0 5%nat) (w_special S_IFIFO)
                (mk_inode 0x1A0 0 48 200 (Reg (bytes_of "KEY")))
                (entries_of (os_with_special S_IFIFO) 11%nat) 13%nat
                (mk_inode 0x1B6 0 0 700 (Special S_IFIFO)))
      as (Hty & w' & Hrun & Hos & _).
    + by intros t s.
    + by intros t.
    + done.
    + by vm_compute.
    + done.
    + by vm_compute.
    + apply entries_of_ok. by vm_compute.
    + by vm_compute.
    + by vm_compute.
    + assert (Ho : writable_by_type (os (w_special S_IFIFO)) 13%nat
                     (mk_inode 0x1B6 0 0 700 (Special S_IFIFO)) = Sleeps)
        by (by vm_compute).
      rewrite Hty, Ho in Hrun, Hos.
      exists w'. split; [exact Hos|exact Hrun].
  - destruct (copy_file_existing_destination 5%nat 11%nat "key3.db"
                "/key3.db" (stat0 5%nat) (w_special S_IFSOCK)
                (mk_inode 0x1A0 0 48 200 (Reg (bytes_of "KEY")))
                (entries_of (os_with_special S_IFSOCK) 11%nat) 13%nat
                (mk_inode 0x1B6 0 0 700 (Special S_IFSOCK)))
      as (_ & w' & Hrun & Hos & _).
    + by intros t s.
    + by intros t.
    + done.
    + by vm_compute.
    + done.
    + by vm_compute.
    + apply entries_of_ok. by vm_compute.
    + by vm_compute.
    + by vm_compute.
    + exists w'. split; [exact Hos|exact Hrun].
Defined.

(** C10 on [w_empty] and on [w_race]. *)
Lemma copy_file_contents_zero_size_witness :
  copy_file_contents 5%nat 13%nat "key3.db" (stat_of key3_empty) w_empty
    = (Done tt, w_empty) /\
  0 < st_size (stat0 4%nat).
Proof.
  split.
  - apply (proj1 (copy_file_contents_zero_size 5%nat 13%nat "key3.db"
                    (stat_of key3_empty) w_empty)).
    done.
  - apply (proj2 (copy_file_contents_zero_size 4%nat 12%nat "cert8.db"
                    (stat0 4%nat) w_race_7) w_race_8).
    run_by_eval.
Defined.

(** C1 on [w0], with the store of the old generation as the slot. *)
Lemma store_update_spec_witness :
  let cert := bytes_of "NEWCERT" in
  let w' := ((remove_old_certs 4%nat ;; add_new_cert 4%nat cert) w0).2 in
  let new := {| nickname := "www.example.com"; derCert := cert |} in
  read_db (os w') 4%nat
    = Some (List.filter (other_nick "www.example.com") db0 ++ [new]) /\
  forall rs, read_db (os w') 4%nat = Some rs ->
    List.filter (fun r => String.eqb (nickname r) "www.example.com") rs
    = [new].
Proof.
  intros cert w' new.
  apply (store_update_spec 4%nat cert w0 w' db0).
  - by intros t s.
  - by vm_compute.
  - run_by_eval.
Defined.
